(** * CHORD: compiler and runtime, embedded from [chord_compiler.py] and
      [chord_runtime.py]

    Python values are embedded as the inductive [value]; a [dict] is the
    ordered list of its items (Python keeps insertion order and keys are
    unique).  A Python [str] is a Rocq [string]: ASCII text is modelled
    exactly, a character outside ASCII appears as its UTF-8 bytes, which the
    model treats as plain symbols (neither space, nor word character, nor
    cased).  Code that can raise returns a [result]. *)

From Stdlib Require Import String Ascii List ZArith Lia Bool Arith.
From Stdlib Require Import DecimalString Permutation Sorted.
Import ListNotations.
Open Scope list_scope.
Open Scope string_scope.
Open Scope nat_scope.
Set Warnings "-register-all".
Set Warnings "-automation".
Set Warnings "-notation-overridden".
Set Warnings "-notation-incompatible-prefix".

(** ** Exceptions and results *)

Inductive exn_kind :=
| ValueError | TypeError | AttributeError | KeyError
| FileNotFoundError | IsADirectoryError | NotADirectoryError.

(** [Exn k msg]: an exception of class [k] whose [str(e)] is [msg]. *)
Inductive exn := Exn (kind : exn_kind) (msg : string).

Definition exn_str (e : exn) : string := let 'Exn _ m := e in m.
Definition exn_class (e : exn) : exn_kind := let 'Exn k _ := e in k.

Inductive result (A : Type) :=
| Ok (a : A)
| Raise (e : exn).
Arguments Ok {A} a.
Arguments Raise {A} e.

Definition rbind {A B} (r : result A) (f : A -> result B) : result B :=
  match r with
  | Ok a => f a
  | Raise e => Raise e
  end.

Notation "x <- c1 ;; c2" := (rbind c1 (fun x => c2))
  (at level 61, c1 at next level, right associativity).

Fixpoint mapM {A B} (f : A -> result B) (l : list A) : result (list B) :=
  match l with
  | [] => Ok []
  | a :: r => b <- f a ;; bs <- mapM f r ;; Ok (b :: bs)
  end.

(** ** Strings: the [str] methods the sources use *)

Module Str.

Definition startswith (s p : string) : bool := String.prefix p s.

Fixpoint drop (n : nat) (s : string) : string :=
  match n, s with
  | O, _ => s
  | S k, String _ r => drop k r
  | S _, EmptyString => EmptyString
  end.

Fixpoint take (n : nat) (s : string) : string :=
  match n, s with
  | S k, String c r => String c (take k r)
  | _, _ => EmptyString
  end.

Definition endswith (s p : string) : bool :=
  (String.length p <=? String.length s)%nat
  && String.eqb (drop (String.length s - String.length p) s) p.

(** [s[1:-1]] *)
Definition strip_ends (s : string) : string :=
  take (String.length s - 2) (drop 1 s).

(** [s.split(sep)] for a one-character separator: never empty. *)
Fixpoint split_on (sep : ascii) (s : string) : list string :=
  match s with
  | EmptyString => [EmptyString]
  | String c r =>
      if Ascii.eqb c sep then EmptyString :: split_on sep r
      else match split_on sep r with
           | h :: t => String c h :: t
           | [] => [String c EmptyString]
           end
  end.

(** Line boundaries of [str.splitlines] within ASCII:
    \n \r \v \f \x1c \x1d \x1e (and \r\n as one boundary). *)
Definition is_linebreak (c : ascii) : bool :=
  let n := nat_of_ascii c in
  (n =? 10) || (n =? 13) || (n =? 11) || (n =? 12)
  || (n =? 28) || (n =? 29) || (n =? 30).

Fixpoint splitlines (s : string) : list string :=
  match s with
  | EmptyString => []
  | String c r =>
      if is_linebreak c then
        EmptyString ::
          (if (nat_of_ascii c =? 13) then
             match r with
             | String c' r' =>
                 if (nat_of_ascii c' =? 10) then splitlines r' else splitlines r
             | EmptyString => splitlines r
             end
           else splitlines r)
      else match splitlines r with
           | h :: t => String c h :: t
           | [] => [String c EmptyString]
           end
  end.

(** Whitespace of [str.split()] / [str.isspace] within ASCII. *)
Definition is_space (c : ascii) : bool :=
  let n := nat_of_ascii c in
  (n =? 32) || ((9 <=? n) && (n <=? 13)) || ((28 <=? n) && (n <=? 31)).

(** [s.split()]: maximal runs of non-space characters. *)
Fixpoint split_ws_from (cur : string) (s : string) : list string :=
  match s with
  | EmptyString => if String.eqb cur EmptyString then [] else [cur]
  | String c r =>
      if is_space c then
        (if String.eqb cur EmptyString then split_ws_from EmptyString r
         else cur :: split_ws_from EmptyString r)
      else split_ws_from (cur ++ String c EmptyString) r
  end.

Definition split (s : string) : list string := split_ws_from EmptyString s.

Definition lower_char (c : ascii) : ascii :=
  let n := nat_of_ascii c in
  if (65 <=? n) && (n <=? 90) then ascii_of_nat (n + 32) else c.

Definition upper_char (c : ascii) : ascii :=
  let n := nat_of_ascii c in
  if (97 <=? n) && (n <=? 122) then ascii_of_nat (n - 32) else c.

Fixpoint map_chars (f : ascii -> ascii) (s : string) : string :=
  match s with
  | EmptyString => EmptyString
  | String c r => String (f c) (map_chars f r)
  end.

Definition lower : string -> string := map_chars lower_char.
Definition upper : string -> string := map_chars upper_char.

(** [sub in s] *)
Fixpoint contains (sub s : string) : bool :=
  String.prefix sub s
  || match s with
     | EmptyString => false
     | String _ r => contains sub r
     end.

(** [s.replace(old, new)]: every non-overlapping occurrence, left to right.
    [skip] counts the characters of a matched occurrence still to pass. *)
Fixpoint replace_from (old new : string) (skip : nat) (s : string) : string :=
  match s with
  | EmptyString => EmptyString
  | String c r =>
      match skip with
      | S k => replace_from old new k r
      | O =>
          if String.prefix old s
          then new ++ replace_from old new (String.length old - 1) r
          else String c (replace_from old new 0 r)
      end
  end.

Fixpoint intersperse_all (new : string) (s : string) : string :=
  match s with
  | EmptyString => new
  | String c r => new ++ String c (intersperse_all new r)
  end.

Definition replace (s old new : string) : string :=
  match old with
  | EmptyString => intersperse_all new s
  | _ => replace_from old new 0 s
  end.

(** [sep.join(parts)] *)
Definition join (sep : string) (parts : list string) : string :=
  String.concat sep parts.

Definition of_Z (z : Z) : string := NilZero.string_of_int (Z.to_int z).

End Str.

(** ** Python values *)

Inductive value :=
| VNone
| VBool (b : bool)
| VInt (z : Z)
| VFloat (repr : string)   (* a float, carried by its [repr]; no float arithmetic is modelled *)
| VStr (s : string)
| VList (l : list value)
| VDict (d : list (string * value)).

Definition dict := list (string * value).

Fixpoint dict_get {A} (k : string) (d : list (string * A)) : option A :=
  match d with
  | [] => None
  | (k', v) :: r => if String.eqb k k' then Some v else dict_get k r
  end.

Definition dict_has {A} (k : string) (d : list (string * A)) : bool :=
  match dict_get k d with Some _ => true | None => false end.

(** [d.get(k, default)] *)
Definition dict_get_default (k : string) (default : value) (d : dict) : value :=
  match dict_get k d with Some v => v | None => default end.

(** [d[k] = v]: replaces the value in place when the key exists, else
    appends the item. *)
Fixpoint dict_set {A} (k : string) (v : A) (d : list (string * A)) : list (string * A) :=
  match d with
  | [] => [(k, v)]
  | (k', v') :: r =>
      if String.eqb k k' then (k', v) :: r else (k', v') :: dict_set k v r
  end.

Definition is_str_ref (v : value) : bool :=
  match v with
  | VStr s => Str.startswith s "@"
  | _ => false
  end.

(** Truth value of a Python object. *)
Definition truthy (v : value) : bool :=
  match v with
  | VNone => false
  | VBool b => b
  | VInt z => negb (Z.eqb z 0)
  | VFloat r => negb (String.eqb r "0.0" || String.eqb r "-0.0")
  | VStr s => negb (String.eqb s "")
  | VList l => match l with [] => false | _ => true end
  | VDict d => match d with [] => false | _ => true end
  end.

(** *** [repr] and [str] *)

Definition hex_digit (n : nat) : ascii :=
  if (n <? 10)%nat then ascii_of_nat (48 + n) else ascii_of_nat (87 + n).

Definition repr_char (quote : ascii) (c : ascii) : string :=
  let n := nat_of_ascii c in
  if Ascii.eqb c quote || (n =? 92) then String "\" (String c EmptyString)
  else if n =? 9 then "\t"
  else if n =? 10 then "\n"
  else if n =? 13 then "\r"
  else if (n <? 32) || (n =? 127) then
    String "\" (String "x" (String (hex_digit (n / 16)) (String (hex_digit (n mod 16)) EmptyString)))
  else String c EmptyString.

Fixpoint repr_chars (quote : ascii) (s : string) : string :=
  match s with
  | EmptyString => EmptyString
  | String c r => repr_char quote c ++ repr_chars quote r
  end.

Definition squote : ascii := ascii_of_nat 39.
Definition dquote : ascii := ascii_of_nat 34.

(** [repr(s)] of a string: single quotes unless the text has a single quote
    and no double quote. *)
Definition repr_str (s : string) : string :=
  let q :=
    if Str.contains (String squote EmptyString) s
       && negb (Str.contains (String dquote EmptyString) s)
    then dquote else squote in
  String q (repr_chars q s ++ String q EmptyString).

Fixpoint py_repr (v : value) : string :=
  match v with
  | VNone => "None"
  | VBool true => "True"
  | VBool false => "False"
  | VInt z => Str.of_Z z
  | VFloat r => r
  | VStr s => repr_str s
  | VList l =>
      "[" ++ Str.join ", " ((fix go (l : list value) : list string :=
                               match l with
                               | [] => []
                               | x :: r => py_repr x :: go r
                               end) l) ++ "]"
  | VDict d =>
      "{" ++ Str.join ", " ((fix go (d : list (string * value)) : list string :=
                               match d with
                               | [] => []
                               | (k, x) :: r => (repr_str k ++ ": " ++ py_repr x) :: go r
                               end) d) ++ "}"
  end.

(** [str(v)], also what an f-string inserts for [{v}]. *)
Definition py_str (v : value) : string :=
  match v with
  | VStr s => s
  | _ => py_repr v
  end.

(** [for x in v]: the items a [for] loop sees, or the [TypeError] of a
    value that is not iterable. *)
Fixpoint chars_of (s : string) : list value :=
  match s with
  | EmptyString => []
  | String c r => VStr (String c EmptyString) :: chars_of r
  end.

Definition type_name (v : value) : string :=
  match v with
  | VNone => "NoneType"
  | VBool _ => "bool"
  | VInt _ => "int"
  | VFloat _ => "float"
  | VStr _ => "str"
  | VList _ => "list"
  | VDict _ => "dict"
  end.

Definition not_iterable (v : value) : exn :=
  Exn TypeError ("'" ++ type_name v ++ "' object is not iterable").

Definition py_iter (v : value) : result (list value) :=
  match v with
  | VList l => Ok l
  | VStr s => Ok (chars_of s)
  | VDict d => Ok (map (fun kv => VStr (fst kv)) d)
  | _ => Raise (not_iterable v)
  end.

Definition no_attribute (v : value) (attr : string) : exn :=
  Exn AttributeError
      ("'" ++ type_name v ++ "' object has no attribute '" ++ attr ++ "'").

(** ** Compiler ([chord_compiler.py]) *)

Inductive NodeType :=
| CTX | CAP | ROLE | POLICY | MODEL | TASK | FLOW | VIEW
| SIGNAL | MEMORY | HOOK | TEST | CACHE.

Definition NodeType_value (t : NodeType) : string :=
  match t with
  | CTX => "ctx" | CAP => "cap" | ROLE => "role" | POLICY => "policy"
  | MODEL => "model" | TASK => "task" | FLOW => "flow" | VIEW => "view"
  | SIGNAL => "signal" | MEMORY => "memory" | HOOK => "hook"
  | TEST => "test" | CACHE => "cache"
  end.

Record Node := {
  node_type : NodeType;
  node_id : string;
  node_properties : dict;
  node_metadata : value;
  node_line : nat
}.

Record Graph := {
  graph_nodes : list (string * Node);
  graph_metadata : dict;
  graph_imports : list string
}.

(** The compiled node: the dict literal of [compile_node], whose keys are
    fixed; ["metadata"] is present only when the node has some. *)
Record CompiledNode := {
  cn_type : string;
  cn_id : string;
  cn_properties : dict;
  cn_metadata : option value
}.

(** The view record built by [compile_view]. *)
Record View := {
  view_id : string;
  view_type : string;
  view_task : value;
  view_role : value;
  view_model : value;
  view_policy : value;
  view_selectors : list value;
  view_prompt : value;
  view_response_format : value;
  view_post_process : value;
  view_asserts : value
}.

(** The flow record built by [compile_flow]: a key whose value is [None]
    is dropped, so every optional field is an [option]. *)
Record Flow := {
  flow_id : string;
  flow_type : string;
  flow_entry : option value;
  flow_edges : option value;
  flow_parallel : option value;
  flow_sequential : option value;
  flow_conditional : option value;
  flow_error_handling : option value;
  flow_schedule : option value
}.

Record IR := {
  ir_version : string;
  ir_metadata : dict;
  ir_nodes : list (string * CompiledNode);
  ir_views : list View;
  ir_flows : list Flow;
  ir_tests : list CompiledNode
}.

Module Compiler.

(** The loop of [resolve_reference] over [parts[1:]]: [unresolved] is the
    string [f"@{ref}"] returned when a segment is missing. *)
Fixpoint navigate (unresolved : string) (v : value) (parts : list string) : value :=
  match parts with
  | [] => v
  | part :: rest =>
      match v with
      | VDict d =>
          match dict_get part d with
          | Some v' => navigate unresolved v' rest
          | None => VStr unresolved
          end
      | _ => VStr unresolved
      end
  end.

Definition resolve_reference (g : Graph) (ref : string) : result value :=
  if negb (Str.startswith ref "@") then Ok (VStr ref)
  else
    let ref := Str.drop 1 ref in
    if Str.startswith ref "{" && Str.endswith ref "}"
    then Ok (VStr ("@{" ++ Str.strip_ends ref ++ "}"))
    else
      let parts := Str.split_on "." ref in
      let node_id := hd "" parts in
      match dict_get node_id (graph_nodes g) with
      | None => Raise (Exn ValueError ("Unknown reference: @" ++ ref))
      | Some node =>
          if length parts =? 1 then Ok (VStr ("@" ++ node_id))
          else Ok (navigate ("@" ++ ref) (VDict (node_properties node)) (tl parts))
      end.

(** An element of a list comprehension of [compile_node] / [compile_object]:
    [resolve_reference(v) if isinstance(v, str) and v.startswith("@") else v]. *)
Definition compile_element (g : Graph) (v : value) : result value :=
  match v with
  | VStr s => if Str.startswith s "@" then resolve_reference g s else Ok v
  | _ => Ok v
  end.

(** The loop over [d.items()] that stores [f(value)] under each key of a
    fresh dict: keys are unique, so the items are rebuilt one for one. *)
Fixpoint map_items (f : value -> result value) (d : dict) : result dict :=
  match d with
  | [] => Ok []
  | (k, x) :: r => x' <- f x ;; r' <- map_items f r ;; Ok ((k, x') :: r')
  end.

(** The [if]/[elif] chain applied to each property value, the same in
    [compile_node] and [compile_object]; the dict case is the recursive call
    of [compile_object]. *)
Fixpoint compile_property (g : Graph) (v : value) : result value :=
  match v with
  | VStr s => if Str.startswith s "@" then resolve_reference g s else Ok v
  | VList l => l' <- mapM (compile_element g) l ;; Ok (VList l')
  | VDict d =>
      d' <- (fix items (d : list (string * value)) : result dict :=
               match d with
               | [] => Ok []
               | (k, x) :: r =>
                   x' <- compile_property g x ;; r' <- items r ;; Ok ((k, x') :: r')
               end) d ;;
      Ok (VDict d')
  | _ => Ok v
  end.

Definition compile_object (g : Graph) (obj : dict) : result dict :=
  map_items (compile_property g) obj.

Definition compile_node (g : Graph) (node : Node) : result CompiledNode :=
  props <- map_items (compile_property g) (node_properties node) ;;
  Ok {| cn_type := NodeType_value (node_type node);
        cn_id := node_id node;
        cn_properties := props;
        cn_metadata := if truthy (node_metadata node)
                       then Some (node_metadata node) else None |}.

Definition compile_selector (g : Graph) (selector : value) : result value :=
  match selector with
  | VDict d => d' <- compile_object g d ;; Ok (VDict d')
  | _ => Ok selector
  end.

Definition compile_view (g : Graph) (node : Node) : result View :=
  let props := node_properties node in
  selectors <- py_iter (dict_get_default "selectors" (VList []) props) ;;
  compiled_selectors <- mapM (compile_selector g) selectors ;;
  Ok {| view_id := node_id node;
        view_type := "view";
        view_task := dict_get_default "task" VNone props;
        view_role := dict_get_default "role" VNone props;
        view_model := dict_get_default "model" VNone props;
        view_policy := dict_get_default "policy" VNone props;
        view_selectors := compiled_selectors;
        view_prompt := dict_get_default "prompt" (VDict []) props;
        view_response_format := dict_get_default "response_format" VNone props;
        view_post_process := dict_get_default "post_process" (VList []) props;
        view_asserts := dict_get_default "asserts" (VList []) props |}.

(** [{k: v for k, v in flow.items() if v is not None}] on one field. *)
Definition drop_none (v : option value) : option value :=
  match v with
  | Some VNone => None
  | _ => v
  end.

Definition compile_flow (node : Node) : Flow :=
  let props := node_properties node in
  {| flow_id := node_id node;
     flow_type := "flow";
     flow_entry := drop_none (dict_get "entry" props);
     flow_edges := drop_none (Some (dict_get_default "edges" (VList []) props));
     flow_parallel := drop_none (dict_get "parallel" props);
     flow_sequential := drop_none (dict_get "sequential" props);
     flow_conditional := drop_none (dict_get "conditional" props);
     flow_error_handling := drop_none (dict_get "error_handling" props);
     flow_schedule := drop_none (dict_get "schedule" props) |}.

Definition compile_step (g : Graph) (ir : IR) (item : string * Node) : result IR :=
  let '(nid, node) := item in
  c <- compile_node g node ;;
  let ir := {| ir_version := ir_version ir; ir_metadata := ir_metadata ir;
               ir_nodes := dict_set nid c (ir_nodes ir);
               ir_views := ir_views ir; ir_flows := ir_flows ir;
               ir_tests := ir_tests ir |} in
  match node_type node with
  | VIEW =>
      v <- compile_view g node ;;
      Ok {| ir_version := ir_version ir; ir_metadata := ir_metadata ir;
            ir_nodes := ir_nodes ir; ir_views := ir_views ir ++ [v];
            ir_flows := ir_flows ir; ir_tests := ir_tests ir |}
  | FLOW =>
      Ok {| ir_version := ir_version ir; ir_metadata := ir_metadata ir;
            ir_nodes := ir_nodes ir; ir_views := ir_views ir;
            ir_flows := ir_flows ir ++ [compile_flow node];
            ir_tests := ir_tests ir |}
  | TEST =>
      t <- compile_node g node ;;
      Ok {| ir_version := ir_version ir; ir_metadata := ir_metadata ir;
            ir_nodes := ir_nodes ir; ir_views := ir_views ir;
            ir_flows := ir_flows ir; ir_tests := ir_tests ir ++ [t] |}
  | _ => Ok ir
  end.

Fixpoint compile_loop (g : Graph) (ir : IR) (items : list (string * Node)) : result IR :=
  match items with
  | [] => Ok ir
  | item :: rest => ir' <- compile_step g ir item ;; compile_loop g ir' rest
  end.

Definition compile (g : Graph) : result IR :=
  compile_loop g
    {| ir_version := "1.0.0"; ir_metadata := graph_metadata g;
       ir_nodes := []; ir_views := []; ir_flows := []; ir_tests := [] |}
    (graph_nodes g).

End Compiler.

(** ** Lexer: multi-line strings ([Lexer.read_multiline_string]) *)

Module Lexer.

Definition newline : ascii := ascii_of_nat 10.

(** The lexer's cursor.  [rest] is [source[pos:]], the part of the source
    not yet read; [pos], [line] and [column] are the fields of the class. *)
Record t := {
  rest : string;
  pos : nat;
  line : nat;
  column : nat
}.

Definition init (source : string) : t :=
  {| rest := source; pos := 0; line := 1; column := 1 |}.

Definition current_char (lx : t) : option ascii :=
  match rest lx with
  | String c _ => Some c
  | EmptyString => None
  end.

Definition advance (lx : t) : t :=
  match rest lx with
  | String c r =>
      {| rest := r; pos := S (pos lx);
         line := if Ascii.eqb c newline then S (line lx) else line lx;
         column := if Ascii.eqb c newline then 1 else S (column lx) |}
  | EmptyString =>
      {| rest := EmptyString; pos := S (pos lx);
         line := line lx; column := S (column lx) |}
  end.

(** [while self.current_char() and p(self.current_char()): self.advance()],
    counting the characters passed.  [s] is [rest lx]. *)
Fixpoint advance_while (p : ascii -> bool) (s : string) (lx : t) : nat * t :=
  match s with
  | String c r =>
      if p c then
        let '(n, lx') := advance_while p r (advance lx) in (S n, lx')
      else (0, lx)
  | EmptyString => (0, lx)
  end.

(** [c in ' \t'] *)
Definition is_indent (c : ascii) : bool :=
  (nat_of_ascii c =? 32) || (nat_of_ascii c =? 9).

Definition not_newline (c : ascii) : bool := negb (Ascii.eqb c newline).

(** [self.pos = start_pos]: only the position goes back, the line and column
    counters keep their values. *)
Definition rewind (lx start : t) : t :=
  {| rest := rest start; pos := pos start; line := line lx; column := column lx |}.

(** The main [while self.current_char():] loop.  Every iteration reads at
    least one character, so [fuel] bounds the iterations by the length of
    the unread source. *)
Fixpoint body_loop (fuel base_indent : nat) (lines : list string)
    (current_line : string) (lx : t) : list string * string * t :=
  match fuel with
  | O => (lines, current_line, lx)
  | S fuel' =>
      match rest lx with
      | EmptyString => (lines, current_line, lx)
      | String c _ =>
          if Ascii.eqb c newline then
            let lines := (lines ++ [current_line])%list in
            let lx1 := advance lx in
            let '(indent, lx2) := advance_while is_indent (rest lx1) lx1 in
            match current_char lx2 with
            | Some c2 =>
                if (indent <? base_indent) && negb (Ascii.eqb c2 newline)
                then (lines, EmptyString, rewind lx2 lx1)
                else body_loop fuel' base_indent lines EmptyString lx2
            | None => body_loop fuel' base_indent lines EmptyString lx2
            end
          else
            body_loop fuel' base_indent lines
              (current_line ++ String c EmptyString) (advance lx)
      end
  end.

Definition read_multiline_string (lx : t) : string * t :=
  let lx := advance lx in
  let '(_, lx) := advance_while not_newline (rest lx) lx in
  let lx := match current_char lx with
            | Some c => if Ascii.eqb c newline then advance lx else lx
            | None => lx
            end in
  let '(base_indent, lx) := advance_while is_indent (rest lx) lx in
  let '(lines, current_line, lx) :=
    body_loop (String.length (rest lx)) base_indent [] EmptyString lx in
  let lines := if String.eqb current_line EmptyString then lines
               else (lines ++ [current_line])%list in
  (Str.join (String newline EmptyString) lines, lx).

Inductive TokenType :=
| DEF | IDENTIFIER | LBRACE | RBRACE | LBRACKET | RBRACKET | COLON | COMMA
| STRING | NUMBER | BOOLEAN | NULL | REFERENCE | COMMENT | PIPE | NEWLINE | EOF.

Record Token := {
  tok_type : TokenType;
  tok_value : value;
  tok_line : nat;
  tok_column : nat
}.

(** The branch of [tokenize] taken when the current character is [|]. *)
Definition tokenize_multiline (lx : t) : Token * t :=
  let '(v, lx') := read_multiline_string lx in
  ({| tok_type := STRING; tok_value := VStr v;
      tok_line := line lx; tok_column := column lx |}, lx').

(** Number of leading spaces and tabs of a line, and the line without them. *)
Fixpoint indent_len (s : string) : nat :=
  match s with
  | String c r => if is_indent c then S (indent_len r) else 0
  | EmptyString => 0
  end.

Fixpoint lstrip (s : string) : string :=
  match s with
  | String c r => if is_indent c then lstrip r else s
  | EmptyString => EmptyString
  end.

Fixpoint no_newline (s : string) : bool :=
  match s with
  | String c r => not_newline c && no_newline r
  | EmptyString => true
  end.

(** Source layout: every body line followed by a newline, then what comes
    after the body. *)
Fixpoint lines_then (body : list string) (after : string) : string :=
  match body with
  | [] => after
  | l :: r => l ++ String newline (lines_then r after)
  end.

(** A [|] introducer, the rest of its line, then the body and what follows. *)
Definition multiline_source (header : string) (body : list string) (after : string) : string :=
  String "|" (header ++ String newline (lines_then body after)).

(** The value the specification describes: the indentation of the first
    body line, and exactly that many characters, removed from every line. *)
Definition spec_multiline_value (body : list string) : string :=
  let base := indent_len (hd EmptyString body) in
  Str.join (String newline EmptyString) (map (Str.drop base) body).

(** The value the lexer builds: every line without its leading blanks. *)
Definition lexed_multiline_value (body : list string) : string :=
  Str.join (String newline EmptyString) (map lstrip body).

End Lexer.

(** ** Selector operations ([chord_runtime.py]) *)

(** [execute(data, params)] of a [SelectorOperation]. *)
Definition SelectorOperation := value -> dict -> result value.

(** A value used as a slice bound: an [int] (or [bool]), or [None]. *)
Definition slice_error : exn :=
  Exn TypeError "slice indices must be integers or None or have an __index__ method".

Definition slice_bound (v : value) : result (option Z) :=
  match v with
  | VNone => Ok None
  | VInt z => Ok (Some z)
  | VBool b => Ok (Some (if b then 1%Z else 0%Z))
  | _ => Raise slice_error
  end.

(** [-v] followed by its use as a slice bound. *)
Definition negated_bound (v : value) : result Z :=
  match v with
  | VInt z => Ok (- z)%Z
  | VBool b => Ok (if b then (-1)%Z else 0%Z)
  | VFloat _ => Raise slice_error
  | _ => Raise (Exn TypeError ("bad operand type for unary -: '" ++ type_name v ++ "'"))
  end.

(** [l[k:]] *)
Definition slice_from {A} (k : Z) (l : list A) : list A :=
  if (0 <=? k)%Z then skipn (Z.to_nat k) l
  else skipn (Z.to_nat (Z.of_nat (length l) + k)) l.

(** [l[:k]] *)
Definition slice_to {A} (k : option Z) (l : list A) : list A :=
  match k with
  | None => l
  | Some k =>
      if (0 <=? k)%Z then firstn (Z.to_nat k) l
      else firstn (Z.to_nat (Z.of_nat (length l) + k)) l
  end.

Definition nl : string := String Lexer.newline EmptyString.

Module HeadSelector.
Definition execute : SelectorOperation := fun data params =>
  let lines := dict_get_default "lines" (VInt 100) params in
  match data with
  | VStr s =>
      k <- slice_bound lines ;;
      Ok (VStr (Str.join nl (slice_to k (Str.splitlines s))))
  | _ => Ok data
  end.
End HeadSelector.

Module TailSelector.
Definition execute : SelectorOperation := fun data params =>
  let lines := dict_get_default "lines" (VInt 100) params in
  match data with
  | VStr s =>
      k <- negated_bound lines ;;
      Ok (VStr (Str.join nl (slice_from k (Str.splitlines s))))
  | _ => Ok data
  end.
End TailSelector.

Module SemanticSearchSelector.

(** [set(words)] as the list of the distinct words. *)
Definition word_set (words : list string) : list string :=
  nodup string_dec words.

Definition intersection (a b : list string) : list string :=
  filter (fun w => existsb (String.eqb w) b) a.

(** [len(query_words.intersection(line_words))] *)
Definition score (query_words : list string) (line : string) : nat :=
  length (intersection query_words (word_set (Str.split (Str.lower line)))).

(** The loop that builds [scored_lines]. *)
Fixpoint scored (query_words : list string) (lines : list string) : list (nat * string) :=
  match lines with
  | [] => []
  | line :: r =>
      let s := score query_words line in
      if 0 <? s then (s, line) :: scored query_words r
      else scored query_words r
  end.

(** [list.sort(key=lambda x: x[0], reverse=True)]: a stable sort, greatest
    key first, equal keys in their original order. *)
Fixpoint insert_desc (x : nat * string) (l : list (nat * string)) : list (nat * string) :=
  match l with
  | [] => [x]
  | y :: r => if fst y <=? fst x then x :: y :: r else y :: insert_desc x r
  end.

Definition sort_desc (l : list (nat * string)) : list (nat * string) :=
  fold_right insert_desc [] l.

Definition ranked (query : string) (data : string) : list (nat * string) :=
  sort_desc (scored (word_set (Str.split (Str.lower query))) (Str.splitlines data)).

Definition execute : SelectorOperation := fun data params =>
  let query := dict_get_default "query" (VStr "") params in
  let top_k := dict_get_default "top_k" (VInt 5) params in
  match data with
  | VStr s =>
      match query with
      | VStr q =>
          k <- slice_bound top_k ;;
          Ok (VStr (Str.join nl (map snd (slice_to k (ranked q s)))))
      | _ => Raise (no_attribute query "lower")
      end
  | _ => Raise (no_attribute data "splitlines")
  end.

End SemanticSearchSelector.

(** ** Registry of selector operations *)

Module SelectorRegistry.

Definition t := list (string * SelectorOperation).

(** The table of [__init__].  [extract], [grep], [summarize] and
    [transform] rest on Python's [re], [json] and float arithmetic, which are
    not modelled: they are parameters. *)
Definition init (extract grep summarize transform : SelectorOperation) : t :=
  [ ("head", HeadSelector.execute);
    ("tail", TailSelector.execute);
    ("extract", extract);
    ("grep", grep);
    ("summarize", summarize);
    ("transform", transform);
    ("semantic_search", SemanticSearchSelector.execute);
    ("search", SemanticSearchSelector.execute) ].

Definition unhashable (v : value) : exn :=
  Exn TypeError ("unhashable type: '" ++ type_name v ++ "'").

(** [self.operations.get(op_name)] *)
Definition get (reg : t) (op_name : value) : result (option SelectorOperation) :=
  match op_name with
  | VStr s => Ok (dict_get s reg)
  | VList _ | VDict _ => Raise (unhashable op_name)
  | _ => Ok None
  end.

Definition register (reg : t) (name : string) (operation : SelectorOperation) : t :=
  dict_set name operation reg.

End SelectorRegistry.

(** ** Context sources and the context manager *)

(** What the file system holds at a path, and how [pathlib] prints a path.
    The path is the text handed to [Path(...)]. *)
Inductive fs_entry :=
| Missing
| Unreadable (e : exn)      (* exists, but [open]/[read] raises [e] *)
| File (content : string).

Record FileSystem := {
  fs_at : string -> fs_entry;
  fs_path_str : string -> string
}.

(** A context source: the qualified name of its [fetch] method and the body
    of [fetch(self, uri, **kwargs)]. *)
Record ContextSource := {
  src_qualname : string;
  src_fetch : value -> dict -> result value
}.

Module FileContextSource.
Definition fetch (fs : FileSystem) (uri : value) (kwargs : dict) : result value :=
  match uri with
  | VStr u =>
      let path := if Str.startswith u "fs://" then Str.drop 5 u else u in
      match fs_at fs path with
      | Missing =>
          Raise (Exn FileNotFoundError ("File not found: " ++ fs_path_str fs path))
      | Unreadable e => Raise e
      | File content => Ok (VStr content)
      end
  | _ => Raise (no_attribute uri "startswith")
  end.

Definition source (fs : FileSystem) : ContextSource :=
  {| src_qualname := "FileContextSource.fetch"; src_fetch := fetch fs |}.
End FileContextSource.

(** The call [source.fetch(uri, **properties)].  [fetch] names its
    parameters [self] and [uri]; a keyword of either name collides with the
    positional argument already bound and the call raises [TypeError] before
    the body runs.  Keywords are bound in the order of the dict. *)
Fixpoint first_clash (kwargs : dict) : option string :=
  match kwargs with
  | [] => None
  | (k, _) :: r =>
      if String.eqb k "self" || String.eqb k "uri" then Some k else first_clash r
  end.

Definition call_fetch (source : ContextSource) (uri : value) (kwargs : dict) : result value :=
  match first_clash kwargs with
  | Some k =>
      Raise (Exn TypeError
               (src_qualname source ++ "() got multiple values for argument '" ++ k ++ "'"))
  | None => src_fetch source uri kwargs
  end.

Module ContextManager.

Record t := {
  sources : list (string * ContextSource);
  cache : dict
}.

(** [__init__]; the [dir] source globs the file system and is a parameter. *)
Definition init (fs : FileSystem) (dir_source : ContextSource) : t :=
  {| sources := [("file", FileContextSource.source fs); ("dir", dir_source)];
     cache := [] |}.

(** [ctx_type in self.sources], then [self.sources[ctx_type]] *)
Definition find_source (cm : t) (ctx_type : value) : result (option ContextSource) :=
  match ctx_type with
  | VStr s => Ok (dict_get s (sources cm))
  | VList _ | VDict _ => Raise (SelectorRegistry.unhashable ctx_type)
  | _ => Ok None
  end.

Definition cache_key (node : CompiledNode) : string :=
  let ctx_type := dict_get_default "type" (VStr "file") (cn_properties node) in
  let uri := dict_get_default "uri" (VStr "") (cn_properties node) in
  py_str ctx_type ++ ":" ++ py_str uri.

Definition fetch_context (cm : t) (node : CompiledNode) : result value * t :=
  let ctx_type := dict_get_default "type" (VStr "file") (cn_properties node) in
  let uri := dict_get_default "uri" (VStr "") (cn_properties node) in
  let key := py_str ctx_type ++ ":" ++ py_str uri in
  match dict_get key (cache cm) with
  | Some data => (Ok data, cm)
  | None =>
      match find_source cm ctx_type with
      | Raise e => (Raise e, cm)
      | Ok (Some source) =>
          match call_fetch source uri (cn_properties node) with
          | Ok data =>
              (Ok data, {| sources := sources cm; cache := dict_set key data (cache cm) |})
          | Raise e => (Raise e, cm)
          end
      | Ok None =>
          (Raise (Exn ValueError ("Unknown context type: " ++ py_str ctx_type)), cm)
      end
  end.

End ContextManager.

(** ** Execution context and prompt rendering *)

(** What the process gets from outside the program: [os.environ], and
    [re.search(pattern, text)] of Python's regular-expression engine, which
    answers with [(match.group(0), match.group(1))] or no match (or raises
    [re.error] on a pattern it rejects). *)
Record Host := {
  environ : list (string * string);
  re_search : string -> string -> result (option (string * string))
}.

Record ExecutionContext := {
  signals : dict;
  memory : dict;
  context_cache : dict;
  resolved_contexts : dict
}.

Definition get_signal (host : Host) (ctx : ExecutionContext) (name : string) : value :=
  match dict_get name (signals ctx) with
  | Some v => v
  | None =>
      let env_name := "CHORD_" ++ Str.upper name in
      match dict_get env_name (environ host) with
      | Some s => VStr s
      | None => VNone
      end
  end.

Module PromptRenderer.

(** [\w] within ASCII. *)
Definition is_word (c : ascii) : bool :=
  let n := nat_of_ascii c in
  ((48 <=? n) && (n <=? 57)) || ((65 <=? n) && (n <=? 90))
  || ((97 <=? n) && (n <=? 122)) || (n =? 95).

Fixpoint word_run (s : string) : string :=
  match s with
  | String c r => if is_word c then String c (word_run r) else EmptyString
  | EmptyString => EmptyString
  end.

(** A match of [{{signal\.(\w+)}}] that starts at the head of [s]: the
    greedy run of word characters must be non-empty and followed by [}}]. *)
Definition signal_match_at (s : string) : option string :=
  if String.prefix "{{signal." s then
    let name := word_run (Str.drop 9 s) in
    if negb (String.eqb name "")
       && String.prefix "}}" (Str.drop (9 + String.length name) s)
    then Some name else None
  else None.

(** [re.finditer(r'{{signal\.(\w+)}}', s)]: the non-overlapping matches from
    left to right, each as [(group(0), group(1))].  [skip] counts the
    characters of the last match still to pass. *)
Fixpoint signal_matches (skip : nat) (s : string) : list (string * string) :=
  match s with
  | EmptyString => []
  | String _ r =>
      match skip with
      | S k => signal_matches k r
      | O =>
          match signal_match_at s with
          | Some name =>
              ("{{signal." ++ name ++ "}}", name)
                :: signal_matches (10 + String.length name) r
          | None => signal_matches 0 r
          end
      end
  end.

(** The pattern [rf"{{{{{key} \| join\('(.+?)'\)}}}}"]. *)
Definition join_pattern (key : string) : string :=
  "{{" ++ key ++ " \| join\('(.+?)'\)}}".

Definition bullet (item : value) : string := "• " ++ py_str item.

(** The body of the loop over [variables.items()]. *)
Definition render_variable (host : Host) (text : string) (key : string) (v : value)
  : result string :=
  let placeholder := "{{" ++ key ++ "}}" in
  if Str.contains placeholder text then
    match v with
    | VList items =>
        if Str.contains "| bulletize" text then
          let formatted := Str.join nl (map bullet items) in
          Ok (Str.replace text ("{{" ++ key ++ " | bulletize}}") formatted)
        else if Str.contains "| join" text then
          m <- re_search host (join_pattern key) text ;;
          match m with
          | Some (whole, sep) =>
              Ok (Str.replace text whole (Str.join sep (map py_str items)))
          | None => Ok text
          end
        else Ok (Str.replace text placeholder (py_str v))
    | _ => Ok (Str.replace text placeholder (py_str v))
    end
  else Ok text.

Fixpoint render_variables (host : Host) (text : string) (variables : dict) : result string :=
  match variables with
  | [] => Ok text
  | (key, v) :: r =>
      text' <- render_variable host text key v ;; render_variables host text' r
  end.

(** The loop over the signal matches, found in the text as it is when the
    loop starts. *)
Fixpoint render_signals (host : Host) (ctx : ExecutionContext)
    (found : list (string * string)) (text : string) : string :=
  match found with
  | [] => text
  | (whole, signal_name) :: r =>
      let signal_value := get_signal host ctx signal_name in
      if truthy signal_value
      then render_signals host ctx r (Str.replace text whole (py_str signal_value))
      else render_signals host ctx r text
  end.

Definition render_template (host : Host) (ctx : ExecutionContext)
    (template : string) (variables : dict) : result string :=
  text <- render_variables host template variables ;;
  Ok (render_signals host ctx (signal_matches 0 text) text).

Fixpoint render_sections (host : Host) (ctx : ExecutionContext) (variables : dict)
    (sections : dict) : result dict :=
  match sections with
  | [] => Ok []
  | (section, template) :: r =>
      t <- match template with
           | VStr s => render_template host ctx s variables
           | _ => Ok (py_str template)
           end ;;
      r' <- render_sections host ctx variables r ;;
      Ok ((section, VStr t) :: r')
  end.

Definition render_prompt (host : Host) (ctx : ExecutionContext)
    (prompt_config : value) (resolved_context : dict) : result dict :=
  let variables :=
    fold_left (fun d kv => dict_set (fst kv) (snd kv) d) (signals ctx)
              [("resolved_context", VDict resolved_context)] in
  match prompt_config with
  | VDict sections => render_sections host ctx variables sections
  | _ => Raise (no_attribute prompt_config "items")
  end.

End PromptRenderer.

(** ** Runtime *)

Module Runtime.

(** The fields of a [Runtime] that execution only reads.  The context
    manager, whose cache execution fills, is threaded as the state. *)
Record t := {
  nodes : list (string * CompiledNode);
  views : list View;
  flows : list Flow;
  context : ExecutionContext;
  selector_registry : SelectorRegistry.t
}.

Definition state := ContextManager.t.

(** [ref[1:].split('.')[0]] *)
Definition root_id (ref : string) : string :=
  hd EmptyString (Str.split_on "." (Str.drop 1 ref)).

Definition execute_selector (rt : t) (selector : value) (cm : state)
  : result value * state :=
  match selector with
  | VDict params =>
      let from_ref := dict_get_default "from" (VStr "") params in
      let op := dict_get_default "op" (VStr "extract") params in
      match from_ref with
      | VStr ref =>
          let '(source, cm') :=
            if Str.startswith ref "@" then
              match dict_get (root_id ref) (nodes rt) with
              | Some node =>
                  if String.eqb (cn_type node) "ctx"
                  then ContextManager.fetch_context cm node
                  else (Ok (VDict (cn_properties node)), cm)
              | None => (Raise (Exn ValueError ("Unknown node: " ++ ref)), cm)
              end
            else (Ok (VStr ref), cm) in
          match source with
          | Raise e => (Raise e, cm')
          | Ok data =>
              match SelectorRegistry.get (selector_registry rt) op with
              | Raise e => (Raise e, cm')
              | Ok (Some operation) => (operation data params, cm')
              | Ok None => (Ok data, cm')
              end
          end
      | _ => (Raise (no_attribute from_ref "startswith"), cm)
      end
  | _ => (Raise (no_attribute selector "get"), cm)
  end.

(** The result key of a selector, computed before the [try]. *)
Definition selector_key (selector : value) : result string :=
  match selector with
  | VDict params =>
      match dict_get_default "from" (VStr "") params with
      | VStr ref => Ok (if Str.startswith ref "@" then root_id ref else "data")
      | v => Raise (no_attribute v "startswith")
      end
  | _ => Raise (no_attribute selector "get")
  end.

(** What the [try]/[except Exception] stores under the key. *)
Definition caught (r : result value) : value :=
  match r with
  | Ok v => v
  | Raise e => VStr ("[Error: " ++ exn_str e ++ "]")
  end.

Fixpoint resolve_loop (rt : t) (selectors : list value) (resolved : dict) (cm : state)
  : result dict * state :=
  match selectors with
  | [] => (Ok resolved, cm)
  | selector :: rest =>
      match selector_key selector with
      | Raise e => (Raise e, cm)
      | Ok key =>
          let '(r, cm') := execute_selector rt selector cm in
          resolve_loop rt rest (dict_set key (caught r) resolved) cm'
      end
  end.

Definition resolve_selectors (rt : t) (selectors : list value) (cm : state)
  : result dict * state :=
  resolve_loop rt selectors [] cm.

Fixpoint find_view (vs : list View) (vid : string) : option View :=
  match vs with
  | [] => None
  | v :: r => if String.eqb (view_id v) vid then Some v else find_view r vid
  end.

(** [if ref and ref.startswith('@'): ... self.nodes[ref[1:]]['properties']] *)
Definition resolve_node_ref (rt : t) (ref : value) : result value :=
  if truthy ref then
    match ref with
    | VStr s =>
        if Str.startswith s "@" then
          match dict_get (Str.drop 1 s) (nodes rt) with
          | Some node => Ok (VDict (cn_properties node))
          | None => Ok VNone
          end
        else Ok VNone
    | _ => Raise (no_attribute ref "startswith")
    end
  else Ok VNone.

Definition execute_view (host : Host) (rt : t) (vid : string) (cm : state)
  : result value * state :=
  match find_view (views rt) vid with
  | None => (Raise (Exn ValueError ("View not found: " ++ vid)), cm)
  | Some view =>
      match resolve_selectors rt (view_selectors view) cm with
      | (Raise e, cm') => (Raise e, cm')
      | (Ok resolved_context, cm') =>
          (role <- resolve_node_ref rt (view_role view) ;;
           model <- resolve_node_ref rt (view_model view) ;;
           rendered_prompt <-
             PromptRenderer.render_prompt host (context rt) (view_prompt view)
               resolved_context ;;
           Ok (VDict [ ("view_id", VStr vid);
                       ("task", view_task view);
                       ("role", role);
                       ("model", model);
                       ("resolved_context", VDict resolved_context);
                       ("prompt", VDict rendered_prompt);
                       ("response_format", view_response_format view);
                       ("asserts", view_asserts view) ]),
           cm')
      end
  end.

(** [view.get('task') == f"@{task_id}"] *)
Definition refers_to_task (task_id : string) (view : View) : bool :=
  match view_task view with
  | VStr s => String.eqb s ("@" ++ task_id)
  | _ => false
  end.

Definition execute_task (host : Host) (rt : t) (task_id : string) (cm : state)
  : result value * state :=
  match dict_get task_id (nodes rt) with
  | None => (Raise (Exn ValueError ("Task not found: " ++ task_id)), cm)
  | Some task =>
      if negb (String.eqb (cn_type task) "task")
      then (Raise (Exn ValueError ("Node " ++ task_id ++ " is not a task")), cm)
      else
        match map view_id (filter (refers_to_task task_id) (views rt)) with
        | [] => (Ok (VDict [("task_id", VStr task_id); ("status", VStr "no_views")]), cm)
        | first :: _ =>
            match execute_view host rt first cm with
            | (Raise e, cm') => (Raise e, cm')
            | (Ok view_result, cm') =>
                (Ok (VDict [ ("task_id", VStr task_id);
                             ("task", VDict (cn_properties task));
                             ("view_result", view_result) ]), cm')
            end
        end
  end.

Fixpoint find_flow (fs : list Flow) (fid : string) : option Flow :=
  match fs with
  | [] => None
  | f :: r => if String.eqb (flow_id f) fid then Some f else find_flow r fid
  end.

(** The task an edge runs: [Ok None] when its [to] is falsy or no reference. *)
Definition edge_target (edge : value) : result (option string) :=
  match edge with
  | VDict e =>
      let to_task := dict_get_default "to" (VStr "") e in
      if truthy to_task then
        match to_task with
        | VStr s => Ok (if Str.startswith s "@" then Some (root_id s) else None)
        | _ => Raise (no_attribute to_task "startswith")
        end
      else Ok None
  | _ => Raise (no_attribute edge "get")
  end.

(** The loop over the edges, appending to [results]. *)
Fixpoint run_edges (host : Host) (rt : t) (edges : list value) (results : list value)
    (cm : state) : result (list value) * state :=
  match edges with
  | [] => (Ok results, cm)
  | edge :: rest =>
      match edge_target edge with
      | Raise e => (Raise e, cm)
      | Ok None => run_edges host rt rest results cm
      | Ok (Some task_id) =>
          match execute_task host rt task_id cm with
          | (Raise e, cm') => (Raise e, cm')
          | (Ok r, cm') => run_edges host rt rest (results ++ [r])%list cm'
          end
      end
  end.

(** The [if 'entry' in flow:] block. *)
Definition run_entry (host : Host) (rt : t) (flow : Flow) (cm : state)
  : result (list value) * state :=
  match flow_entry flow with
  | None => (Ok [], cm)
  | Some (VStr s) =>
      if Str.startswith s "@" then
        match execute_task host rt (root_id s) cm with
        | (Raise e, cm') => (Raise e, cm')
        | (Ok r, cm') => (Ok [r], cm')
        end
      else (Ok [], cm)
  | Some v => (Raise (no_attribute v "startswith"), cm)
  end.

Definition execute_flow (host : Host) (rt : t) (fid : string) (cm : state)
  : result value * state :=
  match find_flow (flows rt) fid with
  | None => (Raise (Exn ValueError ("Flow not found: " ++ fid)), cm)
  | Some flow =>
      match run_entry host rt flow cm with
      | (Raise e, cm1) => (Raise e, cm1)
      | (Ok results, cm1) =>
          match py_iter (match flow_edges flow with Some v => v | None => VList [] end) with
          | Raise e => (Raise e, cm1)
          | Ok edges =>
              match run_edges host rt edges results cm1 with
              | (Raise e, cm2) => (Raise e, cm2)
              | (Ok results', cm2) =>
                  (Ok (VDict [("flow_id", VStr fid); ("results", VList results')]), cm2)
              end
          end
      end
  end.

End Runtime.

(** ** Definitions used to state the properties *)

(** The context-manager state left by running the selectors one after the
    other. *)
Fixpoint state_after (rt : Runtime.t) (selectors : list value) (cm : Runtime.state)
  : Runtime.state :=
  match selectors with
  | [] => cm
  | s :: r => state_after rt r (snd (Runtime.execute_selector rt s cm))
  end.

(** Running tasks one after the other, stopping at the first that raises. *)
Fixpoint run_tasks (host : Host) (rt : Runtime.t) (ids : list string)
    (results : list value) (cm : Runtime.state) : result (list value) * Runtime.state :=
  match ids with
  | [] => (Ok results, cm)
  | task_id :: rest =>
      match Runtime.execute_task host rt task_id cm with
      | (Raise e, cm') => (Raise e, cm')
      | (Ok r, cm') => run_tasks host rt rest (results ++ [r])%list cm'
      end
  end.

(** A reference string names the task it starts with; any other string
    names none. *)
Definition ref_task (s : string) : list string :=
  if Str.startswith s "@" then [Runtime.root_id s] else [].

Definition edge_task (edge : value) : list string :=
  match edge with
  | VDict e =>
      match dict_get "to" e with
      | Some (VStr s) => ref_task s
      | _ => []
      end
  | _ => []
  end.

(** The tasks a flow names, in order: its entry, then the [to] of each edge. *)
Definition flow_task_ids (entry : option string) (edges : list value) : list string :=
  (match entry with Some s => ref_task s | None => [] end ++ flat_map edge_task edges)%list.

(** An edge is a mapping whose [to], when present, is a string. *)
Definition edge_ok (edge : value) : bool :=
  match edge with
  | VDict e =>
      match dict_get "to" e with
      | Some (VStr _) | None => true
      | Some _ => false
      end
  | _ => false
  end.

Definition flow_result (fid : string) (r : result (list value) * Runtime.state)
  : result value * Runtime.state :=
  match r with
  | (Ok results, cm) =>
      (Ok (VDict [("flow_id", VStr fid); ("results", VList results)]), cm)
  | (Raise e, cm) => (Raise e, cm)
  end.

(** Greatest score first. *)
Definition desc (a b : nat * string) : Prop := fst b <= fst a.

Definition has_score (n : nat) (p : nat * string) : bool := fst p =? n.

(** A body line after the first: blank, or indented at least like the first. *)
Definition line_ok (base : nat) (l : string) : Prop :=
  Lexer.no_newline l = true
  /\ (Lexer.lstrip l = EmptyString \/ base <= Lexer.indent_len l).

(** What follows the body: a line indented less than the first body line
    that has some text. *)
Definition ends_body (base : nat) (after : string) : Prop :=
  Lexer.indent_len after < base
  /\ exists c tail,
       Lexer.lstrip after = String c tail /\ Ascii.eqb c Lexer.newline = false.

(** ** Sample inputs *)

Module Sample.

Definition graph : Graph :=
  {| graph_nodes :=
       [("node", {| node_type := ROLE; node_id := "node";
                    node_properties := [("a", VDict [("b", VStr "x")])];
                    node_metadata := VDict []; node_line := 1 |});
        ("user", {| node_type := TASK; node_id := "user";
                    node_properties := [("hit", VStr "@node.a.b");
                                        ("miss", VStr "@node.a.z")];
                    node_metadata := VDict []; node_line := 4 |})];
     graph_metadata := []; graph_imports := [] |}.

Definition fs : FileSystem :=
  {| fs_at := fun path => if String.eqb path "x.txt" then File "hello" else Missing;
     fs_path_str := fun path => path |}.

(** No list variable occurs in the sample templates, so the regular
    expression engine is never consulted. *)
Definition host : Host :=
  {| environ := []; re_search := fun _ _ => Ok None |}.

Definition cm : ContextManager.t :=
  {| ContextManager.sources := [("file", FileContextSource.source fs)];
     ContextManager.cache := [] |}.

Definition nodes : list (string * CompiledNode) :=
  [ ("r", {| cn_type := "role"; cn_id := "r";
             cn_properties := [("persona", VStr "helper")]; cn_metadata := None |});
    ("doc", {| cn_type := "ctx"; cn_id := "doc";
               cn_properties := [("type", VStr "file"); ("uri", VStr "fs://x.txt")];
               cn_metadata := None |});
    ("taskA", {| cn_type := "task"; cn_id := "taskA";
                 cn_properties := [("objective", VStr "first")]; cn_metadata := None |});
    ("taskB", {| cn_type := "task"; cn_id := "taskB";
                 cn_properties := [("objective", VStr "second")]; cn_metadata := None |}) ].

Definition selectors : list value :=
  [ VDict [("from", VStr "@ghost.x"); ("op", VStr "head")];
    VDict [("from", VStr "@r"); ("op", VStr "unknown")];
    VDict [("from", VStr ("one" ++ nl ++ "two")); ("op", VStr "head"); ("lines", VInt 1)] ].

Definition view_a : View :=
  {| view_id := "va"; view_type := "view";
     view_task := VStr "@taskA"; view_role := VStr "@r"; view_model := VNone;
     view_policy := VNone; view_selectors := selectors;
     view_prompt := VDict [("user", VStr "Hi {{name}}")];
     view_response_format := VNone; view_post_process := VList [];
     view_asserts := VList [] |}.

Definition flow : Flow :=
  {| flow_id := "f"; flow_type := "flow";
     flow_entry := Some (VStr "@taskA");
     flow_edges := Some (VList [VDict [("from", VStr "@nowhere");
                                       ("to", VStr "@taskB");
                                       ("when", VStr "never")]]);
     flow_parallel := Some (VBool true);
     flow_sequential := None;
     flow_conditional := Some (VDict [("if", VStr "x")]);
     flow_error_handling := None;
     flow_schedule := Some (VStr "daily") |}.

Definition runtime : Runtime.t :=
  {| Runtime.nodes := nodes;
     Runtime.views := [view_a];
     Runtime.flows := [flow];
     Runtime.context :=
       {| signals := [("name", VStr "Bob")]; memory := [];
          context_cache := []; resolved_contexts := [] |};
     Runtime.selector_registry :=
       [ ("head", HeadSelector.execute); ("tail", TailSelector.execute);
         ("semantic_search", SemanticSearchSelector.execute);
         ("search", SemanticSearchSelector.execute) ] |}.

End Sample.

(** ** Further definitions *)

(** [c in s] for one character. *)
Fixpoint has_char (c : ascii) (s : string) : bool :=
  match s with
  | EmptyString => false
  | String x r => Ascii.eqb x c || has_char c r
  end.

(** A value in which [compile_node] finds nothing to resolve: no property
    value and no direct element of an array is a string that begins with
    [@], at any depth of nested mappings. *)
Fixpoint ref_free (v : value) : bool :=
  match v with
  | VStr s => negb (Str.startswith s "@")
  | VList l => forallb (fun x => negb (is_str_ref x)) l
  | VDict d =>
      (fix go (d : list (string * value)) : bool :=
         match d with
         | [] => true
         | (_, x) :: r => ref_free x && go r
         end) d
  | _ => true
  end.

Definition is_type (t : NodeType) (n : Node) : bool :=
  String.eqb (NodeType_value (node_type n)) (NodeType_value t).

(** [Runtime.set_signal] and [Runtime.set_signals], on the execution
    context they update. *)
Definition set_signal (ctx : ExecutionContext) (name : string) (v : value)
  : ExecutionContext :=
  {| signals := dict_set name v (signals ctx);
     memory := memory ctx;
     context_cache := context_cache ctx;
     resolved_contexts := resolved_contexts ctx |}.

(** [dict.update]: every item of [new] is stored, in order. *)
Definition set_signals (ctx : ExecutionContext) (new : dict) : ExecutionContext :=
  fold_left (fun c kv => set_signal c (fst kv) (snd kv)) new ctx.

(** ** More sample inputs *)

Module Sample2.

Definition node_n : Node :=
  {| node_type := ROLE; node_id := "n";
     node_properties := [("a", VStr "@m.b"); ("plain", VInt 3)];
     node_metadata := VDict []; node_line := 2 |}.

Definition graph_hop : Graph :=
  {| graph_nodes :=
       [("m", {| node_type := ROLE; node_id := "m";
                 node_properties := [("b", VStr "deep")];
                 node_metadata := VDict []; node_line := 1 |});
        ("n", node_n)];
     graph_metadata := []; graph_imports := [] |}.

Definition user : Node :=
  {| node_type := TASK; node_id := "user";
     node_properties := [("hit", VStr "@node.a.b"); ("miss", VStr "@node.a.z")];
     node_metadata := VDict []; node_line := 4 |}.

Definition plain : value :=
  VDict [("name", VStr "plain"); ("tags", VList [VStr "x"; VInt 2]);
         ("nested", VDict [("mail", VStr "a@b.c")])].

Definition bare (t : NodeType) (i : string) (props : dict) : Node :=
  {| node_type := t; node_id := i; node_properties := props;
     node_metadata := VDict []; node_line := 1 |}.

Definition graph_views : Graph :=
  {| graph_nodes :=
       [("v1", bare VIEW "v1" [("task", VStr "@t")]);
        ("t", bare TASK "t" [("objective", VStr "do")]);
        ("f1", bare FLOW "f1" [("entry", VStr "@t")]);
        ("v2", bare VIEW "v2" [("selectors", VList [])])];
     graph_metadata := []; graph_imports := [] |}.

(** A source that reads the sample file whatever it is asked, and a context
    node without [uri], which such a source can serve. *)
Definition note_source : ContextSource :=
  {| src_qualname := "NoteSource.fetch";
     src_fetch := fun _ _ => FileContextSource.fetch Sample.fs (VStr "fs://x.txt") [] |}.

Definition note : CompiledNode :=
  {| cn_type := "ctx"; cn_id := "note";
     cn_properties := [("type", VStr "note")]; cn_metadata := None |}.

Definition cm_note : ContextManager.t :=
  {| ContextManager.sources := [("note", note_source)];
     ContextManager.cache := [] |}.

Definition fetched : result value * ContextManager.t :=
  ContextManager.fetch_context cm_note note.

Definition repeated : list value :=
  [ VDict [("from", VStr "first")]; VDict [("from", VStr "second")] ].

Definition bad_flow : Flow :=
  {| flow_id := "g"; flow_type := "flow";
     flow_entry := Some (VStr "@ghost.step");
     flow_edges := Some (VInt 7);
     flow_parallel := None; flow_sequential := None; flow_conditional := None;
     flow_error_handling := None; flow_schedule := None |}.

Definition runtime_bad_flow : Runtime.t :=
  {| Runtime.nodes := Sample.nodes;
     Runtime.views := [];
     Runtime.flows := [Sample.flow; bad_flow];
     Runtime.context := Runtime.context Sample.runtime;
     Runtime.selector_registry := Runtime.selector_registry Sample.runtime |}.

End Sample2.


(** [overlap_size query line n]: the lower-cased words of [query] and the
    lower-cased words of [line], each taken as a set, have exactly [n] words
    in common. *)
Definition overlap_size (query line : string) (n : nat) : Prop :=
  exists common : list string,
    NoDup common
    /\ (forall w, In w common
                  <-> In w (Str.split (Str.lower query))
                      /\ In w (Str.split (Str.lower line)))
    /\ n = length common.

(** ** Lexer: the other reading functions and [tokenize] *)

Module Tokenizer.

Definition TokenType_name (t : Lexer.TokenType) : string :=
  match t with
  | Lexer.DEF => "TokenType.DEF" | Lexer.IDENTIFIER => "TokenType.IDENTIFIER"
  | Lexer.LBRACE => "TokenType.LBRACE" | Lexer.RBRACE => "TokenType.RBRACE"
  | Lexer.LBRACKET => "TokenType.LBRACKET" | Lexer.RBRACKET => "TokenType.RBRACKET"
  | Lexer.COLON => "TokenType.COLON" | Lexer.COMMA => "TokenType.COMMA"
  | Lexer.STRING => "TokenType.STRING" | Lexer.NUMBER => "TokenType.NUMBER"
  | Lexer.BOOLEAN => "TokenType.BOOLEAN" | Lexer.NULL => "TokenType.NULL"
  | Lexer.REFERENCE => "TokenType.REFERENCE" | Lexer.COMMENT => "TokenType.COMMENT"
  | Lexer.PIPE => "TokenType.PIPE" | Lexer.NEWLINE => "TokenType.NEWLINE"
  | Lexer.EOF => "TokenType.EOF"
  end.

Definition TokenType_eqb (a b : Lexer.TokenType) : bool :=
  String.eqb (TokenType_name a) (TokenType_name b).

Definition peek_char (lx : Lexer.t) (offset : nat) : option ascii :=
  String.get offset (Lexer.rest lx).

Definition is_char (c : ascii) (n : nat) : bool := nat_of_ascii c =? n.

(** [c in ' \t\r'] *)
Definition is_blank (c : ascii) : bool :=
  is_char c 32 || is_char c 9 || is_char c 13.

(** [c.isdigit()] and [c.isalnum()] within ASCII. *)
Definition is_digit (c : ascii) : bool :=
  (48 <=? nat_of_ascii c) && (nat_of_ascii c <=? 57).

Definition is_alnum (c : ascii) : bool :=
  let n := nat_of_ascii c in
  is_digit c || ((65 <=? n) && (n <=? 90)) || ((97 <=? n) && (n <=? 122)).

(** [c.isalnum() or c in '_-'] *)
Definition is_ident (c : ascii) : bool :=
  is_alnum c || is_char c 95 || is_char c 45.

(** [c.isalnum() or c in '_.[]'] *)
Definition is_ref (c : ascii) : bool :=
  is_alnum c || is_char c 95 || is_char c 46 || is_char c 91 || is_char c 93.

(** Membership in the two quote characters, double and single. *)
Definition is_quote (c : ascii) : bool := is_char c 34 || is_char c 39.

Definition skip_whitespace (lx : Lexer.t) : Lexer.t :=
  snd (Lexer.advance_while is_blank (Lexer.rest lx) lx).

(** The [while True:] loop of a block comment; [s] is [rest lx]. *)
Fixpoint skip_block (s : string) (lx : Lexer.t) : Lexer.t :=
  match s with
  | EmptyString => lx
  | String c r =>
      if is_char c 93
         && match r with String c' _ => is_char c' 35 | EmptyString => false end
      then Lexer.advance (Lexer.advance lx)
      else skip_block r (Lexer.advance lx)
  end.

Definition skip_comment (lx : Lexer.t) : Lexer.t :=
  match Lexer.current_char lx with
  | Some c =>
      if is_char c 35 then
        match peek_char lx 1 with
        | Some c' =>
            if is_char c' 91 then
              let lx2 := Lexer.advance (Lexer.advance lx) in
              skip_block (Lexer.rest lx2) lx2
            else snd (Lexer.advance_while Lexer.not_newline (Lexer.rest lx) lx)
        | None => snd (Lexer.advance_while Lexer.not_newline (Lexer.rest lx) lx)
        end
      else lx
  | None => lx
  end.

Definition char_str (c : ascii) : string := String c EmptyString.

(** The character an escape stands for: the [if]/[elif] chain on
    [next_char]. *)
Definition unescape (quote next_char : ascii) : ascii :=
  if is_char next_char 110 then ascii_of_nat 10
  else if is_char next_char 116 then ascii_of_nat 9
  else if is_char next_char 92 then ascii_of_nat 92
  else if Ascii.eqb next_char quote then quote
  else next_char.

(** The loop of [read_string]; [s] is [rest lx].  A backslash that ends the
    source makes [value += next_char] add [None] to a string. *)
Fixpoint read_string_loop (quote : ascii) (s : string) (value : string) (lx : Lexer.t)
  : result (string * Lexer.t) :=
  match s with
  | EmptyString => Ok (value, lx)
  | String c r =>
      if Ascii.eqb c quote then Ok (value, lx)
      else if is_char c 92 then
        match r with
        | EmptyString =>
            Raise (Exn TypeError
                     ("can only concatenate str (not " ++ String dquote "NoneType"
                      ++ String dquote ") to str"))
        | String n r' =>
            read_string_loop quote r' (value ++ char_str (unescape quote n))
              (Lexer.advance (Lexer.advance lx))
        end
      else read_string_loop quote r (value ++ char_str c) (Lexer.advance lx)
  end.

(** [read_string]: the opening quote is whatever character is current. *)
Definition read_string (lx : Lexer.t) : result (string * Lexer.t) :=
  match Lexer.rest lx with
  | String quote _ =>
      let lx1 := Lexer.advance lx in
      r <- read_string_loop quote (Lexer.rest lx1) EmptyString lx1 ;;
      Ok (fst r, Lexer.advance (snd r))
  | EmptyString => Ok (EmptyString, Lexer.advance (Lexer.advance lx))
  end.

(** The characters [read_number] takes: digits, and one dot. *)
Fixpoint number_text (has_dot : bool) (s : string) : string * bool :=
  match s with
  | String c r =>
      if is_digit c then
        let '(t, d) := number_text has_dot r in (String c t, d)
      else if is_char c 46 then
        if has_dot then (EmptyString, has_dot)
        else let '(t, d) := number_text true r in (String c t, d)
      else (EmptyString, has_dot)
  | EmptyString => (EmptyString, has_dot)
  end.

Fixpoint advance_n (n : nat) (lx : Lexer.t) : Lexer.t :=
  match n with
  | O => lx
  | S k => advance_n k (Lexer.advance lx)
  end.

(** [int(text)] for a text of ASCII digits (the interpreter's limit on the
    length of such a text is not modelled). *)
Fixpoint digits_value (acc : Z) (s : string) : Z :=
  match s with
  | String c r => digits_value (10 * acc + Z.of_nat (nat_of_ascii c - 48))%Z r
  | EmptyString => acc
  end.

(** [float_repr text] is [repr(float(text))], Python's own conversion. *)
Definition read_number (float_repr : string -> string) (lx : Lexer.t)
  : result (value * Lexer.t) :=
  let '(text, has_dot) := number_text false (Lexer.rest lx) in
  let lx' := advance_n (String.length text) lx in
  if has_dot then
    if String.eqb text "."
    then Raise (Exn ValueError "could not convert string to float: '.'")
    else Ok (VFloat (float_repr text), lx')
  else
    if String.eqb text EmptyString
    then Raise (Exn ValueError "invalid literal for int() with base 10: ''")
    else Ok (VInt (digits_value 0 text), lx').

Fixpoint take_while (p : ascii -> bool) (s : string) : string :=
  match s with
  | String c r => if p c then String c (take_while p r) else EmptyString
  | EmptyString => EmptyString
  end.

Definition read_identifier (lx : Lexer.t) : string * Lexer.t :=
  (take_while is_ident (Lexer.rest lx),
   snd (Lexer.advance_while is_ident (Lexer.rest lx) lx)).

(** The loop of a dynamic reference, [while depth > 0 and current_char];
    [s] is [rest lx]. *)
Fixpoint brace_loop (depth : nat) (s : string) (reference : string) (lx : Lexer.t)
  : string * Lexer.t :=
  match s with
  | EmptyString => (reference, lx)
  | String c r =>
      match depth with
      | O => (reference, lx)
      | S d =>
          if is_char c 123 then
            brace_loop (S depth) r (reference ++ char_str c) (Lexer.advance lx)
          else if is_char c 125 then
            match d with
            | O => (reference, lx)
            | S _ => brace_loop d r (reference ++ char_str c) (Lexer.advance lx)
            end
          else brace_loop depth r (reference ++ char_str c) (Lexer.advance lx)
      end
  end.

Definition read_reference (lx : Lexer.t) : string * Lexer.t :=
  let lx1 := Lexer.advance lx in
  match Lexer.rest lx1 with
  | String c _ =>
      if is_char c 123 then
        let lx2 := Lexer.advance lx1 in
        let '(reference, lx3) := brace_loop 1 (Lexer.rest lx2) EmptyString lx2 in
        ("{" ++ reference ++ "}", Lexer.advance lx3)
      else
        (take_while is_ref (Lexer.rest lx1),
         snd (Lexer.advance_while is_ref (Lexer.rest lx1) lx1))
  | EmptyString => (EmptyString, lx1)
  end.

Definition token (ty : Lexer.TokenType) (v : value) (line column : nat) : Lexer.Token :=
  {| Lexer.tok_type := ty; Lexer.tok_value := v;
     Lexer.tok_line := line; Lexer.tok_column := column |}.

(** The single-character tokens. *)
Definition punctuation (c : ascii) : option Lexer.TokenType :=
  if is_char c 123 then Some Lexer.LBRACE
  else if is_char c 125 then Some Lexer.RBRACE
  else if is_char c 91 then Some Lexer.LBRACKET
  else if is_char c 93 then Some Lexer.RBRACKET
  else if is_char c 58 then Some Lexer.COLON
  else if is_char c 44 then Some Lexer.COMMA
  else None.

(** Keywords and identifiers. *)
Definition word_token (word : string) (line column : nat) : Lexer.Token :=
  if String.eqb word "def" then token Lexer.DEF (VStr word) line column
  else if String.eqb word "true" || String.eqb word "false"
  then token Lexer.BOOLEAN (VBool (String.eqb word "true")) line column
  else if String.eqb word "null" then token Lexer.NULL VNone line column
  else token Lexer.IDENTIFIER (VStr word) line column.

(** One turn of the [while] loop of [tokenize]. *)
Inductive step :=
| Done (lx : Lexer.t)                            (* the loop ends *)
| Next (lx : Lexer.t) (emitted : list Lexer.Token)
| Fail (e : exn).

Definition tokenize_step (float_repr : string -> string) (lx : Lexer.t) : step :=
  let lx := skip_whitespace lx in
  match Lexer.rest lx with
  | EmptyString => Done lx
  | String c _ =>
      let line := Lexer.line lx in
      let column := Lexer.column lx in
      if is_char c 35 then Next (skip_comment lx) []
      else if Ascii.eqb c Lexer.newline then
        Next (Lexer.advance lx) [token Lexer.NEWLINE (VStr nl) line column]
      else if is_quote c then
        match read_string lx with
        | Ok (v, lx') => Next lx' [token Lexer.STRING (VStr v) line column]
        | Raise e => Fail e
        end
      else if is_char c 124 then
        let '(v, lx') := Lexer.read_multiline_string lx in
        Next lx' [token Lexer.STRING (VStr v) line column]
      else if is_digit c then
        match read_number float_repr lx with
        | Ok (v, lx') => Next lx' [token Lexer.NUMBER v line column]
        | Raise e => Fail e
        end
      else if is_char c 64 then
        let '(v, lx') := read_reference lx in
        Next lx' [token Lexer.REFERENCE (VStr v) line column]
      else
        match punctuation c with
        | Some ty => Next (Lexer.advance lx) [token ty (VStr (char_str c)) line column]
        | None =>
            let '(word, lx') := read_identifier lx in
            Next lx' [word_token word line column]
        end
  end.

(** [tokenize]: [None] when [fuel] turns of the loop did not end it. *)
Fixpoint tokenize_loop (float_repr : string -> string) (fuel : nat) (lx : Lexer.t)
    (tokens : list Lexer.Token) : option (result (list Lexer.Token)) :=
  match fuel with
  | O => None
  | S f =>
      match tokenize_step float_repr lx with
      | Done lx' =>
          Some (Ok (tokens ++ [token Lexer.EOF VNone (Lexer.line lx') (Lexer.column lx')])%list)
      | Next lx' emitted => tokenize_loop float_repr f lx' (tokens ++ emitted)%list
      | Fail e => Some (Raise e)
      end
  end.

Definition tokenize (float_repr : string -> string) (fuel : nat) (source : string)
  : option (result (list Lexer.Token)) :=
  tokenize_loop float_repr fuel (Lexer.init source) [].

End Tokenizer.
(** ** Parser *)

Module Parser.

Inductive error :=
| SyntaxError (msg : string)
| IndexError (msg : string).

(** What a parsing function does within [fuel] nested calls and loop turns:
    it returns, it raises, or it has not finished. *)
Inductive outcome (A : Type) :=
| Parsed (a : A)
| Failed (e : error)
| Unfinished.
Arguments Parsed {A} a.
Arguments Failed {A} e.
Arguments Unfinished {A}.

Definition bind {A B} (o : outcome A) (f : A -> outcome B) : outcome B :=
  match o with
  | Parsed a => f a
  | Failed e => Failed e
  | Unfinished => Unfinished
  end.

(** The parser's cursor: [toks] is [tokens[pos:]], [last] is [tokens[-1]],
    which [current_token] returns once [pos] is past the end; [nodes] is
    [graph.nodes]. *)
Record t := {
  toks : list Lexer.Token;
  last : Lexer.Token;
  nodes : list (string * Node)
}.

(** [Parser(tokens)]; an empty list has no [tokens[-1]], which the first
    [current_token] would read. *)
Definition init (tokens : list Lexer.Token) : outcome t :=
  match tokens with
  | [] => Failed (IndexError "list index out of range")
  | t0 :: r => Parsed {| toks := tokens; last := List.last r t0; nodes := [] |}
  end.

Definition current_token (st : t) : Lexer.Token :=
  match toks st with
  | tok :: _ => tok
  | [] => last st
  end.

Definition peek_token (st : t) (offset : nat) : Lexer.Token :=
  nth offset (toks st) (last st).

Definition is_type (ty : Lexer.TokenType) (tok : Lexer.Token) : bool :=
  Tokenizer.TokenType_eqb (Lexer.tok_type tok) ty.

Definition advance (st : t) : Lexer.Token * t :=
  let tok := current_token st in
  if is_type Lexer.EOF tok then (tok, st)
  else (tok, {| toks := tl (toks st); last := last st; nodes := nodes st |}).

(** [skip_newlines]: past the end of the tokens the loop goes on for ever
    when the last token is a newline. *)
Fixpoint skip_newlines_from (ts : list Lexer.Token) (last_tok : Lexer.Token)
  : option (list Lexer.Token) :=
  match ts with
  | [] => if is_type Lexer.NEWLINE last_tok then None else Some []
  | tok :: r =>
      if is_type Lexer.NEWLINE tok then skip_newlines_from r last_tok else Some ts
  end.

Definition skip_newlines (st : t) : outcome t :=
  match skip_newlines_from (toks st) (last st) with
  | Some ts => Parsed {| toks := ts; last := last st; nodes := nodes st |}
  | None => Unfinished
  end.

Definition line_text (tok : Lexer.Token) : string :=
  Str.of_Z (Z.of_nat (Lexer.tok_line tok)).

Definition expect (st : t) (ty : Lexer.TokenType) : outcome (Lexer.Token * t) :=
  let tok := current_token st in
  if is_type ty tok then Parsed (advance st)
  else Failed (SyntaxError ("Expected " ++ Tokenizer.TokenType_name ty ++ ", got "
                            ++ Tokenizer.TokenType_name (Lexer.tok_type tok)
                            ++ " at line " ++ line_text tok)).

(** The text of an identifier token, used as a key or an id.  The lexer
    gives identifier tokens string values only. *)
Definition word (tok : Lexer.Token) : string := py_str (Lexer.tok_value tok).

Definition with_toks (st : t) (ts : list Lexer.Token) : t :=
  {| toks := ts; last := last st; nodes := nodes st |}.

(** [parse_value], with the loops of [parse_array] and [parse_object]. *)
Fixpoint parse_value (fuel : nat) (st : t) : outcome (value * t) :=
  match fuel with
  | O => Unfinished
  | S f =>
      bind (skip_newlines st) (fun st =>
      let tok := current_token st in
      match Lexer.tok_type tok with
      | Lexer.STRING | Lexer.NUMBER | Lexer.BOOLEAN =>
          Parsed (Lexer.tok_value tok, snd (advance st))
      | Lexer.NULL => Parsed (VNone, snd (advance st))
      | Lexer.REFERENCE => Parsed (VStr ("@" ++ word tok), snd (advance st))
      | Lexer.LBRACKET =>
          bind (expect st Lexer.LBRACKET) (fun r =>
          bind (skip_newlines (snd r)) (fun st =>
          bind (array_items f st []) (fun r =>
          bind (expect (snd r) Lexer.RBRACKET) (fun r' =>
          Parsed (VList (fst r), snd r')))))
      | Lexer.LBRACE =>
          bind (expect st Lexer.LBRACE) (fun r =>
          bind (skip_newlines (snd r)) (fun st =>
          bind (object_items f st []) (fun r =>
          bind (expect (snd r) Lexer.RBRACE) (fun r' =>
          Parsed (VDict (fst r), snd r')))))
      | _ =>
          Failed (SyntaxError ("Unexpected token "
                               ++ Tokenizer.TokenType_name (Lexer.tok_type tok)
                               ++ " at line " ++ line_text tok))
      end)
  end

with array_items (fuel : nat) (st : t) (items : list value) : outcome (list value * t) :=
  match fuel with
  | O => Unfinished
  | S f =>
      if is_type Lexer.RBRACKET (current_token st) then Parsed (items, st)
      else
        bind (parse_value f st) (fun r =>
        let items := (items ++ [fst r])%list in
        bind (skip_newlines (snd r)) (fun st =>
        if is_type Lexer.COMMA (current_token st) then
          bind (skip_newlines (snd (advance st))) (fun st =>
          array_items f st items)
        else if negb (is_type Lexer.RBRACKET (current_token st)) then Parsed (items, st)
        else array_items f st items))
  end

with object_items (fuel : nat) (st : t) (obj : dict) : outcome (dict * t) :=
  match fuel with
  | O => Unfinished
  | S f =>
      if is_type Lexer.RBRACE (current_token st) then Parsed (obj, st)
      else if negb (is_type Lexer.IDENTIFIER (current_token st)) then Parsed (obj, st)
      else
        let '(key_tok, st) := advance st in
        bind (expect st Lexer.COLON) (fun r =>
        bind (parse_value f (snd r)) (fun r =>
        let obj := dict_set (word key_tok) (fst r) obj in
        bind (skip_newlines (snd r)) (fun st =>
        if is_type Lexer.COMMA (current_token st) then
          bind (skip_newlines (snd (advance st))) (fun st =>
          object_items f st obj)
        else object_items f st obj)))
  end.

Definition parse_array (fuel : nat) (st : t) : outcome (value * t) :=
  bind (expect st Lexer.LBRACKET) (fun r =>
  bind (skip_newlines (snd r)) (fun st =>
  bind (array_items fuel st []) (fun r =>
  bind (expect (snd r) Lexer.RBRACKET) (fun r' =>
  Parsed (VList (fst r), snd r'))))).

Definition parse_object (fuel : nat) (st : t) : outcome (value * t) :=
  bind (expect st Lexer.LBRACE) (fun r =>
  bind (skip_newlines (snd r)) (fun st =>
  bind (object_items fuel st []) (fun r =>
  bind (expect (snd r) Lexer.RBRACE) (fun r' =>
  Parsed (VDict (fst r), snd r'))))).

(** The loop of [parse_properties]: both branches on the key store the
    parsed value under the key; commas are not skipped here. *)
Fixpoint property_items (fuel : nat) (st : t) (properties : dict) : outcome (dict * t) :=
  match fuel with
  | O => Unfinished
  | S f =>
      if is_type Lexer.RBRACE (current_token st) then Parsed (properties, st)
      else if negb (is_type Lexer.IDENTIFIER (current_token st)) then Parsed (properties, st)
      else
        let '(key_tok, st) := advance st in
        bind (expect st Lexer.COLON) (fun r =>
        bind (parse_value fuel (snd r)) (fun r =>
        let properties := dict_set (word key_tok) (fst r) properties in
        bind (skip_newlines (snd r)) (fun st =>
        property_items f st properties)))
  end.

Definition parse_properties (fuel : nat) (st : t) : outcome (dict * t) :=
  bind (expect st Lexer.LBRACE) (fun r =>
  bind (skip_newlines (snd r)) (fun st =>
  bind (property_items fuel st []) (fun r =>
  bind (expect (snd r) Lexer.RBRACE) (fun r' =>
  Parsed (fst r, snd r'))))).

(** [NodeType(text)] *)
Definition NodeType_of (text : string) : option NodeType :=
  find (fun ty => String.eqb (NodeType_value ty) text)
       [CTX; CAP; ROLE; POLICY; MODEL; TASK; FLOW; VIEW; SIGNAL; MEMORY; HOOK; TEST; CACHE].

Fixpoint dict_remove {A} (k : string) (d : list (string * A)) : list (string * A) :=
  match d with
  | [] => []
  | (k', v) :: r => if String.eqb k k' then r else (k', v) :: dict_remove k r
  end.

Definition parse_definition (fuel : nat) (st : t) : outcome t :=
  bind (expect st Lexer.DEF) (fun r =>
  bind (expect (snd r) Lexer.IDENTIFIER) (fun r =>
  let type_token := fst r in
  match NodeType_of (word type_token) with
  | None =>
      Failed (SyntaxError ("Unknown node type '" ++ word type_token
                           ++ "' at line " ++ line_text type_token))
  | Some node_type =>
      bind (expect (snd r) Lexer.IDENTIFIER) (fun r =>
      let id := word (fst r) in
      bind (parse_properties fuel (snd r)) (fun r =>
      let properties := fst r in
      let node :=
        {| node_type := node_type;
           node_id := id;
           node_properties := dict_remove "@meta" properties;
           node_metadata := dict_get_default "@meta" (VDict []) properties;
           node_line := Lexer.tok_line type_token |} in
      Parsed {| toks := toks (snd r); last := last (snd r);
                nodes := dict_set id node (nodes (snd r)) |}))
  end)).

(** The loop of [parse]. *)
Fixpoint parse_loop (fuel : nat) (st : t) : outcome t :=
  match fuel with
  | O => Unfinished
  | S f =>
      if is_type Lexer.EOF (current_token st) then Parsed st
      else
        bind (skip_newlines st) (fun st =>
        if is_type Lexer.DEF (current_token st) then
          bind (parse_definition fuel st) (parse_loop f)
        else if is_type Lexer.EOF (current_token st) then Parsed st
        else parse_loop f (snd (advance st)))
  end.

Definition parse (fuel : nat) (tokens : list Lexer.Token) : outcome Graph :=
  bind (init tokens) (fun st =>
  bind (parse_loop fuel st) (fun st =>
  Parsed {| graph_nodes := nodes st; graph_metadata := []; graph_imports := [] |})).

End Parser.

(** ** [compile_chord]: lexer, parser and compiler in a row *)

Inductive compiled :=
| Compiled (ir : IR)
| LexerRaised (e : exn)
| ParserRaised (e : Parser.error)
| CompilerRaised (e : exn)
| NotFinished.

Definition compile_chord (float_repr : string -> string) (fuel : nat) (source : string)
  : compiled :=
  match Tokenizer.tokenize float_repr fuel source with
  | None => NotFinished
  | Some (Raise e) => LexerRaised e
  | Some (Ok tokens) =>
      match Parser.parse fuel tokens with
      | Parser.Unfinished => NotFinished
      | Parser.Failed e => ParserRaised e
      | Parser.Parsed g =>
          match Compiler.compile g with
          | Ok ir => Compiled ir
          | Raise e => CompilerRaised e
          end
      end
  end.

(** ** Notions used to state the properties of the lexer *)

(** A character of ASCII at which none of the branches of [tokenize] reads
    anything: not blank, not the start of a comment, a newline, a string, a
    number or a reference, not punctuation and not part of an identifier. *)
Definition starts_no_token (c : ascii) : bool :=
  negb (Tokenizer.is_blank c) && negb (Tokenizer.is_char c 35)
  && negb (Ascii.eqb c Lexer.newline) && negb (Tokenizer.is_quote c)
  && negb (Tokenizer.is_char c 124) && negb (Tokenizer.is_digit c)
  && negb (Tokenizer.is_char c 64)
  && match Tokenizer.punctuation c with Some _ => false | None => true end
  && negb (Tokenizer.is_ident c)
  && (nat_of_ascii c <? 128).

Definition backslash : ascii := ascii_of_nat 92.

(** The text of a string literal that denotes [v] between quotes [quote]:
    newline, tab, backslash and the quote are written as escapes. *)
Fixpoint escape (quote : ascii) (v : string) : string :=
  match v with
  | EmptyString => EmptyString
  | String c r =>
      (if Tokenizer.is_char c 10 then String backslash "n"
       else if Tokenizer.is_char c 9 then String backslash "t"
       else if Tokenizer.is_char c 92 then String backslash (String backslash "")
       else if Ascii.eqb c quote then String backslash (String quote "")
       else String c "") ++ escape quote r
  end.

(** [nests depth s]: read from [depth] open braces, every closing brace of
    [s] closes an open one and none is left open at the end. *)
Fixpoint nests (depth : nat) (s : string) : bool :=
  match s with
  | EmptyString => depth =? 0
  | String c r =>
      if Tokenizer.is_char c 123 then nests (S depth) r
      else if Tokenizer.is_char c 125 then
        match depth with
        | O => false
        | S d => nests d r
        end
      else nests depth r
  end.

(** The token types [tokenize] gives to what it reads before the end. *)
Definition is_read_type (ty : Lexer.TokenType) : bool :=
  match ty with
  | Lexer.EOF | Lexer.COMMENT | Lexer.PIPE => false
  | _ => true
  end.

(** ** Notions used to state the properties of the parser *)

(** A token as the parser sees it; its position plays no part in the value
    parsed. *)
Definition tok (ty : Lexer.TokenType) (v : value) : Lexer.Token :=
  Tokenizer.token ty v 1 1.

Definition comma : Lexer.Token := tok Lexer.COMMA (VStr ",").

(** [parts], separated by commas, then [close]. *)
Fixpoint separated (close : Lexer.Token) (parts : list (list Lexer.Token))
  : list Lexer.Token :=
  match parts with
  | [] => [close]
  | p :: r =>
      (p ++ match r with
            | [] => [close]
            | _ :: _ => comma :: separated close r
            end)%list
  end.

(** The tokens that write a value down: a scalar is one token, an array is
    its elements between brackets and a mapping its [key: value] items
    between braces, both separated by commas. *)
Fixpoint value_tokens (v : value) : list Lexer.Token :=
  match v with
  | VNone => [tok Lexer.NULL VNone]
  | VBool _ => [tok Lexer.BOOLEAN v]
  | VInt _ | VFloat _ => [tok Lexer.NUMBER v]
  | VStr _ => [tok Lexer.STRING v]
  | VList l =>
      tok Lexer.LBRACKET (VStr "[")
      :: separated (tok Lexer.RBRACKET (VStr "]")) (map value_tokens l)
  | VDict d =>
      tok Lexer.LBRACE (VStr "{")
      :: separated (tok Lexer.RBRACE (VStr "}"))
           (map (fun kx => tok Lexer.IDENTIFIER (VStr (fst kx))
                           :: tok Lexer.COLON (VStr ":")
                           :: value_tokens (snd kx)) d)
  end.

Fixpoint distinct (keys : list string) : bool :=
  match keys with
  | [] => true
  | k :: r => negb (existsb (String.eqb k) r) && distinct r
  end.

(** No mapping in [v], at any depth, has a key twice. *)
Fixpoint keys_distinct (v : value) : bool :=
  match v with
  | VList l => forallb keys_distinct l
  | VDict d =>
      distinct (map fst d) && forallb (fun kx => keys_distinct (snd kx)) d
  | _ => true
  end.

(** A bound on the nested calls and loop turns that parsing [v] takes. *)
Fixpoint value_size (v : value) : nat :=
  match v with
  | VList l => 2 + list_sum (map (fun x => S (value_size x)) l)
  | VDict d => 2 + list_sum (map (fun kx => S (value_size (snd kx))) d)
  | _ => 1
  end.

(** A token that is no newline, no closing bracket and not the end. *)
Definition starts_value (t : Lexer.Token) : Prop :=
  Parser.is_type Lexer.NEWLINE t = false
  /\ Parser.is_type Lexer.RBRACKET t = false
  /\ Parser.is_type Lexer.RBRACE t = false
  /\ Parser.is_type Lexer.EOF t = false.

(** From the tokens that write [v], in any state of the parser,
    [parse_value] returns [v] and stands behind them. *)
Definition reads_back (st : Parser.t) (v : value) : Prop :=
  keys_distinct v = true ->
  forall (fuel : nat) (rest : list Lexer.Token),
    value_size v <= fuel ->
    Parser.parse_value fuel (Parser.with_toks st (value_tokens v ++ rest))
    = Parser.Parsed (v, Parser.with_toks st rest).








(** ** A sample program *)

Module Sample3.

Definition role : Node :=
  {| node_type := ROLE; node_id := "r";
     node_properties := [("persona", VStr "kind"); ("tags", VList [VInt 1; VNone])];
     node_metadata := VDict []; node_line := 2 |}.

Definition task : Node :=
  {| node_type := TASK; node_id := "t";
     node_properties := [("role", VStr "@r"); ("opts", VDict [("n", VInt 2)])];
     node_metadata := VDict []; node_line := 6 |}.

Definition state : Parser.t :=
  {| Parser.toks := []; Parser.last := tok Lexer.EOF VNone;
     Parser.nodes := [("r", task)] |}.

End Sample3.

(** * Properties of the embedding *)

(** ** Reference resolution in the compiler *)

Lemma map_items_get f d d' k v :
  Compiler.map_items f d = Ok d' ->
  dict_get k d = Some v ->
  exists v', f v = Ok v' /\ dict_get k d' = Some v'.
Proof.
  revert d'. induction d as [|[k0 x] r IH]; intros d' H Hk; [discriminate|].
  simpl in H. destruct (f x) as [x'|e] eqn:Ex; [|discriminate].
  simpl in H. destruct (Compiler.map_items f r) as [r'|e] eqn:Er; [|discriminate].
  simpl in H. injection H as <-. simpl in Hk |- *.
  destruct (String.eqb k k0).
  - injection Hk as <-. eauto.
  - eauto.
Qed.

(** C1.  In a graph whose node [node] has a property [a] holding a mapping
    with [b = "x"] and no [z], the reference [@node.a.b] compiles to ["x"]
    and [@node.a.z] compiles to the reference string itself, without an
    error; so does any property of a compiled node that holds one of them. *)
Theorem reference_resolution_soft_fail :
  forall (g : Graph) (n : Node) (inner : dict),
    dict_get "node" (graph_nodes g) = Some n ->
    dict_get "a" (node_properties n) = Some (VDict inner) ->
    dict_get "b" inner = Some (VStr "x") ->
    dict_get "z" inner = None ->
    Compiler.resolve_reference g "@node.a.b" = Ok (VStr "x")
    /\ Compiler.resolve_reference g "@node.a.z" = Ok (VStr "@node.a.z")
    /\ (forall (m : Node) (c : CompiledNode) (key : string),
          Compiler.compile_node g m = Ok c ->
          (dict_get key (node_properties m) = Some (VStr "@node.a.b") ->
           dict_get key (cn_properties c) = Some (VStr "x"))
          /\ (dict_get key (node_properties m) = Some (VStr "@node.a.z") ->
              dict_get key (cn_properties c) = Some (VStr "@node.a.z")))
    /\ (forall (t : NodeType) (i key : string) (meta : value) (ln : nat),
          exists c,
            Compiler.compile_node g
              {| node_type := t; node_id := i;
                 node_properties := [(key, VStr "@node.a.z")];
                 node_metadata := meta; node_line := ln |} = Ok c
            /\ cn_properties c = [(key, VStr "@node.a.z")]).
Proof.
  intros g n inner Hn Ha Hb Hz.
  assert (R1 : Compiler.resolve_reference g "@node.a.b" = Ok (VStr "x")).
  { unfold Compiler.resolve_reference. simpl. rewrite Hn. simpl.
    rewrite Ha, Hb. reflexivity. }
  assert (R2 : Compiler.resolve_reference g "@node.a.z" = Ok (VStr "@node.a.z")).
  { unfold Compiler.resolve_reference. simpl. rewrite Hn. simpl.
    rewrite Ha, Hz. reflexivity. }
  split; [exact R1|]. split; [exact R2|]. split.
  - intros m c key Hc. unfold Compiler.compile_node in Hc.
    destruct (Compiler.map_items (Compiler.compile_property g) (node_properties m))
      as [props|e] eqn:Ep; [|discriminate].
    simpl in Hc. injection Hc as <-. simpl.
    split; intros Hk;
      destruct (map_items_get _ _ _ _ _ Ep Hk) as (v' & Hv & Hg);
      simpl in Hv; rewrite ?R1, ?R2 in Hv; injection Hv as <-; exact Hg.
  - intros t i key meta ln. unfold Compiler.compile_node. simpl.
    rewrite R2. simpl. eexists. split; reflexivity.
Qed.

Lemma reference_resolution_witness :
  Compiler.resolve_reference Sample.graph "@node.a.b" = Ok (VStr "x")
  /\ Compiler.resolve_reference Sample.graph "@node.a.z" = Ok (VStr "@node.a.z").
Proof.
  destruct (reference_resolution_soft_fail Sample.graph
              {| node_type := ROLE; node_id := "node";
                 node_properties := [("a", VDict [("b", VStr "x")])];
                 node_metadata := VDict []; node_line := 1 |}
              [("b", VStr "x")] eq_refl eq_refl eq_refl eq_refl)
    as (H1 & H2 & _).
  exact (conj H1 H2).
Defined.

(** The dict case of [compile_property] is [compile_object]. *)
Lemma compile_property_dict g d :
  Compiler.compile_property g (VDict d)
  = (d' <- Compiler.compile_object g d ;; Ok (VDict d')).
Proof.
  unfold Compiler.compile_object. simpl. f_equal.
  induction d as [|[k x] r IH]; [reflexivity|].
  simpl. destruct (Compiler.compile_property g x); [|reflexivity].
  simpl. now rewrite IH.
Qed.

(** An array of mappings passes through the compiler as it is. *)
Lemma array_of_mappings_untouched g l :
  Forall (fun v => exists d, v = VDict d) l ->
  Compiler.compile_property g (VList l) = Ok (VList l).
Proof.
  intros H. simpl.
  assert (E : mapM (Compiler.compile_element g) l = Ok l).
  { induction H as [|v r [d ->] _ IH]; [reflexivity|]. simpl. now rewrite IH. }
  now rewrite E.
Qed.

(** C5 (the code departs from the claim).  Compiling a node resolves a
    reference held directly by a property, by an element of an array and by
    a mapping nested in a mapping, but leaves a mapping nested in an array
    as it is: the reference under [items] stays unresolved.  The sibling
    [compile_view] does compile the mappings of the [selectors] array, which
    [compile_node] leaves untouched for the same node. *)
Theorem mapping_inside_array_not_resolved :
  let n := {| node_type := VIEW; node_id := "n";
              node_properties :=
                [("a", VStr "x");
                 ("direct", VStr "@n.a");
                 ("arr", VList [VStr "@n.a"]);
                 ("obj", VDict [("deep", VDict [("r", VStr "@n.a")])]);
                 ("items", VList [VDict [("r", VStr "@n.a")]]);
                 ("selectors", VList [VDict [("from", VStr "@n.a")]])];
              node_metadata := VDict []; node_line := 1 |} in
  let g := {| graph_nodes := [("n", n)]; graph_metadata := []; graph_imports := [] |} in
  Compiler.compile_node g n
  = Ok {| cn_type := "view"; cn_id := "n";
          cn_properties :=
            [("a", VStr "x");
             ("direct", VStr "x");
             ("arr", VList [VStr "x"]);
             ("obj", VDict [("deep", VDict [("r", VStr "x")])]);
             ("items", VList [VDict [("r", VStr "@n.a")]]);
             ("selectors", VList [VDict [("from", VStr "@n.a")]])];
          cn_metadata := None |}
  /\ (exists v, Compiler.compile_view g n = Ok v
               /\ view_selectors v = [VDict [("from", VStr "x")]]).
Proof.
  split.
  - vm_compute. reflexivity.
  - eexists. split; [vm_compute; reflexivity | reflexivity].
Qed.

(** ** Multi-line strings in the lexer *)

Section MultilineStrings.
Import Lexer.

Lemma str_app_assoc (a b c : string) : (a ++ b) ++ c = a ++ (b ++ c).
Proof. induction a as [|x a IH]; simpl; [reflexivity | now rewrite IH]. Qed.

Lemma str_app_length (a b : string) :
  String.length (a ++ b) = String.length a + String.length b.
Proof. induction a as [|x a IH]; simpl; [reflexivity | now rewrite IH]. Qed.

Lemma is_indent_not_newline c : is_indent c = true -> Ascii.eqb c newline = false.
Proof.
  unfold is_indent. intros H. destruct (Ascii.eqb c newline) eqn:E; [|reflexivity].
  apply Ascii.eqb_eq in E. subst c. discriminate.
Qed.

Lemma lstrip_line l more :
  lstrip (l ++ String newline more) = lstrip l ++ String newline more.
Proof.
  induction l as [|c r IH]; [reflexivity|].
  simpl. destruct (is_indent c); [exact IH | reflexivity].
Qed.

Lemma indent_len_line l more :
  indent_len (l ++ String newline more) = indent_len l.
Proof.
  induction l as [|c r IH]; [reflexivity|].
  simpl. destruct (is_indent c); [now rewrite IH | reflexivity].
Qed.

Lemma indent_len_lstrip l :
  String.length l = indent_len l + String.length (lstrip l).
Proof.
  induction l as [|c r IH]; [reflexivity|].
  simpl. destruct (is_indent c); simpl; [now rewrite IH | reflexivity].
Qed.

Lemma no_newline_lstrip l : no_newline l = true -> no_newline (lstrip l) = true.
Proof.
  induction l as [|c r IH]; [reflexivity|].
  simpl. intros H. destruct (is_indent c); [|exact H].
  apply andb_true_iff in H. now apply IH.
Qed.

Lemma drop_indent_len l : Str.drop (indent_len l) l = lstrip l.
Proof.
  induction l as [|c r IH]; [reflexivity|].
  simpl. destruct (is_indent c); [exact IH | reflexivity].
Qed.

(** The loop that counts indentation passes exactly the leading blanks. *)
Lemma advance_while_indent s p ln col :
  advance_while is_indent s {| rest := s; pos := p; line := ln; column := col |}
  = (indent_len s,
     {| rest := lstrip s; pos := p + indent_len s; line := ln;
        column := col + indent_len s |}).
Proof.
  revert p col. induction s as [|c r IH]; intros p col.
  - simpl. now rewrite !Nat.add_0_r.
  - simpl. destruct (is_indent c) eqn:E.
    + unfold advance. simpl. rewrite (is_indent_not_newline _ E).
      rewrite IH. f_equal. f_equal; lia.
    + now rewrite !Nat.add_0_r.
Qed.

(** The loop that skips the rest of the introducer's line. *)
Lemma advance_while_header h more p ln col :
  no_newline h = true ->
  snd (advance_while not_newline (h ++ String newline more)
         {| rest := h ++ String newline more; pos := p; line := ln; column := col |})
  = {| rest := String newline more; pos := p + String.length h; line := ln;
       column := col + String.length h |}.
Proof.
  revert p col. induction h as [|c r IH]; intros p col H.
  - simpl. now rewrite !Nat.add_0_r.
  - simpl in H. apply andb_true_iff in H as [Hc Hr]. simpl. rewrite Hc.
    unfold advance. simpl. unfold not_newline in Hc.
    apply negb_true_iff in Hc. rewrite Hc.
    specialize (IH (S p) (S col) Hr).
    destruct (advance_while not_newline (r ++ String newline more) _) as [n lx'].
    simpl in *. rewrite IH. f_equal; lia.
Qed.

Lemma advance_while_rest_le f s lx :
  rest lx = s ->
  String.length (rest (snd (advance_while f s lx))) <= String.length s.
Proof.
  revert lx. induction s as [|c r IH]; intros lx H; simpl.
  - now rewrite H.
  - destruct (f c).
    + specialize (IH (advance lx)).
      destruct (advance_while f r (advance lx)) as [n lx'] eqn:E. simpl in *.
      assert (Hr : rest (advance lx) = r) by (unfold advance; now rewrite H).
      specialize (IH Hr). lia.
    + simpl. rewrite H. simpl. lia.
Qed.

(** The length of the unread source is fuel enough for the main loop: more
    fuel changes nothing. *)
Lemma body_loop_fuel fuel :
  forall extra base lines cur lx,
    String.length (rest lx) <= fuel ->
    body_loop (fuel + extra) base lines cur lx = body_loop fuel base lines cur lx.
Proof.
  induction fuel as [|fuel IH]; intros extra base lines cur lx Hlen.
  - destruct (rest lx) as [|c r] eqn:E; [|simpl in Hlen; lia].
    destruct extra; simpl; [reflexivity | now rewrite E].
  - simpl. destruct (rest lx) as [|c r] eqn:E; [reflexivity|].
    simpl in Hlen.
    assert (Hr : rest (advance lx) = r) by (unfold advance; now rewrite E).
    destruct (Ascii.eqb c newline).
    + rewrite Hr.
      pose proof (advance_while_rest_le is_indent r (advance lx) Hr) as Hle.
      destruct (advance_while is_indent r (advance lx)) as [indent lx2].
      simpl in Hle.
      rewrite (IH extra base _ EmptyString lx2) by lia. reflexivity.
    + apply IH. rewrite Hr. lia.
Qed.

(** The main loop reads the text of a line into [current_line]. *)
Lemma body_loop_text t :
  forall fuel base lines cur more p ln col,
    no_newline t = true ->
    body_loop (String.length t + fuel) base lines cur
      {| rest := t ++ more; pos := p; line := ln; column := col |}
    = body_loop fuel base lines (cur ++ t)
        {| rest := more; pos := p + String.length t; line := ln;
           column := col + String.length t |}.
Proof.
  induction t as [|c r IH]; intros fuel base lines cur more p ln col H.
  - simpl. assert (E : cur ++ "" = cur) by (induction cur; simpl; congruence).
    now rewrite E, !Nat.add_0_r.
  - simpl in H. apply andb_true_iff in H as [Hc Hr].
    unfold not_newline in Hc. apply negb_true_iff in Hc.
    cbn [String.length Nat.add body_loop rest String.append]. rewrite Hc.
    unfold advance. cbn [rest pos line column]. rewrite Hc.
    rewrite IH by exact Hr. rewrite str_app_assoc. simpl.
    f_equal. f_equal; lia.
Qed.

Variable base : nat.
Variable after : string.
Hypothesis after_less : indent_len after < base.
Hypothesis after_text :
  exists c tail, lstrip after = String c tail /\ Ascii.eqb c newline = false.

Lemma lines_then_length ls :
  String.length after <= String.length (lines_then ls after).
Proof.
  induction ls as [|l r IH]; simpl; [lia|].
  rewrite str_app_length. simpl. lia.
Qed.

Lemma body_loop_lines ls :
  forall t cur lines fuel p ln col,
    no_newline t = true ->
    Forall (line_ok base) ls ->
    String.length (t ++ String newline (lines_then ls after)) <= fuel ->
    exists lx',
      body_loop fuel base lines cur
        {| rest := t ++ String newline (lines_then ls after);
           pos := p; line := ln; column := col |}
      = ((lines ++ (cur ++ t)%string :: map lstrip ls)%list, EmptyString, lx')
      /\ rest lx' = after
      /\ pos lx' + String.length after
         = p + String.length (t ++ String newline (lines_then ls after)).
Proof.
  induction ls as [|l r IH]; intros t cur lines fuel p ln col Ht Hls Hfuel.
  - rewrite str_app_length in Hfuel. simpl in Hfuel.
    replace fuel with (String.length t + (fuel - String.length t)) by lia.
    rewrite body_loop_text by exact Ht.
    destruct (fuel - String.length t) as [|f] eqn:Ef; [lia|].
    cbn [body_loop rest lines_then]. rewrite Ascii.eqb_refl.
    unfold advance. cbn [rest pos line column]. rewrite Ascii.eqb_refl.
    rewrite advance_while_indent.
    destruct after_text as (c & tail & Hc & Hn).
    unfold current_char. cbn [rest]. rewrite Hc, Hn.
    apply Nat.ltb_lt in after_less. rewrite after_less. simpl.
    eexists. split; [reflexivity|]. split; [reflexivity|].
    simpl. rewrite str_app_length. simpl. lia.
  - inversion Hls as [|? ? [Hl Hind] Hr]; subst.
    rewrite str_app_length in Hfuel. cbn [lines_then String.length] in Hfuel.
    rewrite str_app_length in Hfuel. cbn [String.length] in Hfuel.
    replace fuel with (String.length t + (fuel - String.length t)) by lia.
    rewrite body_loop_text by exact Ht.
    destruct (fuel - String.length t) as [|f] eqn:Ef; [lia|].
    cbn [body_loop rest lines_then]. rewrite Ascii.eqb_refl.
    unfold advance. cbn [rest pos line column]. rewrite Ascii.eqb_refl.
    rewrite advance_while_indent. rewrite lstrip_line, indent_len_line.
    pose proof (indent_len_lstrip l) as Hlen.
    match goal with
    | |- exists lx', match current_char ?lx2 with _ => _ end = _ /\ _ =>
        set (L2 := lx2)
    end.
    assert (Hstep :
      match current_char L2 with
      | Some c2 =>
          if (indent_len l <? base) && negb (Ascii.eqb c2 newline)
          then ((lines ++ [(cur ++ t)%string])%list, EmptyString,
                rewind L2 {| rest := l ++ String newline (lines_then r after);
                             pos := S (p + String.length t); line := S ln;
                             column := 1 |})
          else body_loop f base (lines ++ [(cur ++ t)%string])%list EmptyString L2
      | None => body_loop f base (lines ++ [(cur ++ t)%string])%list EmptyString L2
      end = body_loop f base (lines ++ [(cur ++ t)%string])%list EmptyString L2).
    { unfold current_char, L2. cbn [rest].
      destruct Hind as [Hblank | Hge].
      - rewrite Hblank. simpl. now rewrite andb_false_r.
      - destruct (lstrip l) as [|c2 r2]; simpl.
        + now rewrite andb_false_r.
        + apply Nat.ltb_ge in Hge. now rewrite Hge. }
    rewrite Hstep. unfold L2.
    destruct (IH (lstrip l) EmptyString (lines ++ [(cur ++ t)%string])%list f
                 (S (p + String.length t) + indent_len l) (S ln) (1 + indent_len l)
                 (no_newline_lstrip _ Hl) Hr) as (lx' & Hrun & Hrest & Hpos).
    { rewrite str_app_length. simpl. lia. }
    exists lx'. split; [|split].
    + rewrite Hrun. rewrite <- app_assoc. reflexivity.
    + exact Hrest.
    + rewrite Hpos. rewrite !str_app_length. simpl. rewrite !str_app_length.
      simpl. lia.
Qed.

End MultilineStrings.

(** C4, as the lexer behaves.  For a multi-line string introduced by [|]
    whose body lines after the first are blank or indented at least like the
    first, followed by a line with text that is indented less, the lexer
    produces a string token whose value is the body lines, each without ANY
    of its leading spaces and tabs (a line indented deeper than the first
    loses its extra indentation as well), joined by newlines; the body ends
    at the less-indented line, which is not consumed: the position is back
    at its start. *)
Theorem multiline_string_strips_all_indentation :
  forall (header first after : string) (others : list string) (p ln col : nat),
    Lexer.no_newline header = true ->
    Lexer.no_newline first = true ->
    Forall (line_ok (Lexer.indent_len first)) others ->
    ends_body (Lexer.indent_len first) after ->
    let source := Lexer.multiline_source header (first :: others) after in
    let lx := {| Lexer.rest := source; Lexer.pos := p;
                 Lexer.line := ln; Lexer.column := col |} in
    exists lx',
      Lexer.read_multiline_string lx
      = (Lexer.lexed_multiline_value (first :: others), lx')
      /\ Lexer.tokenize_multiline lx
         = ({| Lexer.tok_type := Lexer.STRING;
               Lexer.tok_value := VStr (Lexer.lexed_multiline_value (first :: others));
               Lexer.tok_line := ln; Lexer.tok_column := col |}, lx')
      /\ Lexer.rest lx' = after
      /\ Lexer.pos lx' + String.length after = p + String.length source.
Proof.
  intros header first after others p ln col Hh Hf Ho [Hless Htext] source lx.
  assert (Hread : exists lx',
    Lexer.read_multiline_string lx
    = (Lexer.lexed_multiline_value (first :: others), lx')
    /\ Lexer.rest lx' = after
    /\ Lexer.pos lx' + String.length after = p + String.length source).
  { unfold Lexer.read_multiline_string, lx, source, Lexer.multiline_source.
    unfold Lexer.advance at 1. cbn [Lexer.rest Lexer.pos Lexer.line Lexer.column].
    change (Ascii.eqb "|" Lexer.newline) with false. cbv iota.
    pose proof (advance_while_header header
                  (Lexer.lines_then (first :: others) after) (S p) ln (S col) Hh) as Hhd.
    destruct (Lexer.advance_while Lexer.not_newline _ _) as [n0 lx1].
    simpl in Hhd. subst lx1.
    unfold Lexer.current_char. cbn [Lexer.rest]. rewrite Ascii.eqb_refl.
    unfold Lexer.advance. cbn [Lexer.rest Lexer.pos Lexer.line Lexer.column].
    rewrite Ascii.eqb_refl.
    rewrite advance_while_indent. cbn [Lexer.lines_then].
    rewrite lstrip_line, indent_len_line.
    destruct (body_loop_lines (Lexer.indent_len first) after Hless Htext others
                (Lexer.lstrip first) EmptyString []
                (String.length (Lexer.lstrip first
                                ++ String Lexer.newline (Lexer.lines_then others after)))
                (S (S (p + String.length header)) + Lexer.indent_len first) (S ln)
                (1 + Lexer.indent_len first)
                (no_newline_lstrip _ Hf) Ho (le_n _))
      as (lx' & Hrun & Hrest & Hpos).
    cbn [Lexer.rest]. rewrite Hrun. exists lx'. split; [|split].
    - reflexivity.
    - exact Hrest.
    - rewrite Hpos. cbn [String.length]. rewrite !str_app_length.
      cbn [String.length Lexer.lines_then]. rewrite !str_app_length.
      cbn [String.length]. pose proof (indent_len_lstrip first). lia. }
  destruct Hread as (lx' & Hrun & Hrest & Hpos).
  exists lx'. split; [exact Hrun|]. split; [|split; assumption].
  unfold Lexer.tokenize_multiline. rewrite Hrun. reflexivity.
Qed.

Lemma multiline_string_witness :
  exists lx',
    Lexer.read_multiline_string
      (Lexer.init (Lexer.multiline_source "" ["  a"; "    b"; ""; "  c"] " x: 1"))
    = ("a" ++ nl ++ "b" ++ nl ++ nl ++ "c", lx')
    /\ Lexer.rest lx' = " x: 1".
Proof.
  destruct (multiline_string_strips_all_indentation
              "" "  a" " x: 1" ["    b"; ""; "  c"] 0 1 1 eq_refl eq_refl) as (lx' & H & _ & Hr & _).
  - constructor; [split; [reflexivity | right; simpl; lia]|].
    constructor; [split; [reflexivity | left; reflexivity]|].
    constructor; [split; [reflexivity | right; simpl; lia]|].
    constructor.
  - split; [simpl; lia|]. exists "x"%char, ": 1". split; reflexivity.
  - exists lx'. split; [exact H | exact Hr].
Defined.

(** C4 as stated fails: with a first body line indented by two and a second
    by four, the claim's value keeps two blanks before [b]; the lexer's
    value has none. *)
Lemma multiline_string_counterexample :
  fst (Lexer.read_multiline_string
         (Lexer.init (Lexer.multiline_source "" ["  a"; "    b"] "x")))
  <> Lexer.spec_multiline_value ["  a"; "    b"].
Proof. vm_compute. discriminate. Qed.

(** ** Fetching a file context *)

Lemma first_clash_uri (d : dict) :
  dict_has "uri" d = true -> exists k, first_clash d = Some k.
Proof.
  unfold dict_has. induction d as [|[k v] r IH]; intros Hu.
  - discriminate.
  - cbn [dict_get first_clash] in *.
    destruct (String.eqb k "self"); cbn [orb]; [exists k; reflexivity|].
    destruct (String.eqb k "uri") eqn:E.
    + exists k; reflexivity.
    + rewrite String.eqb_sym in E. rewrite E in Hu. now apply IH.
Qed.

(** Whatever the file system holds, a context node that has a [uri]
    property cannot be fetched on a cache miss: the properties are passed
    again as keywords, [uri] among them. *)
Lemma fetch_context_uri_clash :
  forall (cm : ContextManager.t) (node : CompiledNode) (source : ContextSource)
         (ctx_type : string),
    dict_get_default "type" (VStr "file") (cn_properties node) = VStr ctx_type ->
    dict_get ctx_type (ContextManager.sources cm) = Some source ->
    dict_get (ContextManager.cache_key node) (ContextManager.cache cm) = None ->
    dict_has "uri" (cn_properties node) = true ->
    exists msg,
      ContextManager.fetch_context cm node = (Raise (Exn TypeError msg), cm).
Proof.
  intros cm node source ctx_type Ht Hs Hc Hu.
  unfold ContextManager.fetch_context.
  unfold ContextManager.cache_key in Hc. rewrite Hc, Ht. simpl. rewrite Hs.
  unfold call_fetch.
  destruct (first_clash_uri _ Hu) as [k ->]. eauto.
Qed.

(** C2 (the code departs from the claim).  For the context node
    [{type: "file", uri: "fs://x.txt"}], an empty cache and any file system,
    also one where [x.txt] is a readable file, [fetch_context] raises
    [TypeError] and returns no text. *)
Theorem file_context_fetch_raises :
  forall (fs : FileSystem) (dir_source : ContextSource),
    ContextManager.fetch_context (ContextManager.init fs dir_source)
      {| cn_type := "ctx"; cn_id := "r";
         cn_properties := [("type", VStr "file"); ("uri", VStr "fs://x.txt")];
         cn_metadata := None |}
    = (Raise (Exn TypeError
                "FileContextSource.fetch() got multiple values for argument 'uri'"),
       ContextManager.init fs dir_source).
Proof. intros fs dir_source. reflexivity. Qed.

(** ** Template rendering *)

(** Without the plain placeholder in the text, a variable changes nothing,
    whatever its value and whatever filter forms the text holds. *)
Lemma render_variable_needs_placeholder host text key v :
  Str.contains ("{{" ++ key ++ "}}") text = false ->
  PromptRenderer.render_variable host text key v = Ok text.
Proof. intros H. unfold PromptRenderer.render_variable. now rewrite H. Qed.

(** Signals whose value is falsy leave the text as it is. *)
Lemma render_signals_falsy host ctx found text :
  Forall (fun m => truthy (get_signal host ctx (snd m)) = false) found ->
  PromptRenderer.render_signals host ctx found text = text.
Proof.
  induction 1 as [|[whole name] r Hf _ IH]; [reflexivity|].
  simpl in *. now rewrite Hf.
Qed.

(** C3 (the code departs from the claim).  A template that holds only the
    filter form of a list variable is returned unchanged: the filter forms
    are looked for only when the plain placeholder [{{name}}] occurs too. *)
Theorem filter_forms_left_unrendered :
  forall (host : Host) (ctx : ExecutionContext),
    PromptRenderer.render_template host ctx "{{items | bulletize}}"
      [("items", VList [VStr "a"; VStr "b"])]
    = Ok "{{items | bulletize}}"
    /\ PromptRenderer.render_template host ctx "{{items | join(', ')}}"
         [("items", VList [VStr "a"; VStr "b"])]
       = Ok "{{items | join(', ')}}"
    /\ PromptRenderer.render_template host ctx "{{items}}: {{items | bulletize}}"
         [("items", VList [VStr "a"; VStr "b"])]
       = Ok ("{{items}}: • a" ++ nl ++ "• b").
Proof. intros host ctx. repeat split; reflexivity. Qed.

(** C8 (the code departs from the claim).  A signal that is set to [0], or
    to the empty string, or found empty in the environment, is not
    substituted: its placeholder stays, as for a signal that is not set; a
    signal set to [7] is substituted. *)
Theorem falsy_signal_left_unrendered :
  forall (re : string -> string -> result (option (string * string))),
    let ctx := {| signals := [("count", VInt 0); ("note", VStr ""); ("n", VInt 7)];
                  memory := []; context_cache := []; resolved_contexts := [] |} in
    let host := {| environ := [("CHORD_MODE", "")]; re_search := re |} in
    get_signal host ctx "count" = VInt 0
    /\ PromptRenderer.render_template host ctx "Count: {{signal.count}}" []
       = Ok "Count: {{signal.count}}"
    /\ PromptRenderer.render_template host ctx "[{{signal.note}}]" []
       = Ok "[{{signal.note}}]"
    /\ PromptRenderer.render_template host ctx "[{{signal.mode}}]" []
       = Ok "[{{signal.mode}}]"
    /\ PromptRenderer.render_template host ctx "[{{signal.unset}}]" []
       = Ok "[{{signal.unset}}]"
    /\ PromptRenderer.render_template host ctx "N: {{signal.n}}" []
       = Ok "N: 7".
Proof. intros re. repeat split; reflexivity. Qed.

(** ** Selector batches *)

Lemma dict_get_set_same {A} (k : string) (v : A) d :
  dict_get k (dict_set k v d) = Some v.
Proof.
  induction d as [|[k' v'] r IH]; simpl.
  - now rewrite String.eqb_refl.
  - destruct (String.eqb k k') eqn:E; simpl; rewrite E; [reflexivity | exact IH].
Qed.

Lemma dict_get_set_other {A} (k k' : string) (v : A) d :
  k <> k' -> dict_get k' (dict_set k v d) = dict_get k' d.
Proof.
  intros Hne. induction d as [|[k0 v0] r IH]; simpl.
  - apply String.eqb_neq in Hne. rewrite String.eqb_sym in Hne. now rewrite Hne.
  - destruct (String.eqb k k0) eqn:E; simpl.
    + apply String.eqb_eq in E. subst k0.
      apply String.eqb_neq in Hne. rewrite String.eqb_sym in Hne. now rewrite Hne.
    + destruct (String.eqb k' k0); [reflexivity | exact IH].
Qed.

Lemma resolve_loop_spec (rt : Runtime.t) :
  forall selectors keys acc cm,
    mapM Runtime.selector_key selectors = Ok keys ->
    NoDup keys ->
    exists resolved,
      Runtime.resolve_loop rt selectors acc cm
      = (Ok resolved, state_after rt selectors cm)
      /\ (forall k, ~ In k keys -> dict_get k resolved = dict_get k acc)
      /\ (forall i sel key,
            nth_error selectors i = Some sel ->
            nth_error keys i = Some key ->
            dict_get key resolved
            = Some (Runtime.caught
                      (fst (Runtime.execute_selector rt sel
                              (state_after rt (firstn i selectors) cm))))).
Proof.
  induction selectors as [|s rest IH]; intros keys acc cm Hkeys Hnd.
  - simpl in Hkeys. injection Hkeys as <-. exists acc. simpl.
    split; [reflexivity|]. split; [reflexivity|].
    intros [|i] sel key H; discriminate.
  - simpl in Hkeys.
    destruct (Runtime.selector_key s) as [key|e] eqn:Ek; [|discriminate].
    simpl in Hkeys.
    destruct (mapM Runtime.selector_key rest) as [keys'|e] eqn:Er; [|discriminate].
    simpl in Hkeys. injection Hkeys as <-.
    inversion Hnd as [|? ? Hnotin Hnd']; subst.
    simpl. rewrite Ek.
    destruct (Runtime.execute_selector rt s cm) as [r cm'] eqn:Ex. simpl.
    destruct (IH keys' (dict_set key (Runtime.caught r) acc) cm' eq_refl Hnd')
      as (resolved & Hrun & Hother & Hnth).
    exists resolved. split; [exact Hrun|]. split.
    + intros k Hk. rewrite Hother by (intros Hin; apply Hk; now right).
      apply dict_get_set_other. intros ->. apply Hk. now left.
    + intros [|i] sel k Hs Hk; simpl in Hs, Hk.
      * injection Hs as <-. injection Hk as <-.
        rewrite (Hother key Hnotin). simpl. rewrite Ex. apply dict_get_set_same.
      * simpl. rewrite Ex. simpl. now apply Hnth.
Qed.

(** C6.  In a batch whose selectors have pairwise distinct result keys,
    every selector is executed, in order; the key of one that raises is
    bound to the error marker [[Error: ...]] and the key of every other one
    to its own result.  A selector whose [from] names a node that does not
    exist gets the marker of the unknown node. *)
Theorem selector_failure_is_contained :
  forall (rt : Runtime.t) (selectors : list value) (keys : list string)
         (cm : Runtime.state),
    mapM Runtime.selector_key selectors = Ok keys ->
    NoDup keys ->
    exists resolved,
      Runtime.resolve_selectors rt selectors cm
      = (Ok resolved, state_after rt selectors cm)
      /\ forall i sel key,
           nth_error selectors i = Some sel ->
           nth_error keys i = Some key ->
           let before := state_after rt (firstn i selectors) cm in
           (forall v,
               fst (Runtime.execute_selector rt sel before) = Ok v ->
               dict_get key resolved = Some v)
           /\ (forall e,
                 fst (Runtime.execute_selector rt sel before) = Raise e ->
                 dict_get key resolved = Some (VStr ("[Error: " ++ exn_str e ++ "]")))
           /\ (forall params ref,
                 sel = VDict params ->
                 dict_get "from" params = Some (VStr ref) ->
                 Str.startswith ref "@" = true ->
                 dict_get (Runtime.root_id ref) (Runtime.nodes rt) = None ->
                 dict_get key resolved
                 = Some (VStr ("[Error: Unknown node: " ++ ref ++ "]"))).
Proof.
  intros rt selectors keys cm Hkeys Hnd.
  destruct (resolve_loop_spec rt selectors keys [] cm Hkeys Hnd)
    as (resolved & Hrun & _ & Hnth).
  exists resolved. split; [exact Hrun|].
  intros i sel key Hs Hk before. specialize (Hnth i sel key Hs Hk).
  fold before in Hnth. split; [|split].
  - intros v Hv. now rewrite Hnth, Hv.
  - intros e He. now rewrite Hnth, He.
  - intros params ref -> Hfrom Href Hnode. rewrite Hnth.
    unfold Runtime.execute_selector, dict_get_default. rewrite Hfrom, Href, Hnode.
    reflexivity.
Qed.

Lemma selector_failure_witness :
  exists resolved,
    fst (Runtime.resolve_selectors Sample.runtime Sample.selectors Sample.cm)
    = Ok resolved
    /\ dict_get "ghost" resolved = Some (VStr "[Error: Unknown node: @ghost.x]")
    /\ dict_get "r" resolved = Some (VDict [("persona", VStr "helper")])
    /\ dict_get "data" resolved = Some (VStr "one").
Proof.
  assert (Hnd : NoDup ["ghost"; "r"; "data"]).
  { repeat constructor; simpl; intuition discriminate. }
  destruct (selector_failure_is_contained Sample.runtime Sample.selectors
              ["ghost"; "r"; "data"] Sample.cm eq_refl Hnd)
    as (resolved & Hrun & Hall).
  exists resolved. split; [now rewrite Hrun|]. split; [|split].
  - exact (proj2 (proj2 (Hall 0 _ "ghost" eq_refl eq_refl))
             _ "@ghost.x" eq_refl eq_refl eq_refl eq_refl).
  - exact (proj1 (Hall 1 _ "r" eq_refl eq_refl) _ eq_refl).
  - exact (proj1 (Hall 2 _ "data" eq_refl eq_refl) _ eq_refl).
Defined.

(** ** Flows *)

Lemma edge_target_spec (edge : value) :
  edge_ok edge = true ->
  Runtime.edge_target edge
  = Ok (match edge_task edge with [] => None | t :: _ => Some t end).
Proof.
  destruct edge as [| | | | |l|e]; try discriminate.
  unfold edge_ok, edge_task, Runtime.edge_target, dict_get_default.
  destruct (dict_get "to" e) as [[| | | |s| |]|]; try discriminate; intros _.
  - unfold ref_task. destruct s as [|c s]; [reflexivity|].
    change (truthy (VStr (String c s))) with true. cbv iota.
    destruct (Str.startswith (String c s) "@"); reflexivity.
  - reflexivity.
Qed.

Lemma edge_task_short (edge : value) :
  edge_task edge = [] \/ exists t, edge_task edge = [t].
Proof.
  destruct edge as [| | | | |l|e]; simpl; auto.
  destruct (dict_get "to" e) as [[| | | |s| |]|]; auto.
  unfold ref_task. destruct (Str.startswith s "@"); eauto.
Qed.

Lemma run_edges_spec host rt :
  forall edges results cm,
    forallb edge_ok edges = true ->
    Runtime.run_edges host rt edges results cm
    = run_tasks host rt (flat_map edge_task edges) results cm.
Proof.
  induction edges as [|edge rest IH]; intros results cm Hok; [reflexivity|].
  simpl in Hok. apply andb_true_iff in Hok as [Hedge Hrest].
  simpl. rewrite (edge_target_spec _ Hedge).
  destruct (edge_task_short edge) as [-> | [t ->]]; simpl.
  - now apply IH.
  - destruct (Runtime.execute_task host rt t cm) as [[r|e] cm']; [|reflexivity].
    now apply IH.
Qed.

(** C7.  [execute_flow] runs the entry task first and then the [to] task of
    every edge, once per edge and in the order of the edges, whatever the
    [from] of an edge and the other fields of the flow hold; a task that
    raises ends the flow with its exception.  With entry [@taskA] and the
    single edge to [@taskB], both of which return, the results are those of
    taskA and then taskB. *)
Theorem flow_runs_entry_then_edges :
  forall (host : Host) (rt : Runtime.t) (fid : string) (flow : Flow)
         (cm : Runtime.state) (entry : option string) (edges : list value),
    Runtime.find_flow (Runtime.flows rt) fid = Some flow ->
    flow_entry flow = option_map VStr entry ->
    flow_edges flow = Some (VList edges) ->
    forallb edge_ok edges = true ->
    Runtime.execute_flow host rt fid cm
    = flow_result fid (run_tasks host rt (flow_task_ids entry edges) [] cm)
    /\ (forall e rA rB cm1 cm2,
          entry = Some "@taskA" ->
          edges = [VDict e] ->
          dict_get "to" e = Some (VStr "@taskB") ->
          Runtime.execute_task host rt "taskA" cm = (Ok rA, cm1) ->
          Runtime.execute_task host rt "taskB" cm1 = (Ok rB, cm2) ->
          Runtime.execute_flow host rt fid cm
          = (Ok (VDict [("flow_id", VStr fid); ("results", VList [rA; rB])]), cm2)).
Proof.
  intros host rt fid flow cm entry edges Hfind Hentry Hedges Hok.
  assert (Hgen : Runtime.execute_flow host rt fid cm
                 = flow_result fid (run_tasks host rt (flow_task_ids entry edges) [] cm)).
  { unfold Runtime.execute_flow. rewrite Hfind.
    unfold Runtime.run_entry. rewrite Hentry, Hedges. cbn [py_iter].
    unfold flow_task_ids.
    destruct entry as [s|]; cbn [option_map].
    - unfold ref_task. destruct (Str.startswith s "@"); cbn [app].
      + cbn [run_tasks].
        destruct (Runtime.execute_task host rt (Runtime.root_id s) cm) as [[r|e] cm1];
          [|reflexivity].
        now rewrite run_edges_spec.
      + now rewrite run_edges_spec.
    - cbn [app]. now rewrite run_edges_spec. }
  split; [exact Hgen|].
  intros e rA rB cm1 cm2 -> -> Hto HA HB. rewrite Hgen.
  unfold flow_task_ids. cbn [flat_map edge_task]. rewrite Hto.
  change (ref_task "@taskA") with ["taskA"].
  change (ref_task "@taskB") with ["taskB"].
  cbn [app run_tasks]. rewrite HA. cbn [app]. rewrite HB. reflexivity.
Qed.

Lemma flow_runs_witness :
  exists rA rB,
    fst (Runtime.execute_flow Sample.host Sample.runtime "f" Sample.cm)
    = Ok (VDict [("flow_id", VStr "f"); ("results", VList [rA; rB])])
    /\ dict_get "task_id" (match rA with VDict d => d | _ => [] end) = Some (VStr "taskA")
    /\ dict_get "task_id" (match rB with VDict d => d | _ => [] end) = Some (VStr "taskB").
Proof.
  destruct (flow_runs_entry_then_edges Sample.host Sample.runtime "f" Sample.flow
              Sample.cm (Some "@taskA")
              [VDict [("from", VStr "@nowhere"); ("to", VStr "@taskB");
                      ("when", VStr "never")]]
              eq_refl eq_refl eq_refl eq_refl) as [_ H].
  eexists. eexists. split.
  - erewrite H; [reflexivity | reflexivity | reflexivity | reflexivity
                 | vm_compute; reflexivity | vm_compute; reflexivity].
  - split; reflexivity.
Defined.

(** ** The [semantic_search] selector *)

Section Ranking.
Import SemanticSearchSelector.

Lemma insert_desc_perm x l : Permutation (insert_desc x l) (x :: l).
Proof.
  induction l as [|y r IH]; simpl; [reflexivity|].
  destruct (fst y <=? fst x); [reflexivity|].
  rewrite IH. apply perm_swap.
Qed.

Lemma sort_desc_perm l : Permutation (sort_desc l) l.
Proof.
  induction l as [|x r IH]; simpl; [constructor|].
  rewrite insert_desc_perm. now constructor.
Qed.

Lemma insert_desc_sorted x l :
  StronglySorted desc l -> StronglySorted desc (insert_desc x l).
Proof.
  induction 1 as [|y r Hs IH Hall]; simpl.
  - repeat constructor.
  - destruct (fst y <=? fst x) eqn:E.
    + apply Nat.leb_le in E. constructor; [now constructor|].
      constructor; [exact E|].
      eapply Forall_impl; [|exact Hall]. unfold desc. intros; lia.
    + apply Nat.leb_gt in E. constructor; [exact IH|].
      eapply Permutation_Forall; [symmetry; apply insert_desc_perm|].
      constructor; [unfold desc; lia | exact Hall].
Qed.

Lemma sort_desc_sorted l : StronglySorted desc (sort_desc l).
Proof.
  induction l as [|x r IH]; simpl; [constructor | now apply insert_desc_sorted].
Qed.

(** Stability: the elements of one score keep their order. *)
Lemma insert_desc_stable n x l :
  filter (has_score n) (insert_desc x l) = filter (has_score n) (x :: l).
Proof.
  induction l as [|y r IH]; [reflexivity|].
  simpl insert_desc. destruct (fst y <=? fst x) eqn:E; [reflexivity|].
  apply Nat.leb_gt in E.
  change (filter (has_score n) (y :: insert_desc x r))
    with (if has_score n y then y :: filter (has_score n) (insert_desc x r)
          else filter (has_score n) (insert_desc x r)).
  rewrite IH. simpl. unfold has_score.
  destruct (fst y =? n) eqn:Ey; destruct (fst x =? n) eqn:Ex; try reflexivity.
  apply Nat.eqb_eq in Ey, Ex. lia.
Qed.

Lemma sort_desc_stable n l :
  filter (has_score n) (sort_desc l) = filter (has_score n) l.
Proof.
  induction l as [|x r IH]; [reflexivity|].
  simpl sort_desc. rewrite insert_desc_stable. simpl. now rewrite IH.
Qed.

Lemma scored_spec qw lines :
  scored qw lines
  = map (fun l => (score qw l, l)) (filter (fun l => 0 <? score qw l) lines).
Proof.
  induction lines as [|l r IH]; [reflexivity|].
  simpl. destruct (0 <? score qw l); simpl; now rewrite IH.
Qed.

Lemma scored_positive qw lines :
  Forall (fun p => 0 < fst p /\ fst p = score qw (snd p)) (scored qw lines).
Proof.
  induction lines as [|l r IH]; simpl; [constructor|].
  destruct (0 <? score qw l) eqn:E; [|exact IH].
  constructor; [|exact IH]. apply Nat.ltb_lt in E. now split.
Qed.

(** The score of a line is the size of the intersection of the two word
    sets, and no other number is. *)
Lemma score_overlap_size (query line : string) (n : nat) :
  overlap_size query line n
  <-> n = score (word_set (Str.split (Str.lower query))) line.
Proof.
  set (qs := Str.split (Str.lower query)).
  set (ls := Str.split (Str.lower line)).
  assert (Hin : forall w,
             In w (intersection (word_set qs) (word_set ls)) <-> In w qs /\ In w ls).
  { intros w. unfold intersection, word_set. rewrite filter_In, nodup_In.
    rewrite existsb_exists. split.
    - intros [Hq [x [Hx Hw]]]. apply String.eqb_eq in Hw. subst x.
      apply nodup_In in Hx. now split.
    - intros [Hq Hl]. split; [exact Hq|]. exists w.
      split; [now apply nodup_In | apply String.eqb_refl]. }
  assert (Hnd : NoDup (intersection (word_set qs) (word_set ls))).
  { unfold intersection, word_set. apply NoDup_filter, NoDup_nodup. }
  split.
  - intros [common [Hc [Hw ->]]]. unfold score. fold qs ls.
    apply Permutation_length, NoDup_Permutation; [exact Hc | exact Hnd|].
    intros w. rewrite Hw, Hin. reflexivity.
  - intros ->. exists (intersection (word_set qs) (word_set ls)).
    split; [exact Hnd|]. split; [exact Hin | reflexivity].
Qed.

End Ranking.

(** C9.  [semantic_search] scores a line by the size of the intersection of
    its lower-cased word set with the query's lower-cased word set (the
    score is that number and no other, and every ranked line carries it),
    keeps the lines of positive score, and returns the first [top_k] (5
    unless given) of them ranked by descending score, lines of equal score
    in their original order; the query "a b" over "a c", "b c", "a b c"
    gives "a b c", "a c", "b c". *)
Theorem semantic_search_ranks_by_overlap :
  forall (data query : string) (params : dict) (k : nat),
    dict_get "query" params = Some (VStr query) ->
    dict_get_default "top_k" (VInt 5) params = VInt (Z.of_nat k) ->
    let qw := SemanticSearchSelector.word_set (Str.split (Str.lower query)) in
    let kept := filter (fun l => 0 <? SemanticSearchSelector.score qw l)
                       (Str.splitlines data) in
    let rk := SemanticSearchSelector.ranked query data in
    SemanticSearchSelector.execute (VStr data) params
    = Ok (VStr (Str.join nl (map snd (firstn k rk))))
    /\ StronglySorted desc rk
    /\ Permutation rk (map (fun l => (SemanticSearchSelector.score qw l, l)) kept)
    /\ (forall n, filter (has_score n) rk
                  = filter (has_score n)
                      (map (fun l => (SemanticSearchSelector.score qw l, l)) kept))
    /\ Forall (fun p => 0 < fst p) rk
    /\ SemanticSearchSelector.execute
         (VStr ("a c" ++ nl ++ "b c" ++ nl ++ "a b c")) [("query", VStr "a b")]
       = Ok (VStr ("a b c" ++ nl ++ "a c" ++ nl ++ "b c"))
    /\ (forall line n,
          overlap_size query line n <-> n = SemanticSearchSelector.score qw line)
    /\ Forall (fun p => overlap_size query (snd p) (fst p)) rk.
Proof.
  intros data query params k Hq Hk qw kept rk.
  assert (Hrk : rk = SemanticSearchSelector.sort_desc
                       (map (fun l => (SemanticSearchSelector.score qw l, l)) kept)).
  { unfold rk, SemanticSearchSelector.ranked. now rewrite scored_spec. }
  split; [|split; [|split; [|split; [|split; [|split; [|split]]]]]].
  - unfold SemanticSearchSelector.execute.
    unfold dict_get_default at 1. rewrite Hq. rewrite Hk. simpl.
    unfold slice_to. destruct (0 <=? Z.of_nat k)%Z eqn:E.
    + now rewrite Nat2Z.id.
    + apply Z.leb_gt in E. lia.
  - rewrite Hrk. apply sort_desc_sorted.
  - rewrite Hrk. apply sort_desc_perm.
  - intros n. rewrite Hrk. apply sort_desc_stable.
  - unfold rk, SemanticSearchSelector.ranked.
    eapply Permutation_Forall; [symmetry; apply sort_desc_perm|].
    eapply Forall_impl; [|apply scored_positive]. now intros p [H _].
  - vm_compute. reflexivity.
  - intros line n. apply score_overlap_size.
  - unfold rk, SemanticSearchSelector.ranked.
    eapply Permutation_Forall; [symmetry; apply sort_desc_perm|].
    eapply Forall_impl; [|apply scored_positive].
    intros p [_ H]. apply score_overlap_size. exact H.
Qed.

Lemma semantic_search_witness :
  SemanticSearchSelector.execute
    (VStr ("x y" ++ nl ++ "a c" ++ nl ++ "b c" ++ nl ++ "a b c"))
    [("query", VStr "A b"); ("top_k", VInt 2)]
  = Ok (VStr ("a b c" ++ nl ++ "a c")).
Proof.
  exact (proj1 (semantic_search_ranks_by_overlap
                  ("x y" ++ nl ++ "a c" ++ nl ++ "b c" ++ nl ++ "a b c") "A b"
                  [("query", VStr "A b"); ("top_k", VInt 2)] 2 eq_refl eq_refl)).
Defined.

(** ** The [tail] selector *)

Lemma slice_from_zero {A} (l : list A) : slice_from 0 l = l.
Proof. reflexivity. Qed.

Lemma slice_from_last {A} (n : nat) (l : list A) :
  1 <= n -> slice_from (- Z.of_nat n) l = skipn (length l - n) l.
Proof.
  intros Hn. unfold slice_from.
  destruct (0 <=? - Z.of_nat n)%Z eqn:E.
  - apply Z.leb_le in E. lia.
  - f_equal. lia.
Qed.

(** C10.  With [lines = 0] the [tail] selector returns every line of a
    string input, newline-joined, because the slice [[-0:]] is the whole
    list; with [lines = n >= 1] it returns the last [n] lines. *)
Theorem tail_zero_lines_is_whole_input :
  forall (data : string) (params : dict),
    (dict_get "lines" params = Some (VInt 0) ->
     TailSelector.execute (VStr data) params
     = Ok (VStr (Str.join nl (Str.splitlines data))))
    /\ (forall n : nat,
          1 <= n ->
          dict_get "lines" params = Some (VInt (Z.of_nat n)) ->
          TailSelector.execute (VStr data) params
          = Ok (VStr (Str.join nl
                        (skipn (length (Str.splitlines data) - n) (Str.splitlines data))))).
Proof.
  intros data params. split.
  - intros H. unfold TailSelector.execute, dict_get_default. rewrite H.
    simpl. now rewrite slice_from_zero.
  - intros n Hn H. unfold TailSelector.execute, dict_get_default. rewrite H.
    simpl. now rewrite slice_from_last.
Qed.

Lemma tail_zero_lines_witness :
  TailSelector.execute (VStr ("a" ++ nl ++ "b" ++ nl ++ "c")) [("lines", VInt 0)]
  = Ok (VStr ("a" ++ nl ++ "b" ++ nl ++ "c"))
  /\ TailSelector.execute (VStr ("a" ++ nl ++ "b" ++ nl ++ "c")) [("lines", VInt 2)]
     = Ok (VStr ("b" ++ nl ++ "c")).
Proof.
  split.
  - exact (proj1 (tail_zero_lines_is_whole_input
                    ("a" ++ nl ++ "b" ++ nl ++ "c") [("lines", VInt 0)]) eq_refl).
  - exact (proj2 (tail_zero_lines_is_whole_input
                    ("a" ++ nl ++ "b" ++ nl ++ "c") [("lines", VInt 2)])
                 2 (le_n_S 0 1 (le_0_n 1)) eq_refl).
Defined.

(** ** More on reference resolution *)

Lemma prefix_nil (s : string) : String.prefix "" s = true.
Proof. now destruct s. Qed.

Lemma prefix_cons (a b : ascii) (p s : string) :
  String.prefix (String a p) (String b s)
  = if Ascii.ascii_dec a b then String.prefix p s else false.
Proof. reflexivity. Qed.

Lemma drop_app_length (a b : string) : Str.drop (String.length a) (a ++ b) = b.
Proof. induction a as [|c a IH]; [reflexivity | exact IH]. Qed.

Lemma take_app_length (a b : string) : Str.take (String.length a) (a ++ b) = a.
Proof. induction a as [|c a IH]; simpl; [now destruct b | now rewrite IH]. Qed.

Lemma endswith_app (a p : string) : Str.endswith (a ++ p) p = true.
Proof.
  unfold Str.endswith. rewrite str_app_length.
  replace (String.length a + String.length p - String.length p)
    with (String.length a) by lia.
  rewrite drop_app_length, String.eqb_refl.
  replace (String.length p <=? String.length a + String.length p) with true; [reflexivity|].
  symmetry. apply Nat.leb_le. lia.
Qed.

(** X1.  A dynamic reference [@{expr}] is returned as it is, whatever the
    expression and whatever the graph holds: no node is looked up. *)
Theorem dynamic_reference_passes_through :
  forall (g : Graph) (expr : string),
    Compiler.resolve_reference g ("@{" ++ expr ++ "}") = Ok (VStr ("@{" ++ expr ++ "}"))
    /\ Compiler.compile_property g (VStr ("@{" ++ expr ++ "}"))
       = Ok (VStr ("@{" ++ expr ++ "}")).
Proof.
  intros g expr.
  assert (R : Compiler.resolve_reference g ("@{" ++ expr ++ "}")
              = Ok (VStr ("@{" ++ expr ++ "}"))).
  { unfold Compiler.resolve_reference.
    assert (E1 : Str.startswith ("@{" ++ expr ++ "}") "@" = true) by reflexivity.
    assert (E2 : Str.drop 1 ("@{" ++ expr ++ "}") = String "{" expr ++ "}") by reflexivity.
    assert (E3 : Str.startswith (String "{" expr ++ "}") "{" = true).
    { unfold Str.startswith. cbn [String.append]. rewrite prefix_cons.
      now rewrite prefix_nil. }
    rewrite E1, E2, E3, endswith_app. cbn [negb andb].
    unfold Str.strip_ends. cbn [String.length Str.drop String.append].
    rewrite str_app_length. cbn [String.length].
    replace (S (String.length expr + 1) - 2) with (String.length expr) by lia.
    now rewrite take_app_length. }
  split; [exact R|]. simpl. exact R.
Qed.

Lemma split_on_no_sep c s :
  has_char c s = false -> Str.split_on c s = [s].
Proof.
  induction s as [|x r IH]; [reflexivity|].
  simpl. intros H. apply orb_false_iff in H as [Hx Hr].
  rewrite Hx, (IH Hr). reflexivity.
Qed.

Lemma split_on_app c a b :
  has_char c a = false ->
  Str.split_on c (a ++ String c b) = a :: Str.split_on c b.
Proof.
  induction a as [|x r IH]; intros H.
  - simpl. now rewrite Ascii.eqb_refl.
  - simpl in H. apply orb_false_iff in H as [Hx Hr].
    simpl. rewrite Hx, (IH Hr). reflexivity.
Qed.

Lemma startswith_drop_at s :
  Str.startswith s "@" = true -> "@" ++ Str.drop 1 s = s.
Proof.
  destruct s as [|c r]; [discriminate|].
  unfold Str.startswith. rewrite prefix_cons.
  destruct (Ascii.ascii_dec "@" c) as [E|E]; [subst c | discriminate].
  reflexivity.
Qed.

(** X2.  [resolve_reference] raises in one case only: a static reference
    whose first path segment names no node.  The error is a [ValueError]
    whose text names the whole reference. *)
Theorem resolve_reference_fails_only_on_unknown_node :
  forall (g : Graph) (ref : string) (e : exn),
    Compiler.resolve_reference g ref = Raise e
    <-> (Str.startswith ref "@" = true
         /\ (Str.startswith (Str.drop 1 ref) "{" && Str.endswith (Str.drop 1 ref) "}") = false
         /\ dict_get (Runtime.root_id ref) (graph_nodes g) = None
         /\ e = Exn ValueError ("Unknown reference: " ++ ref)).
Proof.
  intros g ref e. unfold Compiler.resolve_reference, Runtime.root_id.
  destruct (Str.startswith ref "@") eqn:Hs; cbn [negb].
  - destruct (Str.startswith (Str.drop 1 ref) "{" && Str.endswith (Str.drop 1 ref) "}").
    + split; [discriminate | intros (_ & H & _); discriminate].
    + destruct (dict_get (hd "" (Str.split_on "." (Str.drop 1 ref))) (graph_nodes g)).
      * split; [|intros (_ & _ & H & _); discriminate].
        destruct (length (Str.split_on "." (Str.drop 1 ref)) =? 1); discriminate.
      * assert (Hm : "Unknown reference: @" ++ Str.drop 1 ref
                     = "Unknown reference: " ++ ref).
        { rewrite <- (startswith_drop_at _ Hs) at 2. reflexivity. }
        rewrite Hm. split.
        -- intros H. injection H as <-. auto.
        -- intros (_ & _ & _ & ->). reflexivity.
  - split; [discriminate | intros (H & _); discriminate].
Qed.

Lemma startswith_brace_app a b :
  Str.startswith a "{" = false ->
  Str.startswith (a ++ String "." b) "{" = false.
Proof.
  destruct a as [|c r]; [reflexivity|].
  unfold Str.startswith. cbn [String.append]. rewrite !prefix_cons.
  destruct (Ascii.ascii_dec "{" c); [|reflexivity].
  now rewrite !prefix_nil.
Qed.

(** X3.  Resolution is single-hop.  For a node [id] and a property [key],
    [@id.key] resolves to the declared value of the property as it stands,
    also when that value is itself a reference string; when the node has no
    such property the reference string comes back. *)
Theorem reference_resolution_single_hop :
  forall (g : Graph) (id key : string) (n : Node),
    has_char "." id = false ->
    has_char "." key = false ->
    Str.startswith id "{" = false ->
    dict_get id (graph_nodes g) = Some n ->
    Compiler.resolve_reference g ("@" ++ id ++ "." ++ key)
    = Ok (match dict_get key (node_properties n) with
          | Some v => v
          | None => VStr ("@" ++ id ++ "." ++ key)
          end).
Proof.
  intros g id key n Hid Hkey Hbrace Hn.
  unfold Compiler.resolve_reference.
  assert (E1 : Str.startswith ("@" ++ id ++ "." ++ key) "@" = true).
  { unfold Str.startswith. cbn [String.append]. rewrite prefix_cons.
    now rewrite prefix_nil. }
  rewrite E1. cbn [negb].
  change (Str.drop 1 ("@" ++ id ++ "." ++ key)) with (id ++ String "." key).
  rewrite (startswith_brace_app _ key Hbrace). cbn [andb].
  rewrite (split_on_app "." id key Hid), (split_on_no_sep "." key Hkey).
  cbn [hd length tl Nat.eqb]. rewrite Hn. cbn [Compiler.navigate].
  destruct (dict_get key (node_properties n)); reflexivity.
Qed.

Lemma reference_resolution_single_hop_witness :
  Compiler.resolve_reference Sample2.graph_hop "@n.a" = Ok (VStr "@m.b").
Proof.
  exact (reference_resolution_single_hop Sample2.graph_hop "n" "a" Sample2.node_n
           eq_refl eq_refl eq_refl eq_refl).
Defined.

(** ** More on compilation *)

Lemma map_items_keys f d d' :
  Compiler.map_items f d = Ok d' -> map fst d' = map fst d.
Proof.
  revert d'. induction d as [|[k x] r IH]; intros d' H.
  - injection H as <-. reflexivity.
  - simpl in H. destruct (f x) as [x'|e]; [|discriminate]. simpl in H.
    destruct (Compiler.map_items f r) as [r'|e]; [|discriminate]. simpl in H.
    injection H as <-. simpl. now rewrite (IH r' eq_refl).
Qed.

(** X4.  Compiling a node keeps its type name, its id, and the keys of
    its properties in their declared order; so does [compile_object] for
    the keys of a mapping. *)
Theorem compile_keeps_keys_and_order :
  forall (g : Graph) (n : Node) (c : CompiledNode),
    Compiler.compile_node g n = Ok c ->
    cn_type c = NodeType_value (node_type n)
    /\ cn_id c = node_id n
    /\ map fst (cn_properties c) = map fst (node_properties n)
    /\ (forall obj obj', Compiler.compile_object g obj = Ok obj' ->
                         map fst obj' = map fst obj).
Proof.
  intros g n c H. unfold Compiler.compile_node in H.
  destruct (Compiler.map_items _ (node_properties n)) as [props|e] eqn:E; [|discriminate].
  simpl in H. injection H as <-. simpl.
  repeat split; try reflexivity.
  - exact (map_items_keys _ _ _ E).
  - intros obj obj'. apply map_items_keys.
Qed.

Lemma compile_keeps_keys_witness :
  exists c, Compiler.compile_node Sample.graph Sample2.user = Ok c
            /\ map fst (cn_properties c) = ["hit"; "miss"].
Proof.
  eexists. split; [reflexivity|].
  exact (proj1 (proj2 (proj2 (compile_keeps_keys_and_order Sample.graph Sample2.user
                                _ eq_refl)))).
Defined.

Lemma compile_element_ref_free g l :
  forallb (fun x => negb (is_str_ref x)) l = true ->
  mapM (Compiler.compile_element g) l = Ok l.
Proof.
  induction l as [|x r IH]; [reflexivity|].
  simpl. intros H. apply andb_true_iff in H as [Hx Hr].
  rewrite (IH Hr).
  destruct x; try reflexivity.
  simpl in Hx |- *. apply negb_true_iff in Hx. now rewrite Hx.
Qed.

(** X5.  A value without references compiles to itself, in any graph, and
    never raises: no string property, no direct element of an array and no
    value of a nested mapping begins with [@]. *)
Theorem reference_free_value_compiles_to_itself :
  forall (g : Graph) (v : value),
    ref_free v = true -> Compiler.compile_property g v = Ok v.
Proof.
  intros g. fix IH 1. intros [| b | z | r | s | l | d] H; try reflexivity.
  - simpl in H |- *. apply negb_true_iff in H. now rewrite H.
  - simpl in H |- *. now rewrite (compile_element_ref_free g l H).
  - cbn [Compiler.compile_property].
    assert (E : (fix items (d0 : list (string * value)) : result dict :=
                   match d0 with
                   | [] => Ok []
                   | (k, x) :: r0 =>
                       x' <- Compiler.compile_property g x ;;
                       r' <- items r0 ;; Ok ((k, x') :: r')
                   end) d = Ok d).
    { cbn [ref_free] in H. revert H.
      induction d as [|[k x] r0 IHd]; [reflexivity|].
      intros H. apply andb_true_iff in H as [Hx Hr].
      rewrite (IH x Hx). cbn [rbind]. rewrite (IHd Hr). reflexivity. }
    rewrite E. reflexivity.
Qed.

Lemma reference_free_value_witness :
  Compiler.compile_property Sample.graph Sample2.plain = Ok Sample2.plain.
Proof.
  exact (reference_free_value_compiles_to_itself Sample.graph Sample2.plain eq_refl).
Defined.

Lemma dict_set_fresh_keys {A} (k : string) (v : A) d :
  ~ In k (map fst d) -> map fst (dict_set k v d) = (map fst d ++ [k])%list.
Proof.
  induction d as [|[k' v'] r IH]; intros H; [reflexivity|].
  simpl in *. destruct (String.eqb k k') eqn:E.
  - apply String.eqb_eq in E. subst. tauto.
  - simpl. rewrite IH; [reflexivity | tauto].
Qed.

Lemma is_type_view n :
  is_type VIEW n = match node_type n with VIEW => true | _ => false end.
Proof. unfold is_type. now destruct (node_type n). Qed.

Lemma is_type_flow n :
  is_type FLOW n = match node_type n with FLOW => true | _ => false end.
Proof. unfold is_type. now destruct (node_type n). Qed.

Lemma is_type_test n :
  is_type TEST n = match node_type n with TEST => true | _ => false end.
Proof. unfold is_type. now destruct (node_type n). Qed.

Lemma compile_loop_order g :
  forall items ir ir',
    Compiler.compile_loop g ir items = Ok ir' ->
    map view_id (ir_views ir')
    = (map view_id (ir_views ir)
         ++ map node_id (filter (is_type VIEW) (map snd items)))%list
    /\ map flow_id (ir_flows ir')
       = (map flow_id (ir_flows ir)
            ++ map node_id (filter (is_type FLOW) (map snd items)))%list
    /\ map cn_id (ir_tests ir')
       = (map cn_id (ir_tests ir)
            ++ map node_id (filter (is_type TEST) (map snd items)))%list
    /\ (NoDup (map fst (ir_nodes ir) ++ map fst items) ->
        map fst (ir_nodes ir') = (map fst (ir_nodes ir) ++ map fst items)%list).
Proof.
  induction items as [|[nid n] rest IH]; intros ir ir' H.
  - injection H as <-. simpl. rewrite !app_nil_r. auto.
  - cbn [Compiler.compile_loop] in H.
    destruct (Compiler.compile_step g ir (nid, n)) as [ir1|e] eqn:Es; [|discriminate].
    cbn [rbind] in H. destruct (IH ir1 ir' H) as (Hv & Hf & Ht & Hn).
    unfold Compiler.compile_step in Es.
    destruct (Compiler.compile_node g n) as [c|e] eqn:Ec; [|discriminate].
    cbn [rbind] in Es.
    assert (Hid : cn_id c = node_id n).
    { unfold Compiler.compile_node in Ec.
      destruct (Compiler.map_items _ _); [|discriminate].
      simpl in Ec. now injection Ec as <-. }
    assert (Hkeys :
              (NoDup (map fst (dict_set nid c (ir_nodes ir)) ++ map fst rest) ->
               map fst (ir_nodes ir')
               = (map fst (dict_set nid c (ir_nodes ir)) ++ map fst rest)%list) ->
              NoDup (map fst (ir_nodes ir) ++ nid :: map fst rest) ->
              map fst (ir_nodes ir')
              = (map fst (ir_nodes ir) ++ nid :: map fst rest)%list).
    { intros Hrec Hnd.
      assert (Hfresh : ~ In nid (map fst (ir_nodes ir))).
      { intros Hin. apply NoDup_remove_2 in Hnd. apply Hnd.
        apply in_or_app. now left. }
      rewrite (dict_set_fresh_keys _ _ _ Hfresh) in Hrec.
      rewrite <- app_assoc in Hrec. simpl in Hrec.
      apply Hrec.
      apply NoDup_Add with (a := nid) (l := (map fst (ir_nodes ir) ++ map fst rest)%list).
      - apply Add_app.
      - split.
        + now apply NoDup_remove_1 in Hnd.
        + now apply NoDup_remove_2 in Hnd. }
    cbn [map snd fst filter]. rewrite is_type_view, is_type_flow, is_type_test.
    destruct (node_type n) eqn:Et; cbn [rbind] in Es; cbv iota;
      try (injection Es as <-; cbn [ir_views ir_flows ir_tests ir_nodes] in *;
           repeat split; try assumption;
           intros Hnd; exact (Hkeys Hn Hnd)).
    + (* flow *)
      injection Es as <-. cbn [ir_views ir_flows ir_tests ir_nodes] in *.
      cbn [map].
      rewrite map_app in Hf. cbn [map] in Hf. rewrite <- app_assoc in Hf.
      repeat split; try assumption.
      intros Hnd; exact (Hkeys Hn Hnd).
    + (* view *)
      destruct (Compiler.compile_view g n) as [v|e] eqn:Ev; [|discriminate].
      cbn [rbind] in Es. injection Es as <-.
      cbn [ir_views ir_flows ir_tests ir_nodes] in *.
      assert (Hvid : view_id v = node_id n).
      { unfold Compiler.compile_view in Ev.
        destruct (py_iter _); [|discriminate]. cbn [rbind] in Ev.
        destruct (mapM _ _); [|discriminate]. cbn [rbind] in Ev.
        now injection Ev as <-. }
      cbn [map].
      rewrite map_app in Hv. cbn [map] in Hv. rewrite <- app_assoc in Hv.
      rewrite Hvid in Hv.
      repeat split; try assumption.
      intros Hnd; exact (Hkeys Hn Hnd).
    + (* test *)
      injection Es as <-.
      cbn [ir_views ir_flows ir_tests ir_nodes] in *.
      cbn [map].
      rewrite map_app in Ht. cbn [map] in Ht. rewrite <- app_assoc in Ht.
      rewrite Hid in Ht.
      repeat split; try assumption.
      intros Hnd; exact (Hkeys Hn Hnd).
Qed.

(** X6.  A successful compilation keeps declaration order: the ids of the
    compiled views, flows and tests are the ids of the view, flow and test
    nodes in the order of the graph, and the keys of the compiled nodes are
    the keys of the graph. *)
Theorem compile_keeps_declaration_order :
  forall (g : Graph) (ir : IR),
    Compiler.compile g = Ok ir ->
    NoDup (map fst (graph_nodes g)) ->
    map view_id (ir_views ir)
    = map node_id (filter (is_type VIEW) (map snd (graph_nodes g)))
    /\ map flow_id (ir_flows ir)
       = map node_id (filter (is_type FLOW) (map snd (graph_nodes g)))
    /\ map cn_id (ir_tests ir)
       = map node_id (filter (is_type TEST) (map snd (graph_nodes g)))
    /\ map fst (ir_nodes ir) = map fst (graph_nodes g).
Proof.
  intros g ir H Hnd. unfold Compiler.compile in H.
  destruct (compile_loop_order g _ _ _ H) as (Hv & Hf & Ht & Hn).
  cbn [ir_views ir_flows ir_tests ir_nodes map app] in *.
  repeat split; try assumption. exact (Hn Hnd).
Qed.

Lemma compile_keeps_declaration_order_witness :
  match Compiler.compile Sample2.graph_views with
  | Ok ir =>
      map view_id (ir_views ir) = ["v1"; "v2"]
      /\ map flow_id (ir_flows ir) = ["f1"]
      /\ map fst (ir_nodes ir) = ["v1"; "t"; "f1"; "v2"]
  | Raise _ => False
  end.
Proof.
  assert (Hnd : NoDup (map fst (graph_nodes Sample2.graph_views))).
  { repeat constructor; simpl; intuition discriminate. }
  destruct (Compiler.compile Sample2.graph_views) as [ir|e] eqn:E.
  - destruct (compile_keeps_declaration_order Sample2.graph_views ir E Hnd)
      as (Hv & Hf & _ & Hn).
    exact (conj Hv (conj Hf Hn)).
  - vm_compute in E. discriminate E.
Defined.

(** ** More on selectors and context fetching *)

(** X7.  [head] returns the first [n] lines for [n >= 0]: nothing for
    [n = 0] and every line once [n] reaches the number of lines (so the
    default of 100 returns a text of up to 100 lines whole, with its line
    ends normalised); for [n < 0] it returns all but the last [-n] lines. *)
Theorem head_selects_leading_lines :
  forall (data : string) (params : dict),
    let lines := Str.splitlines data in
    (forall n : nat,
        dict_get_default "lines" (VInt 100) params = VInt (Z.of_nat n) ->
        HeadSelector.execute (VStr data) params
        = Ok (VStr (Str.join nl (firstn n lines)))
        /\ (n = 0 -> HeadSelector.execute (VStr data) params = Ok (VStr ""))
        /\ (length lines <= n ->
            HeadSelector.execute (VStr data) params = Ok (VStr (Str.join nl lines))))
    /\ (forall n : nat,
          1 <= n ->
          dict_get "lines" params = Some (VInt (- Z.of_nat n)) ->
          HeadSelector.execute (VStr data) params
          = Ok (VStr (Str.join nl (firstn (length lines - n) lines)))).
Proof.
  intros data params lines. split.
  - intros n H.
    assert (E : HeadSelector.execute (VStr data) params
                = Ok (VStr (Str.join nl (firstn n lines)))).
    { unfold HeadSelector.execute. rewrite H. cbn [slice_bound rbind].
      unfold slice_to. destruct (0 <=? Z.of_nat n)%Z eqn:En.
      - now rewrite Nat2Z.id.
      - apply Z.leb_gt in En. lia. }
    split; [exact E|]. split.
    + intros ->. exact E.
    + intros Hlen. rewrite E. now rewrite firstn_all2.
  - intros n Hn H. unfold HeadSelector.execute, dict_get_default. rewrite H.
    cbn [slice_bound rbind]. unfold slice_to.
    destruct (0 <=? - Z.of_nat n)%Z eqn:En.
    + apply Z.leb_le in En. lia.
    + assert (E2 : Z.to_nat (Z.of_nat (length (Str.splitlines data)) + - Z.of_nat n)
                   = length lines - n) by (unfold lines; lia).
      now rewrite E2.
Qed.

Lemma head_selects_witness :
  HeadSelector.execute (VStr ("a" ++ nl ++ "b" ++ nl ++ "c")) [("lines", VInt 2)]
  = Ok (VStr ("a" ++ nl ++ "b"))
  /\ HeadSelector.execute (VStr ("a" ++ nl ++ "b" ++ nl ++ "c")) [("lines", VInt (-1))]
     = Ok (VStr ("a" ++ nl ++ "b")).
Proof.
  split.
  - exact (proj1 (proj1 (head_selects_leading_lines
                           ("a" ++ nl ++ "b" ++ nl ++ "c") [("lines", VInt 2)])
                        2 eq_refl)).
  - exact (proj2 (head_selects_leading_lines
                    ("a" ++ nl ++ "b" ++ nl ++ "c") [("lines", VInt (-1))])
                 1 (le_n 1) eq_refl).
Defined.

(** X8.  [execute_selector] is lenient.  A source that is not a reference
    is used as the data itself, and an operation the registry does not know
    returns the data unchanged; a reference to a node that is not a context
    yields the node's properties, which [head] and [tail] hand back
    untouched.  None of this reads or changes the cache. *)
Theorem execute_selector_passes_data_through :
  forall (rt : Runtime.t) (params : dict) (ref : string) (cm : Runtime.state),
    dict_get "from" params = Some (VStr ref) ->
    (forall op,
        Str.startswith ref "@" = false ->
        dict_get "op" params = Some (VStr op) ->
        dict_get op (Runtime.selector_registry rt) = None ->
        Runtime.execute_selector rt (VDict params) cm = (Ok (VStr ref), cm))
    /\ (forall node op,
          Str.startswith ref "@" = true ->
          dict_get (Runtime.root_id ref) (Runtime.nodes rt) = Some node ->
          String.eqb (cn_type node) "ctx" = false ->
          dict_get "op" params = Some (VStr op) ->
          dict_get op (Runtime.selector_registry rt) = None
          \/ dict_get op (Runtime.selector_registry rt) = Some HeadSelector.execute
          \/ dict_get op (Runtime.selector_registry rt) = Some TailSelector.execute ->
          Runtime.execute_selector rt (VDict params) cm
          = (Ok (VDict (cn_properties node)), cm)).
Proof.
  intros rt params ref cm Hfrom. split.
  - intros op Href Hop Hreg.
    unfold Runtime.execute_selector, dict_get_default.
    rewrite Hfrom, Href, Hop. cbn [SelectorRegistry.get]. now rewrite Hreg.
  - intros node op Href Hnode Hctx Hop Hreg.
    unfold Runtime.execute_selector, dict_get_default.
    rewrite Hfrom, Href, Hnode, Hctx, Hop. cbn [SelectorRegistry.get].
    destruct Hreg as [-> | [-> | ->]]; reflexivity.
Qed.

Lemma execute_selector_passes_witness :
  Runtime.execute_selector Sample.runtime
    (VDict [("from", VStr "plain text"); ("op", VStr "shout")]) Sample.cm
  = (Ok (VStr "plain text"), Sample.cm)
  /\ Runtime.execute_selector Sample.runtime
       (VDict [("from", VStr "@r.persona"); ("op", VStr "tail"); ("lines", VStr "x")])
       Sample.cm
     = (Ok (VDict [("persona", VStr "helper")]), Sample.cm).
Proof.
  split.
  - exact (proj1 (execute_selector_passes_data_through Sample.runtime
                    [("from", VStr "plain text"); ("op", VStr "shout")]
                    "plain text" Sample.cm eq_refl)
                 "shout" eq_refl eq_refl eq_refl).
  - exact (proj2 (execute_selector_passes_data_through Sample.runtime
                    [("from", VStr "@r.persona"); ("op", VStr "tail"); ("lines", VStr "x")]
                    "@r.persona" Sample.cm eq_refl)
                 {| cn_type := "role"; cn_id := "r";
                    cn_properties := [("persona", VStr "helper")]; cn_metadata := None |}
                 "tail" eq_refl eq_refl eq_refl eq_refl
                 (or_intror (or_intror eq_refl))).
Defined.

(** X9.  The cache of the context manager: a fetch that succeeds is
    answered from the cache from then on, with the same value, without
    asking any source and without changing the state, whatever the sources
    have become; a fetch that fails leaves the state as it was; the
    registered sources never change. *)
Theorem fetch_context_caches_successes_only :
  forall (cm cm' : ContextManager.t) (node : CompiledNode) (r : result value),
    ContextManager.fetch_context cm node = (r, cm') ->
    ContextManager.sources cm' = ContextManager.sources cm
    /\ (forall e, r = Raise e -> cm' = cm)
    /\ (forall v, r = Ok v ->
          dict_get (ContextManager.cache_key node) (ContextManager.cache cm') = Some v
          /\ forall srcs,
               ContextManager.fetch_context
                 {| ContextManager.sources := srcs;
                    ContextManager.cache := ContextManager.cache cm' |} node
               = (Ok v, {| ContextManager.sources := srcs;
                           ContextManager.cache := ContextManager.cache cm' |})).
Proof.
  intros [srcs0 cache0] cm' node r H.
  unfold ContextManager.fetch_context in H. cbn [ContextManager.cache] in H.
  fold (ContextManager.cache_key node) in H.
  assert (Hhit : forall c v srcs,
             dict_get (ContextManager.cache_key node) c = Some v ->
             ContextManager.fetch_context
               {| ContextManager.sources := srcs; ContextManager.cache := c |} node
             = (Ok v, {| ContextManager.sources := srcs; ContextManager.cache := c |})).
  { intros c v srcs Hc. unfold ContextManager.fetch_context.
    cbn [ContextManager.cache]. fold (ContextManager.cache_key node). now rewrite Hc. }
  destruct (dict_get (ContextManager.cache_key node) cache0) as [data|] eqn:Ec.
  - injection H as <- <-. cbn. split; [reflexivity|]. split; [discriminate|].
    intros v Hv. injection Hv as <-. split; [exact Ec|]. intros srcs. now apply Hhit.
  - destruct (ContextManager.find_source _ _) as [[source|]|e0].
    + destruct (call_fetch source _ _) as [data|e1].
      * injection H as <- <-. cbn. split; [reflexivity|]. split; [discriminate|].
        intros v Hv. injection Hv as <-.
        split; [apply dict_get_set_same|]. intros srcs. apply Hhit.
        apply dict_get_set_same.
      * injection H as <- <-. split; [reflexivity|]. split; [reflexivity|]. discriminate.
    + injection H as <- <-. split; [reflexivity|]. split; [reflexivity|]. discriminate.
    + injection H as <- <-. split; [reflexivity|]. split; [reflexivity|]. discriminate.
Qed.

Lemma fetch_context_caches_witness :
  fst Sample2.fetched = Ok (VStr "hello")
  /\ ContextManager.fetch_context
       {| ContextManager.sources := [];
          ContextManager.cache := ContextManager.cache (snd Sample2.fetched) |}
       Sample2.note
     = (Ok (VStr "hello"),
        {| ContextManager.sources := [];
           ContextManager.cache := ContextManager.cache (snd Sample2.fetched) |}).
Proof.
  split; [reflexivity|].
  exact (proj2 (proj2 (proj2 (fetch_context_caches_successes_only
                                Sample2.cm_note (snd Sample2.fetched) Sample2.note
                                (Ok (VStr "hello")) eq_refl))
                      (VStr "hello") eq_refl) []).
Defined.

Lemma prefix_app (p s : string) : String.prefix p (p ++ s) = true.
Proof.
  induction p as [|c p IH]; [apply prefix_nil|].
  cbn [String.append]. rewrite prefix_cons.
  destruct (Ascii.ascii_dec c c); [exact IH | congruence].
Qed.

(** X10.  The body of the file source: a path with or without the [fs://]
    marker (one marker is removed, not more) yields the text of the file at
    that path; a path at which there is nothing raises [FileNotFoundError]
    naming the path, with or without the marker; a [uri] that is not a
    string, whatever else it is, raises [AttributeError]. *)
Theorem file_source_reads_path :
  forall (fs : FileSystem) (path : string) (kwargs : dict),
    (forall content,
        fs_at fs path = File content ->
        FileContextSource.fetch fs (VStr ("fs://" ++ path)) kwargs = Ok (VStr content)
        /\ (Str.startswith path "fs://" = false ->
            FileContextSource.fetch fs (VStr path) kwargs = Ok (VStr content)))
    /\ (fs_at fs path = Missing ->
        FileContextSource.fetch fs (VStr ("fs://" ++ path)) kwargs
        = Raise (Exn FileNotFoundError ("File not found: " ++ fs_path_str fs path))
        /\ (Str.startswith path "fs://" = false ->
            FileContextSource.fetch fs (VStr path) kwargs
            = Raise (Exn FileNotFoundError
                       ("File not found: " ++ fs_path_str fs path))))
    /\ (forall uri,
          (forall s, uri <> VStr s) ->
          FileContextSource.fetch fs uri kwargs
          = Raise (Exn AttributeError
                     ("'" ++ type_name uri
                      ++ "' object has no attribute 'startswith'"))).
Proof.
  intros fs path kwargs.
  assert (E : forall k,
             FileContextSource.fetch fs (VStr ("fs://" ++ path)) k
             = match fs_at fs path with
               | Missing =>
                   Raise (Exn FileNotFoundError ("File not found: " ++ fs_path_str fs path))
               | Unreadable e => Raise e
               | File content => Ok (VStr content)
               end).
  { intros k. unfold FileContextSource.fetch, Str.startswith.
    rewrite prefix_app. reflexivity. }
  split; [|split].
  - intros content H. split.
    + now rewrite E, H.
    + intros Hp. unfold FileContextSource.fetch. now rewrite Hp, H.
  - intros H. split.
    + now rewrite E, H.
    + intros Hp. unfold FileContextSource.fetch. now rewrite Hp, H.
  - intros uri Hns. destruct uri; try reflexivity.
    exfalso. eapply Hns. reflexivity.
Qed.

Lemma file_source_reads_witness :
  FileContextSource.fetch Sample.fs (VStr "fs://x.txt") [] = Ok (VStr "hello")
  /\ FileContextSource.fetch Sample.fs (VStr "x.txt") [] = Ok (VStr "hello").
Proof.
  destruct (proj1 (file_source_reads_path Sample.fs "x.txt" []) "hello" eq_refl)
    as [H1 H2].
  exact (conj H1 (H2 eq_refl)).
Defined.

(** ** Signals *)

Lemma set_signals_signals ctx new :
  signals (set_signals ctx new)
  = fold_left (fun d kv => dict_set (fst kv) (snd kv) d) new (signals ctx).
Proof.
  unfold set_signals. revert ctx. induction new as [|[k v] r IH]; intros ctx.
  - reflexivity.
  - simpl. now rewrite IH.
Qed.

(** X11.  Signals: a value that is set is what [get_signal] returns, also
    when the environment has a variable for the name; setting one signal
    changes no other; a signal that is not set falls back to the
    environment variable [CHORD_] + upper-cased name, and is [None] without
    one. *)
Theorem signal_lookup_order :
  forall (host : Host) (ctx : ExecutionContext) (name : string) (v : value),
    get_signal host (set_signal ctx name v) name = v
    /\ (forall other, other <> name ->
          get_signal host (set_signal ctx name v) other = get_signal host ctx other)
    /\ (dict_get name (signals ctx) = None ->
        get_signal host ctx name
        = match dict_get ("CHORD_" ++ Str.upper name) (environ host) with
          | Some s => VStr s
          | None => VNone
          end)
    /\ get_signal host (set_signals ctx [(name, VNone); (name, v)]) name = v.
Proof.
  intros host ctx name v. split; [|split; [|split]].
  - unfold get_signal, set_signal. cbn [signals]. now rewrite dict_get_set_same.
  - intros other Hne. unfold get_signal, set_signal. cbn [signals].
    rewrite dict_get_set_other by congruence. reflexivity.
  - intros H. unfold get_signal. now rewrite H.
  - unfold get_signal. rewrite set_signals_signals. cbn [fold_left fst snd].
    now rewrite dict_get_set_same.
Qed.

Lemma signal_lookup_witness :
  get_signal {| environ := [("CHORD_USER_NAME", "ann")]; re_search := fun _ _ => Ok None |}
    {| signals := [("date", VStr "today")]; memory := [];
       context_cache := []; resolved_contexts := [] |} "user_name"
  = VStr "ann".
Proof.
  exact (proj1 (proj2 (proj2 (signal_lookup_order
           {| environ := [("CHORD_USER_NAME", "ann")]; re_search := fun _ _ => Ok None |}
           {| signals := [("date", VStr "today")]; memory := [];
              context_cache := []; resolved_contexts := [] |} "user_name" VNone)))
         eq_refl).
Defined.

(** ** Templates without placeholders *)

Lemma prefix_app_l (a b s : string) :
  String.prefix (a ++ b) s = true -> String.prefix a s = true.
Proof.
  revert s. induction a as [|c a IH]; intros s H; [apply prefix_nil|].
  destruct s as [|x s]; [discriminate H|].
  cbn [String.append] in H. rewrite prefix_cons in *.
  destruct (Ascii.ascii_dec c x); [now apply IH | discriminate].
Qed.

Lemma contains_app_l (a b s : string) :
  Str.contains (a ++ b) s = true -> Str.contains a s = true.
Proof.
  induction s as [|x s IH]; intros H.
  - cbn [Str.contains] in *. rewrite orb_false_r in *. now apply prefix_app_l in H.
  - cbn [Str.contains] in *. apply orb_true_iff in H as [H|H].
    + apply prefix_app_l in H. now rewrite H.
    + rewrite (IH H). apply orb_true_r.
Qed.

Lemma no_braces_no_signals s :
  Str.contains "{{" s = false -> PromptRenderer.signal_matches 0 s = [].
Proof.
  induction s as [|c s IH]; intros H; [reflexivity|].
  cbn [Str.contains] in H. apply orb_false_iff in H as [Hp Hs].
  cbn [PromptRenderer.signal_matches]. unfold PromptRenderer.signal_match_at.
  destruct (String.prefix "{{signal." (String c s)) eqn:E.
  - apply (prefix_app_l "{{" "signal.") in E. congruence.
  - now apply IH.
Qed.

(** X12.  A template without [{{] is returned as it is, whatever the
    variables and the signals are; the regular-expression engine is not
    consulted. *)
Theorem template_without_braces_is_unchanged :
  forall (host : Host) (ctx : ExecutionContext) (template : string) (variables : dict),
    Str.contains "{{" template = false ->
    PromptRenderer.render_template host ctx template variables = Ok template.
Proof.
  intros host ctx template variables H. unfold PromptRenderer.render_template.
  assert (E : PromptRenderer.render_variables host template variables = Ok template).
  { induction variables as [|[k v] r IH]; [reflexivity|].
    cbn [PromptRenderer.render_variables].
    rewrite render_variable_needs_placeholder; [exact IH|].
    destruct (Str.contains ("{{" ++ k ++ "}}") template) eqn:Ec; [|reflexivity].
    apply (contains_app_l "{{" (k ++ "}}")) in Ec. congruence. }
  rewrite E. cbn [rbind]. now rewrite no_braces_no_signals.
Qed.

Lemma template_without_braces_witness :
  PromptRenderer.render_template Sample.host (Runtime.context Sample.runtime)
    "Use {name} and | bulletize freely." [("name", VList [VStr "a"])]
  = Ok "Use {name} and | bulletize freely.".
Proof.
  exact (template_without_braces_is_unchanged Sample.host
           (Runtime.context Sample.runtime)
           "Use {name} and | bulletize freely." [("name", VList [VStr "a"])] eq_refl).
Defined.

(** ** Selector batches with repeated keys or malformed selectors *)

Lemma resolve_loop_last (rt : Runtime.t) :
  forall selectors keys acc cm,
    mapM Runtime.selector_key selectors = Ok keys ->
    exists resolved,
      Runtime.resolve_loop rt selectors acc cm
      = (Ok resolved, state_after rt selectors cm)
      /\ (forall k, ~ In k keys -> dict_get k resolved = dict_get k acc)
      /\ (forall k, In k (map fst resolved) -> In k (map fst acc) \/ In k keys)
      /\ (forall i sel key,
            nth_error selectors i = Some sel ->
            nth_error keys i = Some key ->
            ~ In key (skipn (S i) keys) ->
            dict_get key resolved
            = Some (Runtime.caught
                      (fst (Runtime.execute_selector rt sel
                              (state_after rt (firstn i selectors) cm))))).
Proof.
  induction selectors as [|s rest IH]; intros keys acc cm Hkeys.
  - simpl in Hkeys. injection Hkeys as <-. exists acc. simpl.
    split; [reflexivity|]. split; [reflexivity|]. split; [auto|].
    intros [|i] sel key H; discriminate.
  - simpl in Hkeys.
    destruct (Runtime.selector_key s) as [key|e] eqn:Ek; [|discriminate].
    simpl in Hkeys.
    destruct (mapM Runtime.selector_key rest) as [keys'|e] eqn:Er; [|discriminate].
    simpl in Hkeys. injection Hkeys as <-.
    simpl. rewrite Ek.
    destruct (Runtime.execute_selector rt s cm) as [r cm'] eqn:Ex. simpl.
    destruct (IH keys' (dict_set key (Runtime.caught r) acc) cm' eq_refl)
      as (resolved & Hrun & Hother & Hdom & Hnth).
    exists resolved. split; [exact Hrun|]. split; [|split].
    + intros k Hk. rewrite Hother by (intros Hin; apply Hk; now right).
      apply dict_get_set_other. intros ->. apply Hk. now left.
    + intros k Hk. destruct (Hdom k Hk) as [Hin|Hin]; [|right; now right].
      destruct (string_dec key k) as [->|Hne]; [right; now left|].
      left. clear -Hin Hne. induction acc as [|[k0 v0] a IHa].
      * simpl in Hin. destruct Hin as [->|[]]. congruence.
      * simpl in Hin. destruct (String.eqb key k0) eqn:E; simpl in Hin |- *.
        -- exact Hin.
        -- destruct Hin as [->|Hin]; [now left | right; now apply IHa].
    + intros [|i] sel k Hs Hk Hlast; simpl in Hs, Hk.
      * injection Hs as <-. injection Hk as <-. simpl in Hlast.
        rewrite (Hother key Hlast). simpl. rewrite Ex. apply dict_get_set_same.
      * simpl. rewrite Ex. simpl. now apply Hnth.
Qed.

(** X13.  In a batch where several selectors share a result key, the key
    holds the outcome of the last of them, and the result has no other keys
    than those of the selectors. *)
Theorem selector_batch_last_wins :
  forall (rt : Runtime.t) (selectors : list value) (keys : list string)
         (cm : Runtime.state),
    mapM Runtime.selector_key selectors = Ok keys ->
    exists resolved,
      Runtime.resolve_selectors rt selectors cm
      = (Ok resolved, state_after rt selectors cm)
      /\ (forall k, In k (map fst resolved) -> In k keys)
      /\ (forall i sel key,
            nth_error selectors i = Some sel ->
            nth_error keys i = Some key ->
            ~ In key (skipn (S i) keys) ->
            dict_get key resolved
            = Some (Runtime.caught
                      (fst (Runtime.execute_selector rt sel
                              (state_after rt (firstn i selectors) cm))))).
Proof.
  intros rt selectors keys cm Hkeys.
  destruct (resolve_loop_last rt selectors keys [] cm Hkeys)
    as (resolved & Hrun & _ & Hdom & Hnth).
  exists resolved. split; [exact Hrun|]. split; [|exact Hnth].
  intros k Hk. destruct (Hdom k Hk) as [[]|H]. exact H.
Qed.

Lemma selector_batch_last_wins_witness :
  exists resolved,
    fst (Runtime.resolve_selectors Sample.runtime Sample2.repeated Sample.cm)
    = Ok resolved
    /\ dict_get "data" resolved = Some (VStr "second").
Proof.
  destruct (selector_batch_last_wins Sample.runtime Sample2.repeated
              ["data"; "data"] Sample.cm eq_refl) as (resolved & Hrun & _ & Hnth).
  exists resolved. split; [now rewrite Hrun|].
  refine (Hnth 1 _ "data" eq_refl eq_refl _). simpl. tauto.
Defined.

(** X14.  A selector that is not a mapping, or whose [from] is not a
    string, is outside the [try]: the batch raises [AttributeError] when it
    reaches it and returns no results, although the selectors before it
    were executed. *)
Theorem selector_batch_aborts_on_malformed_selector :
  forall (rt : Runtime.t) (before after : list value) (bad : value)
         (keys : list string) (cm : Runtime.state),
    mapM Runtime.selector_key before = Ok keys ->
    (forall d, bad = VDict d ->
               exists v, dict_get "from" d = Some v /\ forall s, v <> VStr s) ->
    exists msg,
      Runtime.resolve_selectors rt (before ++ bad :: after)%list cm
      = (Raise (Exn AttributeError msg), state_after rt before cm).
Proof.
  intros rt before after bad keys cm Hkeys Hbad.
  assert (Hk : exists msg, Runtime.selector_key bad = Raise (Exn AttributeError msg)).
  { destruct bad as [| b | z | r | s | l | d]; try (eexists; reflexivity).
    destruct (Hbad d eq_refl) as (v & Hv & Hns).
    unfold Runtime.selector_key, dict_get_default. rewrite Hv.
    destruct v; try (eexists; reflexivity). now destruct (Hns s). }
  destruct Hk as [msg Hk]. exists msg.
  unfold Runtime.resolve_selectors. generalize (@nil (string * value)).
  revert keys cm Hkeys.
  induction before as [|s rest IH]; intros keys cm Hkeys acc.
  - simpl. now rewrite Hk.
  - simpl in Hkeys.
    destruct (Runtime.selector_key s) as [key|e] eqn:Ek; [|discriminate].
    simpl in Hkeys.
    destruct (mapM Runtime.selector_key rest) as [keys'|e] eqn:Er; [|discriminate].
    simpl. rewrite Ek.
    destruct (Runtime.execute_selector rt s cm) as [r cm'] eqn:Ex. simpl.
    now apply (IH keys').
Qed.

Lemma selector_batch_aborts_witness :
  exists msg,
    Runtime.resolve_selectors Sample.runtime
      ([VDict [("from", VStr "text")]] ++ VStr "head" :: Sample.selectors)%list Sample.cm
    = (Raise (Exn AttributeError msg), Sample.cm).
Proof.
  destruct (selector_batch_aborts_on_malformed_selector Sample.runtime
              [VDict [("from", VStr "text")]] Sample.selectors (VStr "head")
              ["data"] Sample.cm eq_refl) as [msg H].
  - intros d Hd. discriminate Hd.
  - exists msg. exact H.
Defined.

(** ** Flows that fail *)

(** X15.  A flow whose entry names a task that is not a node fails at
    once with [ValueError] "Task not found", whatever its edges are (also
    malformed ones): nothing else is executed and the state is unchanged.
    An unknown flow id raises "Flow not found". *)
Theorem flow_fails_fast_on_unknown_entry :
  forall (host : Host) (rt : Runtime.t) (fid : string) (cm : Runtime.state),
    (Runtime.find_flow (Runtime.flows rt) fid = None ->
     Runtime.execute_flow host rt fid cm
     = (Raise (Exn ValueError ("Flow not found: " ++ fid)), cm))
    /\ (forall flow ref,
          Runtime.find_flow (Runtime.flows rt) fid = Some flow ->
          flow_entry flow = Some (VStr ref) ->
          Str.startswith ref "@" = true ->
          dict_get (Runtime.root_id ref) (Runtime.nodes rt) = None ->
          Runtime.execute_flow host rt fid cm
          = (Raise (Exn ValueError ("Task not found: " ++ Runtime.root_id ref)), cm)).
Proof.
  intros host rt fid cm. split.
  - intros H. unfold Runtime.execute_flow. now rewrite H.
  - intros flow ref Hf He Hr Hn. unfold Runtime.execute_flow. rewrite Hf.
    unfold Runtime.run_entry. rewrite He, Hr.
    unfold Runtime.execute_task. now rewrite Hn.
Qed.

Lemma flow_fails_fast_witness :
  Runtime.execute_flow Sample.host Sample2.runtime_bad_flow "g" Sample.cm
  = (Raise (Exn ValueError "Task not found: ghost"), Sample.cm).
Proof.
  exact (proj2 (flow_fails_fast_on_unknown_entry Sample.host Sample2.runtime_bad_flow
                  "g" Sample.cm)
               Sample2.bad_flow "@ghost.step" eq_refl eq_refl eq_refl eq_refl).
Defined.

(** ** The lexer: characters that start no token *)

Lemma skip_whitespace_fixed (lx : Lexer.t) (c : ascii) (r : string) :
  Lexer.rest lx = String c r -> Tokenizer.is_blank c = false ->
  Tokenizer.skip_whitespace lx = lx.
Proof.
  intros H Hb. unfold Tokenizer.skip_whitespace. rewrite H.
  cbn [Lexer.advance_while]. rewrite Hb. reflexivity.
Qed.

Lemma tokenize_step_stray (float_repr : string -> string) (lx : Lexer.t)
    (c : ascii) (r : string) :
  Lexer.rest (Tokenizer.skip_whitespace lx) = String c r ->
  starts_no_token c = true ->
  exists tok,
    Tokenizer.tokenize_step float_repr lx
    = Tokenizer.Next (Tokenizer.skip_whitespace lx) [tok].
Proof.
  intros H Hs. unfold starts_no_token in Hs.
  repeat (apply andb_prop in Hs; destruct Hs as [Hs ?]).
  repeat match goal with
         | h : negb _ = true |- _ => apply negb_true_iff in h
         end.
  unfold Tokenizer.tokenize_step. rewrite H.
  repeat match goal with
         | h : _ = false |- _ => rewrite h
         end.
  destruct (Tokenizer.punctuation c); [discriminate|].
  unfold Tokenizer.read_identifier. rewrite H.
  cbn [Tokenizer.take_while Lexer.advance_while].
  match goal with h : Tokenizer.is_ident c = false |- _ => rewrite h end.
  cbn [snd]. eexists. reflexivity.
Qed.

(** X16.  Once the lexer stands, after blanks, at an ASCII character that starts
    no token (a dot, an exclamation mark, a parenthesis, ...), the loop of
    [tokenize] reads an empty identifier without advancing: no number of
    turns makes it return. *)
Theorem tokenize_never_returns_at_stray_character :
  forall (float_repr : string -> string) (lx : Lexer.t) (c : ascii) (r : string)
         (tokens : list Lexer.Token) (fuel : nat),
    Lexer.rest (Tokenizer.skip_whitespace lx) = String c r ->
    starts_no_token c = true ->
    Tokenizer.tokenize_loop float_repr fuel lx tokens = None.
Proof.
  intros fr lx c r tokens fuel H Hs. revert lx tokens H.
  induction fuel as [|f IH]; intros lx tokens H; [reflexivity|].
  cbn [Tokenizer.tokenize_loop].
  destruct (tokenize_step_stray fr lx c r H Hs) as [tok ->].
  apply IH.
  rewrite (skip_whitespace_fixed _ c r H); [exact H|].
  unfold starts_no_token in Hs.
  repeat (apply andb_prop in Hs; destruct Hs as [Hs ?]).
  now apply negb_true_iff.
Qed.

Lemma tokenize_never_returns_witness :
  Tokenizer.tokenize_loop (fun s => s) 1000 (Lexer.init "  .b") [] = None.
Proof.
  apply (tokenize_never_returns_at_stray_character
           (fun s => s) (Lexer.init "  .b") "." "b" [] 1000).
  - vm_compute. reflexivity.
  - vm_compute. reflexivity.
Defined.

(** ** The lexer: string literals *)

Lemma advance_n_rest (a b : string) :
  forall lx, Lexer.rest lx = a ++ b ->
             Lexer.rest (Tokenizer.advance_n (String.length a) lx) = b.
Proof.
  induction a as [|c a IH]; intros lx H; [exact H|].
  cbn [String.length Tokenizer.advance_n]. apply IH.
  unfold Lexer.advance. rewrite H. reflexivity.
Qed.

Lemma str_app_nil_r (a : string) : a ++ EmptyString = a.
Proof. induction a as [|c a IH]; cbn; [reflexivity | now rewrite IH]. Qed.

Lemma is_quote_cases (q : ascii) :
  Tokenizer.is_quote q = true -> q = ascii_of_nat 34 \/ q = ascii_of_nat 39.
Proof.
  unfold Tokenizer.is_quote, Tokenizer.is_char. intros H.
  apply orb_true_iff in H. destruct H as [H|H]; apply Nat.eqb_eq in H;
    [left|right]; rewrite <- H; symmetry; apply ascii_nat_embedding.
Qed.

Lemma is_char_eq (c : ascii) (n : nat) :
  Tokenizer.is_char c n = true -> c = ascii_of_nat n.
Proof.
  unfold Tokenizer.is_char. intros H. apply Nat.eqb_eq in H.
  rewrite <- H. symmetry. apply ascii_nat_embedding.
Qed.

Lemma backslash_not_quote (q : ascii) :
  Tokenizer.is_quote q = true -> Ascii.eqb backslash q = false.
Proof. intros H. destruct (is_quote_cases q H) as [-> | ->]; reflexivity. Qed.

Lemma unescape_quote (q : ascii) :
  Tokenizer.is_quote q = true -> Tokenizer.unescape q q = q.
Proof. intros H. destruct (is_quote_cases q H) as [-> | ->]; reflexivity. Qed.

(** One escape: a backslash and the character after it. *)
Lemma read_string_loop_backslash (q n : ascii) (r acc : string) (lx : Lexer.t) :
  Tokenizer.is_quote q = true ->
  Tokenizer.read_string_loop q (String backslash (String n r)) acc lx
  = Tokenizer.read_string_loop q r (acc ++ Tokenizer.char_str (Tokenizer.unescape q n))
      (Lexer.advance (Lexer.advance lx)).
Proof.
  intros H. cbn [Tokenizer.read_string_loop].
  rewrite (backslash_not_quote q H). reflexivity.
Qed.

(** Reading the text [escape quote v] adds [v] to the value read so far. *)
Lemma read_string_loop_escape (q : ascii) (v : string) :
  Tokenizer.is_quote q = true ->
  forall (tail acc : string) (lx : Lexer.t),
    Tokenizer.read_string_loop q (escape q v ++ tail) acc lx
    = Tokenizer.read_string_loop q tail (acc ++ v)
        (Tokenizer.advance_n (String.length (escape q v)) lx).
Proof.
  intros Hq. induction v as [|c v IH]; intros tail acc lx.
  - cbn. now rewrite str_app_nil_r.
  - cbn [escape].
    assert (Hacc : (acc ++ String c v = (acc ++ Tokenizer.char_str c) ++ v)).
    { unfold Tokenizer.char_str. now rewrite str_app_assoc. }
    rewrite Hacc.
    destruct (Tokenizer.is_char c 10) eqn:E10.
    { apply is_char_eq in E10. subst c.
      cbn [String.append String.length Tokenizer.advance_n].
      rewrite (read_string_loop_backslash _ _ _ _ _ Hq), IH. reflexivity. }
    destruct (Tokenizer.is_char c 9) eqn:E9.
    { apply is_char_eq in E9. subst c.
      cbn [String.append String.length Tokenizer.advance_n].
      rewrite (read_string_loop_backslash _ _ _ _ _ Hq), IH. reflexivity. }
    destruct (Tokenizer.is_char c 92) eqn:E92.
    { apply is_char_eq in E92. subst c.
      cbn [String.append String.length Tokenizer.advance_n].
      rewrite (read_string_loop_backslash _ _ _ _ _ Hq), IH. reflexivity. }
    destruct (Ascii.eqb c q) eqn:Eq.
    { apply Ascii.eqb_eq in Eq. subst c.
      cbn [String.append String.length Tokenizer.advance_n].
      rewrite (read_string_loop_backslash _ _ _ _ _ Hq), IH,
        (unescape_quote q Hq). reflexivity. }
    cbn [String.append String.length Tokenizer.advance_n
         Tokenizer.read_string_loop].
    rewrite Eq, E92, IH. reflexivity.
Qed.

Lemma advance_n_advance (n : nat) :
  forall lx, Tokenizer.advance_n n (Lexer.advance lx)
             = Lexer.advance (Tokenizer.advance_n n lx).
Proof. induction n as [|n IH]; intros lx; cbn; [reflexivity | apply IH]. Qed.

(** X17.  String literals round-trip: for either quote character, the literal
    that writes a text [v] with newline, tab, backslash and the quote
    escaped is read back by [read_string] as exactly [v], and the lexer is
    left just behind the closing quote. *)
Theorem read_string_decodes_escaped_text :
  forall (lx : Lexer.t) (q : ascii) (v tail : string),
    Tokenizer.is_quote q = true ->
    Lexer.rest lx = String q (escape q v ++ String q tail) ->
    exists lx',
      Tokenizer.read_string lx = Ok (v, lx') /\ Lexer.rest lx' = tail.
Proof.
  intros lx q v tail Hq Hrest.
  unfold Tokenizer.read_string. rewrite Hrest.
  assert (H1 : Lexer.rest (Lexer.advance lx) = escape q v ++ String q tail).
  { unfold Lexer.advance. rewrite Hrest. reflexivity. }
  rewrite H1, (read_string_loop_escape q v Hq).
  cbn [Tokenizer.read_string_loop String.append]. rewrite Ascii.eqb_refl.
  cbn [rbind fst snd]. eexists. split; [reflexivity|].
  pose proof (advance_n_rest (escape q v) (String q tail) _ H1) as H2.
  unfold Lexer.advance at 1. rewrite H2. reflexivity.
Qed.

Lemma read_string_decodes_witness :
  exists lx',
    Tokenizer.read_string (Lexer.init "'it\'s' x")
    = Ok ("it's", lx') /\ Lexer.rest lx' = " x".
Proof.
  apply (read_string_decodes_escaped_text (Lexer.init "'it\'s' x") "'" "it's" " x");
    reflexivity.
Defined.

Lemma tokenize_step_string (float_repr : string -> string) (lx : Lexer.t)
    (q : ascii) (r : string) :
  Tokenizer.is_quote q = true ->
  Lexer.rest lx = String q r ->
  Tokenizer.tokenize_step float_repr lx
  = match Tokenizer.read_string lx with
    | Ok (v, lx') =>
        Tokenizer.Next lx'
          [Tokenizer.token Lexer.STRING (VStr v) (Lexer.line lx) (Lexer.column lx)]
    | Raise e => Tokenizer.Fail e
    end.
Proof.
  intros Hq Hrest. unfold Tokenizer.tokenize_step.
  assert (Hb : Tokenizer.is_blank q = false)
    by (destruct (is_quote_cases q Hq) as [-> | ->]; reflexivity).
  rewrite (skip_whitespace_fixed lx q r Hrest Hb), Hrest, Hq.
  destruct (is_quote_cases q Hq) as [-> | ->]; reflexivity.
Qed.





(** X19.  A backslash that ends the source inside a string literal makes the
    lexer fail with a [TypeError] of the interpreter (a string plus [None]),
    not with a syntax error. *)
Theorem backslash_at_end_of_source_is_a_type_error :
  forall (float_repr : string -> string) (fuel : nat) (q : ascii) (v : string),
    Tokenizer.is_quote q = true ->
    exists msg,
      Tokenizer.tokenize float_repr (S fuel)
        (String q (escape q v ++ String backslash EmptyString))
      = Some (Raise (Exn TypeError msg)).
Proof.
  intros fr fuel q v Hq. unfold Tokenizer.tokenize.
  set (lx := Lexer.init (String q (escape q v ++ String backslash EmptyString))).
  cbn [Tokenizer.tokenize_loop].
  rewrite (tokenize_step_string fr lx q _ Hq eq_refl).
  unfold Tokenizer.read_string.
  assert (H0 : Lexer.rest lx = String q (escape q v ++ String backslash EmptyString))
    by reflexivity.
  assert (H1 : Lexer.rest (Lexer.advance lx)
               = escape q v ++ String backslash EmptyString) by reflexivity.
  rewrite H0, H1, (read_string_loop_escape q v Hq).
  cbn [Tokenizer.read_string_loop]. rewrite (backslash_not_quote q Hq).
  cbn [rbind]. eexists. reflexivity.
Qed.

Lemma backslash_at_end_witness :
  exists msg,
    Tokenizer.tokenize (fun s => s) 1 "'abc\" = Some (Raise (Exn TypeError msg)).
Proof.
  apply (backslash_at_end_of_source_is_a_type_error (fun s => s) 0 "'" "abc").
  reflexivity.
Defined.

(** ** The lexer: the shape of the token list *)

Lemma word_token_read (word : string) (line column : nat) :
  is_read_type (Lexer.tok_type (Tokenizer.word_token word line column)) = true.
Proof.
  unfold Tokenizer.word_token.
  destruct (String.eqb word "def"); [reflexivity|].
  destruct (String.eqb word "true" || String.eqb word "false"); [reflexivity|].
  destruct (String.eqb word "null"); reflexivity.
Qed.

Lemma punctuation_read (c : ascii) (ty : Lexer.TokenType) :
  Tokenizer.punctuation c = Some ty -> is_read_type ty = true.
Proof.
  unfold Tokenizer.punctuation.
  repeat match goal with
         | |- context [if ?b then _ else _] => destruct b
         end; intros H; inversion H; reflexivity.
Qed.

(** One turn of the loop adds at most one token, of a type other than
    [EOF], [COMMENT] and [PIPE]. *)
Lemma tokenize_step_emits (float_repr : string -> string) (lx lx' : Lexer.t)
    (emitted : list Lexer.Token) :
  Tokenizer.tokenize_step float_repr lx = Tokenizer.Next lx' emitted ->
  Forall (fun t => is_read_type (Lexer.tok_type t) = true) emitted
  /\ length emitted <= 1.
Proof.
  unfold Tokenizer.tokenize_step.
  destruct (Lexer.rest (Tokenizer.skip_whitespace lx)) as [|c r]; [discriminate|].
  destruct (Tokenizer.is_char c 35).
  { intros H. inversion H. split; [constructor | cbn; lia]. }
  destruct (Ascii.eqb c Lexer.newline).
  { intros H. inversion H. split; [repeat constructor | cbn; lia]. }
  destruct (Tokenizer.is_quote c).
  { destruct (Tokenizer.read_string _) as [[v l']|e]; [|discriminate].
    intros H. inversion H. split; [repeat constructor | cbn; lia]. }
  destruct (Tokenizer.is_char c 124).
  { destruct (Lexer.read_multiline_string _) as [v l'].
    intros H. inversion H. split; [repeat constructor | cbn; lia]. }
  destruct (Tokenizer.is_digit c).
  { destruct (Tokenizer.read_number _ _) as [[v l']|e]; [|discriminate].
    intros H. inversion H. split; [repeat constructor | cbn; lia]. }
  destruct (Tokenizer.is_char c 64).
  { destruct (Tokenizer.read_reference _) as [v l'].
    intros H. inversion H. split; [repeat constructor | cbn; lia]. }
  destruct (Tokenizer.punctuation c) as [ty|] eqn:Ep.
  { intros H. inversion H. split; [|cbn; lia].
    constructor; [|constructor]. cbn. exact (punctuation_read c ty Ep). }
  destruct (Tokenizer.read_identifier _) as [w l'].
  intros H. inversion H. split; [|cbn; lia].
  constructor; [apply word_token_read | constructor].
Qed.

Lemma tokenize_loop_shape (float_repr : string -> string) (fuel : nat) :
  forall (lx : Lexer.t) (acc tokens : list Lexer.Token),
    Tokenizer.tokenize_loop float_repr fuel lx acc = Some (Ok tokens) ->
    exists body line column,
      tokens = (acc ++ body ++ [Tokenizer.token Lexer.EOF VNone line column])%list
      /\ Forall (fun t => is_read_type (Lexer.tok_type t) = true) body
      /\ length body < fuel.
Proof.
  induction fuel as [|f IH]; intros lx acc tokens H; [discriminate|].
  cbn [Tokenizer.tokenize_loop] in H.
  destruct (Tokenizer.tokenize_step float_repr lx) as [lx'|lx' emitted|e] eqn:Es.
  - inversion H. exists [], (Lexer.line lx'), (Lexer.column lx').
    split; [reflexivity|]. split; [constructor | cbn; lia].
  - destruct (tokenize_step_emits _ _ _ _ Es) as [Hem Hlen].
    destruct (IH _ _ _ H) as [body [line [column [Ht [Hb Hl]]]]].
    exists (emitted ++ body)%list, line, column. split; [|split].
    + rewrite Ht. now rewrite <- !app_assoc.
    + apply Forall_app. now split.
    + rewrite length_app. lia.
  - discriminate.
Qed.

(** X20.  Whenever [tokenize] returns a token list, the list is the tokens read,
    none of which is an [EOF], a [COMMENT] or a [PIPE] token, followed by
    exactly one [EOF] token whose value is [None]; and each turn of the loop
    has added at most one token. *)
Theorem tokenize_ends_with_the_only_eof :
  forall (float_repr : string -> string) (fuel : nat) (source : string)
         (tokens : list Lexer.Token),
    Tokenizer.tokenize float_repr fuel source = Some (Ok tokens) ->
    exists body line column,
      tokens = (body ++ [Tokenizer.token Lexer.EOF VNone line column])%list
      /\ Forall (fun t => is_read_type (Lexer.tok_type t) = true) body
      /\ length tokens <= fuel.
Proof.
  intros fr fuel source tokens H.
  destruct (tokenize_loop_shape fr fuel _ _ _ H) as [body [line [column [Ht [Hb Hl]]]]].
  exists body, line, column. cbn [app] in Ht. split; [exact Ht|].
  split; [exact Hb|]. rewrite Ht, length_app. cbn. lia.
Qed.

Lemma tokenize_ends_witness :
  exists body line column,
    [Tokenizer.token Lexer.IDENTIFIER (VStr "a") 1 1;
     Tokenizer.token Lexer.COLON (VStr ":") 1 2;
     Tokenizer.token Lexer.REFERENCE (VStr "b.c") 1 4;
     Tokenizer.token Lexer.EOF VNone 1 12]
    = (body ++ [Tokenizer.token Lexer.EOF VNone line column])%list
    /\ Forall (fun t => is_read_type (Lexer.tok_type t) = true) body
    /\ 4 <= 10.
Proof.
  apply (tokenize_ends_with_the_only_eof (fun s => s) 10 "a: @b.c # x").
  reflexivity.
Defined.

(** ** The lexer: dynamic references *)

Lemma brace_loop_nests (body : string) :
  forall (depth : nat) (tail reference : string) (lx : Lexer.t),
    nests depth body = true ->
    Tokenizer.brace_loop (S depth) (body ++ String (ascii_of_nat 125) tail) reference lx
    = (reference ++ body, Tokenizer.advance_n (String.length body) lx).
Proof.
  induction body as [|c body IH]; intros depth tail reference lx H.
  - cbn [nests] in H. apply Nat.eqb_eq in H. subst depth.
    cbn. now rewrite str_app_nil_r.
  - cbn [nests] in H. cbn [String.append Tokenizer.brace_loop String.length
                           Tokenizer.advance_n].
    assert (Hacc : reference ++ String c body
                   = (reference ++ Tokenizer.char_str c) ++ body).
    { unfold Tokenizer.char_str. now rewrite str_app_assoc. }
    rewrite Hacc.
    destruct (Tokenizer.is_char c 123).
    + apply IH. exact H.
    + destruct (Tokenizer.is_char c 125).
      * destruct depth as [|d]; [discriminate|]. apply IH. exact H.
      * apply IH. exact H.
Qed.

(** X21.  A dynamic reference whose braces are balanced is read whole: from
    [@{body}] the lexer returns the text [{body}], inner braces included,
    and stands just behind the closing brace. *)
Theorem read_reference_takes_balanced_braces :
  forall (lx : Lexer.t) (body tail : string),
    nests 0 body = true ->
    Lexer.rest lx = "@{" ++ body ++ "}" ++ tail ->
    exists lx',
      Tokenizer.read_reference lx = ("{" ++ body ++ "}", lx')
      /\ Lexer.rest lx' = tail.
Proof.
  intros lx body tail Hn Hrest. unfold Tokenizer.read_reference.
  assert (H1 : Lexer.rest (Lexer.advance lx) = "{" ++ body ++ "}" ++ tail).
  { unfold Lexer.advance. rewrite Hrest. reflexivity. }
  assert (H2 : Lexer.rest (Lexer.advance (Lexer.advance lx))
               = body ++ String (ascii_of_nat 125) tail).
  { unfold Lexer.advance at 1. rewrite H1. reflexivity. }
  rewrite H1. cbn [String.append].
  change (Tokenizer.is_char "{"%char 123) with true. cbn iota.
  rewrite H2, (brace_loop_nests body 0 tail _ _ Hn).
  cbn [String.append]. eexists. split; [reflexivity|].
  pose proof (advance_n_rest body _ _ H2) as H3.
  unfold Lexer.advance at 1. rewrite H3. reflexivity.
Qed.

Lemma read_reference_witness :
  exists lx',
    Tokenizer.read_reference (Lexer.init "@{a{b}c} d") = ("{a{b}c}", lx')
    /\ Lexer.rest lx' = " d".
Proof.
  apply (read_reference_takes_balanced_braces (Lexer.init "@{a{b}c} d") "a{b}c" " d");
    reflexivity.
Defined.

(** ** The parser: values *)

Lemma value_ind_nested (P : value -> Prop) :
  P VNone -> (forall b, P (VBool b)) -> (forall z, P (VInt z)) ->
  (forall r, P (VFloat r)) -> (forall s, P (VStr s)) ->
  (forall l, Forall P l -> P (VList l)) ->
  (forall d, Forall (fun kx => P (snd kx)) d -> P (VDict d)) ->
  forall v, P v.
Proof.
  intros HN HB HI HF HS HL HD. fix IH 1.
  intros [| b | z | r | s | l | d];
    [exact HN | apply HB | apply HI | apply HF | apply HS | | ].
  - apply HL. induction l as [|x l IHl]; constructor; [apply IH | exact IHl].
  - apply HD. induction d as [|[k x] d IHd]; constructor; [apply IH | exact IHd].
Qed.

Lemma value_tokens_head (v : value) :
  exists t0 r0, value_tokens v = t0 :: r0 /\ starts_value t0.
Proof.
  destruct v; cbn [value_tokens]; eexists; eexists;
    (split; [reflexivity | repeat split]).
Qed.

Lemma skip_newlines_none (st : Parser.t) (t0 : Lexer.Token) (r : list Lexer.Token) :
  Parser.is_type Lexer.NEWLINE t0 = false ->
  Parser.skip_newlines (Parser.with_toks st (t0 :: r))
  = Parser.Parsed (Parser.with_toks st (t0 :: r)).
Proof.
  intros H. unfold Parser.skip_newlines. cbn. rewrite H. reflexivity.
Qed.

Lemma skip_newlines_value (st : Parser.t) (v : value) (rest : list Lexer.Token) :
  Parser.skip_newlines (Parser.with_toks st (value_tokens v ++ rest))
  = Parser.Parsed (Parser.with_toks st (value_tokens v ++ rest)).
Proof.
  destruct (value_tokens_head v) as [t0 [r0 [-> [H _]]]].
  cbn [app]. now apply skip_newlines_none.
Qed.

Lemma reads_back_scalar (st : Parser.t) (v : value) :
  match v with VList _ | VDict _ => False | _ => True end -> reads_back st v.
Proof.
  intros Hv _ fuel rest Hf.
  destruct fuel as [|f]; [destruct v; cbn in Hf; lia|].
  destruct v; try contradiction; reflexivity.
Qed.

Lemma advance_token (st : Parser.t) (t : Lexer.Token) (ts : list Lexer.Token) :
  Parser.is_type Lexer.EOF t = false ->
  Parser.advance (Parser.with_toks st (t :: ts)) = (t, Parser.with_toks st ts).
Proof. intros H. unfold Parser.advance. cbn. rewrite H. reflexivity. Qed.

Lemma skip_newlines_separated (st : Parser.t) (close : Lexer.Token)
    (p : list Lexer.Token) (v : value) (parts : list (list Lexer.Token))
    (rest : list Lexer.Token) (t0 : Lexer.Token) (r0 : list Lexer.Token) :
  p = t0 :: r0 -> Parser.is_type Lexer.NEWLINE t0 = false ->
  Parser.skip_newlines (Parser.with_toks st (separated close (p :: parts) ++ rest))
  = Parser.Parsed (Parser.with_toks st (separated close (p :: parts) ++ rest)).
Proof.
  intros -> H. cbn [separated app]. now apply skip_newlines_none.
Qed.

Lemma array_items_reads_back (st : Parser.t) (l : list value) :
  Forall (reads_back st) l ->
  forallb keys_distinct l = true ->
  forall (items : list value) (fuel : nat) (rest : list Lexer.Token),
    S (list_sum (map (fun x => S (value_size x)) l)) <= fuel ->
    Parser.array_items fuel
      (Parser.with_toks st
         (separated (tok Lexer.RBRACKET (VStr "]")) (map value_tokens l) ++ rest))
      items
    = Parser.Parsed
        ((items ++ l)%list,
         Parser.with_toks st (tok Lexer.RBRACKET (VStr "]") :: rest)).
Proof.
  induction 1 as [|x r Hx Hr IH]; intros Hk items fuel rest Hf.
  - destruct fuel as [|f]; [cbn in Hf; lia|].
    rewrite app_nil_r. reflexivity.
  - cbn [forallb] in Hk. apply andb_true_iff in Hk as [Hkx Hkr].
    cbn [map] in Hf. unfold list_sum in Hf. cbn [fold_right] in Hf.
    fold (list_sum (map (fun x => S (value_size x)) r)) in Hf.
    destruct fuel as [|f]; [lia|].
    assert (Hfx : value_size x <= f) by lia.
    destruct (value_tokens_head x) as [t0 [r0 [E0 [_ [Hb _]]]]].
    destruct r as [|y r'].
    + cbn [map separated]. rewrite <- app_assoc.
      cbn [Parser.array_items].
      replace (Parser.is_type Lexer.RBRACKET
                 (Parser.current_token
                    (Parser.with_toks st (value_tokens x ++ _)))) with false
        by (rewrite E0; cbn; now rewrite Hb).
      rewrite (Hx Hkx f _ Hfx). cbn [Parser.bind fst snd app].
      rewrite (skip_newlines_none st (tok Lexer.RBRACKET (VStr "]")) rest eq_refl).
      cbn [Parser.bind].
      destruct f as [|f']; [lia|]. reflexivity.
    + assert (Et : (separated (tok Lexer.RBRACKET (VStr "]"))
                      (map value_tokens (x :: y :: r')) ++ rest
                    = value_tokens x
                      ++ comma :: (separated (tok Lexer.RBRACKET (VStr "]"))
                                     (map value_tokens (y :: r')) ++ rest))%list).
      { cbn [map separated]. rewrite <- app_assoc. reflexivity. }
      rewrite Et. cbn [Parser.array_items].
      replace (Parser.is_type Lexer.RBRACKET
                 (Parser.current_token
                    (Parser.with_toks st (value_tokens x ++ _)))) with false
        by (rewrite E0; cbn; now rewrite Hb).
      rewrite (Hx Hkx f _ Hfx). cbn [Parser.bind fst snd].
      rewrite (skip_newlines_none st comma _ eq_refl). cbn [Parser.bind].
      change (Parser.is_type Lexer.COMMA
                (Parser.current_token (Parser.with_toks st (comma :: _))))
        with true.
      cbv iota. rewrite (advance_token st comma _ eq_refl). cbn [snd].
      destruct (value_tokens_head y) as [t1 [r1 [E1 [Hn1 _]]]].
      cbn [map]. rewrite (skip_newlines_separated st _ _ y _ rest t1 r1 E1 Hn1).
      cbn [Parser.bind].
      change (value_tokens y :: map value_tokens r')
        with (map value_tokens (y :: r')).
      rewrite (IH Hkr (items ++ [x])%list f rest ltac:(lia)).
      now rewrite <- app_assoc.
Qed.

Lemma dict_set_fresh {A} (k : string) (v : A) (d : list (string * A)) :
  existsb (String.eqb k) (map fst d) = false ->
  dict_set k v d = (d ++ [(k, v)])%list.
Proof.
  induction d as [|[k' v'] r IH]; intros H; [reflexivity|].
  cbn in H |- *. apply orb_false_iff in H as [H1 H2].
  rewrite H1, (IH H2). reflexivity.
Qed.

Lemma distinct_app_cons (a b : list string) (k : string) :
  distinct (a ++ k :: b) = true ->
  existsb (String.eqb k) a = false /\ distinct ((a ++ [k]) ++ b) = true.
Proof.
  intros H. split; [|now rewrite <- app_assoc].
  induction a as [|x a IH]; [reflexivity|].
  cbn in H |- *. apply andb_true_iff in H as [H1 H2].
  rewrite (IH H2), orb_false_r.
  apply negb_true_iff in H1. rewrite existsb_app in H1.
  apply orb_false_iff in H1 as [_ H1]. cbn in H1.
  apply orb_false_iff in H1 as [H1 _].
  rewrite String.eqb_sym. exact H1.
Qed.

Lemma object_items_reads_back (st : Parser.t) (d : dict) :
  Forall (fun kx => reads_back st (snd kx)) d ->
  forallb (fun kx => keys_distinct (snd kx)) d = true ->
  forall (obj : dict) (fuel : nat) (rest : list Lexer.Token),
    distinct (map fst obj ++ map fst d) = true ->
    S (list_sum (map (fun kx => S (value_size (snd kx))) d)) <= fuel ->
    Parser.object_items fuel
      (Parser.with_toks st
         (separated (tok Lexer.RBRACE (VStr "}"))
            (map (fun kx => tok Lexer.IDENTIFIER (VStr (fst kx))
                            :: tok Lexer.COLON (VStr ":")
                            :: value_tokens (snd kx)) d) ++ rest))
      obj
    = Parser.Parsed
        ((obj ++ d)%list,
         Parser.with_toks st (tok Lexer.RBRACE (VStr "}") :: rest)).
Proof.
  induction 1 as [|[k x] r Hx Hr IH]; intros Hk obj fuel rest Hd Hf.
  - destruct fuel as [|f]; [cbn in Hf; lia|].
    rewrite app_nil_r. reflexivity.
  - cbn [forallb snd] in Hk. apply andb_true_iff in Hk as [Hkx Hkr].
    cbn [map snd] in Hf. unfold list_sum in Hf. cbn [fold_right] in Hf.
    fold (list_sum (map (fun kx : string * value => S (value_size (snd kx))) r)) in Hf.
    destruct fuel as [|f]; [lia|].
    assert (Hfx : value_size x <= f) by lia.
    cbn [map fst] in Hd. apply distinct_app_cons in Hd as [Hfresh Hd].
    cbn [snd] in Hx.
    assert (Hset : dict_set k x obj = (obj ++ [(k, x)])%list)
      by (now apply dict_set_fresh).
    destruct r as [|[k' y] r'].
    + cbn [map separated fst snd app]. rewrite <- app_assoc.
      cbn [Parser.object_items].
      change (Parser.is_type Lexer.RBRACE
                (Parser.current_token
                   (Parser.with_toks st (tok Lexer.IDENTIFIER (VStr k) :: _))))
        with false.
      change (Parser.is_type Lexer.IDENTIFIER
                (Parser.current_token
                   (Parser.with_toks st (tok Lexer.IDENTIFIER (VStr k) :: _))))
        with true.
      cbv iota. cbn [negb]. cbv iota.
      rewrite (advance_token st (tok Lexer.IDENTIFIER (VStr k)) _ eq_refl).
      unfold Parser.expect.
      change (Parser.is_type Lexer.COLON
                (Parser.current_token
                   (Parser.with_toks st (tok Lexer.COLON (VStr ":") :: _))))
        with true.
      cbv iota. rewrite (advance_token st (tok Lexer.COLON (VStr ":")) _ eq_refl).
      cbn [Parser.bind snd].
      rewrite (Hx Hkx f _ Hfx). cbn [Parser.bind fst snd app].
      rewrite (skip_newlines_none st (tok Lexer.RBRACE (VStr "}")) rest eq_refl).
      cbn [Parser.bind].
      change (Parser.word (tok Lexer.IDENTIFIER (VStr k))) with k.
      rewrite Hset.
      destruct f as [|f']; [lia|]. reflexivity.
    + assert (Et : (separated (tok Lexer.RBRACE (VStr "}"))
                      (map (fun kx => tok Lexer.IDENTIFIER (VStr (fst kx))
                                      :: tok Lexer.COLON (VStr ":")
                                      :: value_tokens (snd kx))
                           ((k, x) :: (k', y) :: r')) ++ rest
                    = tok Lexer.IDENTIFIER (VStr k) :: tok Lexer.COLON (VStr ":")
                      :: value_tokens x
                      ++ comma
                         :: (separated (tok Lexer.RBRACE (VStr "}"))
                               (map (fun kx => tok Lexer.IDENTIFIER (VStr (fst kx))
                                               :: tok Lexer.COLON (VStr ":")
                                               :: value_tokens (snd kx))
                                    ((k', y) :: r')) ++ rest))%list).
      { cbn [map separated fst snd app]. rewrite <- app_assoc. reflexivity. }
      rewrite Et. cbn [Parser.object_items].
      change (Parser.is_type Lexer.RBRACE
                (Parser.current_token
                   (Parser.with_toks st (tok Lexer.IDENTIFIER (VStr k) :: _))))
        with false.
      change (Parser.is_type Lexer.IDENTIFIER
                (Parser.current_token
                   (Parser.with_toks st (tok Lexer.IDENTIFIER (VStr k) :: _))))
        with true.
      cbv iota. cbn [negb]. cbv iota.
      rewrite (advance_token st (tok Lexer.IDENTIFIER (VStr k)) _ eq_refl).
      unfold Parser.expect.
      change (Parser.is_type Lexer.COLON
                (Parser.current_token
                   (Parser.with_toks st (tok Lexer.COLON (VStr ":") :: _))))
        with true.
      cbv iota. rewrite (advance_token st (tok Lexer.COLON (VStr ":")) _ eq_refl).
      cbn [Parser.bind snd].
      rewrite (Hx Hkx f _ Hfx). cbn [Parser.bind fst snd].
      rewrite (skip_newlines_none st comma _ eq_refl). cbn [Parser.bind].
      change (Parser.is_type Lexer.COMMA
                (Parser.current_token (Parser.with_toks st (comma :: _))))
        with true.
      cbv iota. rewrite (advance_token st comma _ eq_refl). cbn [snd].
      cbn [map fst snd].
      rewrite (skip_newlines_separated st _ _ y _ rest
                 (tok Lexer.IDENTIFIER (VStr k')) _ eq_refl eq_refl).
      cbn [Parser.bind].
      change (Parser.word (tok Lexer.IDENTIFIER (VStr k))) with k.
      rewrite Hset.
      change ((tok Lexer.IDENTIFIER (VStr k') :: tok Lexer.COLON (VStr ":")
               :: value_tokens y)
              :: map (fun kx => tok Lexer.IDENTIFIER (VStr (fst kx))
                                :: tok Lexer.COLON (VStr ":")
                                :: value_tokens (snd kx)) r')
        with (map (fun kx => tok Lexer.IDENTIFIER (VStr (fst kx))
                             :: tok Lexer.COLON (VStr ":")
                             :: value_tokens (snd kx)) ((k', y) :: r')).
      rewrite (IH Hkr (obj ++ [(k, x)])%list f rest).
      * now rewrite <- app_assoc.
      * rewrite map_app. exact Hd.
      * lia.
Qed.

Lemma skip_newlines_items (st : Parser.t) (close : Lexer.Token)
    (parts : list (list Lexer.Token)) (rest : list Lexer.Token) :
  Parser.is_type Lexer.NEWLINE close = false ->
  Forall (fun p => exists t0 r0, p = t0 :: r0
                                 /\ Parser.is_type Lexer.NEWLINE t0 = false) parts ->
  Parser.skip_newlines (Parser.with_toks st (separated close parts ++ rest))
  = Parser.Parsed (Parser.with_toks st (separated close parts ++ rest)).
Proof.
  intros Hc Hp. destruct Hp as [|p parts [t0 [r0 [-> H0]]] _].
  - cbn [separated app]. now apply skip_newlines_none.
  - cbn [separated app]. now apply skip_newlines_none.
Qed.

Lemma value_reads_back (st : Parser.t) (v : value) : reads_back st v.
Proof.
  induction v as [| b | z | r | s | l IH | d IH] using value_ind_nested;
    try (now apply reads_back_scalar).
  - intros Hk fuel rest Hf. cbn [keys_distinct] in Hk. cbn [value_size] in Hf.
    destruct fuel as [|f]; [lia|].
    cbn [value_tokens app].
    assert (E : Parser.parse_value (S f)
                  (Parser.with_toks st
                     (tok Lexer.LBRACKET (VStr "[")
                      :: separated (tok Lexer.RBRACKET (VStr "]")) (map value_tokens l)
                         ++ rest))
                = Parser.bind
                    (Parser.skip_newlines
                       (Parser.with_toks st
                          (separated (tok Lexer.RBRACKET (VStr "]"))
                             (map value_tokens l) ++ rest)))
                    (fun st' =>
                       Parser.bind (Parser.array_items f st' [])
                         (fun r => Parser.bind (Parser.expect (snd r) Lexer.RBRACKET)
                                     (fun r' => Parser.Parsed (VList (fst r), snd r')))))
      by reflexivity.
    rewrite E. rewrite skip_newlines_items; [|reflexivity|].
    + cbn [Parser.bind].
      rewrite (array_items_reads_back st l IH Hk [] f rest ltac:(lia)).
      reflexivity.
    + apply Forall_forall. intros p Hp. apply in_map_iff in Hp as [x [<- _]].
      destruct (value_tokens_head x) as [t0 [r0 [E0 [Hn _]]]]. now exists t0, r0.
  - intros Hk fuel rest Hf. cbn [keys_distinct] in Hk. cbn [value_size] in Hf.
    apply andb_true_iff in Hk as [Hd Hk].
    destruct fuel as [|f]; [lia|].
    cbn [value_tokens app].
    assert (E : forall ts,
               Parser.parse_value (S f)
                 (Parser.with_toks st (tok Lexer.LBRACE (VStr "{") :: ts))
               = Parser.bind (Parser.skip_newlines (Parser.with_toks st ts))
                   (fun st' =>
                      Parser.bind (Parser.object_items f st' [])
                        (fun r => Parser.bind (Parser.expect (snd r) Lexer.RBRACE)
                                    (fun r' => Parser.Parsed (VDict (fst r), snd r')))))
      by reflexivity.
    rewrite E. rewrite skip_newlines_items; [|reflexivity|].
    + cbn [Parser.bind].
      rewrite (object_items_reads_back st d IH Hk [] f rest Hd ltac:(lia)).
      reflexivity.
    + apply Forall_forall. intros p Hp. apply in_map_iff in Hp as [x [<- _]].
      eexists. eexists. split; reflexivity.
Qed.




(** ** The parser: definitions *)

Lemma TokenType_eqb_eq (a b : Lexer.TokenType) :
  Tokenizer.TokenType_eqb a b = true -> a = b.
Proof. destruct a, b; intros H; try reflexivity; discriminate H. Qed.

Lemma is_type_eof (t : Lexer.Token) :
  Parser.is_type Lexer.EOF t = true ->
  Parser.is_type Lexer.NEWLINE t = false /\ Parser.is_type Lexer.DEF t = false.
Proof.
  unfold Parser.is_type. intros H. apply TokenType_eqb_eq in H.
  rewrite H. split; reflexivity.
Qed.

Lemma skip_newlines_from_suffix (eof : Lexer.Token) (body : list Lexer.Token) :
  Parser.is_type Lexer.NEWLINE eof = false ->
  exists body',
    Parser.skip_newlines_from (body ++ [eof]) eof = Some (body' ++ [eof])%list
    /\ length body' <= length body
    /\ (forall P : Lexer.Token -> Prop, Forall P body -> Forall P body').
Proof.
  intros Hl. induction body as [|t r IH].
  - exists []. cbn. rewrite Hl. auto.
  - cbn [Parser.skip_newlines_from app].
    destruct (Parser.is_type Lexer.NEWLINE t).
    + destruct IH as [b' [E [Hlen HP]]]. exists b'. split; [exact E|].
      split; [cbn; lia|]. intros P HF. inversion HF. now apply HP.
    + exists (t :: r). auto.
Qed.

(** Without a [def] token the loop of [parse] adds no node. *)
Lemma parse_loop_no_def (eof : Lexer.Token) (nds : list (string * Node)) (fuel : nat) :
  Parser.is_type Lexer.EOF eof = true ->
  forall body : list Lexer.Token,
    Forall (fun t => Parser.is_type Lexer.DEF t = false) body ->
    length body < fuel ->
    exists st',
      Parser.parse_loop fuel
        {| Parser.toks := (body ++ [eof])%list; Parser.last := eof;
           Parser.nodes := nds |}
      = Parser.Parsed st'
      /\ Parser.nodes st' = nds.
Proof.
  intros Hl. destruct (is_type_eof _ Hl) as [Hn Hdl].
  induction fuel as [|f IH]; intros body Hd Hf; [lia|].
  cbn [Parser.parse_loop].
  destruct (Parser.is_type Lexer.EOF (Parser.current_token _));
    [eexists; split; reflexivity|].
  unfold Parser.skip_newlines. cbn [Parser.toks Parser.last Parser.nodes].
  destruct (skip_newlines_from_suffix eof body Hn) as [b' [-> [Hlen HP]]].
  cbn [Parser.bind]. pose proof (HP _ Hd) as Hd'.
  destruct b' as [|t r].
  - unfold Parser.current_token. cbn [Parser.toks Parser.last app].
    rewrite Hdl, Hl. eexists. split; reflexivity.
  - unfold Parser.current_token at 1 2. cbn [Parser.toks app].
    inversion Hd' as [|? ? Ht Hr]. subst. rewrite Ht.
    destruct (Parser.is_type Lexer.EOF t) eqn:Et.
    + eexists. split; reflexivity.
    + unfold Parser.advance, Parser.current_token.
      cbn [Parser.toks Parser.last Parser.nodes]. rewrite Et. cbn [snd tl].
      apply IH; [exact Hr|]. cbn [length] in Hlen. lia.
Qed.

Lemma init_ends_with (body : list Lexer.Token) (eof : Lexer.Token) :
  Parser.init (body ++ [eof])
  = Parser.Parsed {| Parser.toks := (body ++ [eof])%list;
                     Parser.last := eof; Parser.nodes := [] |}.
Proof.
  unfold Parser.init. destruct body as [|t b]; [reflexivity|].
  cbn [app]. now rewrite last_last.
Qed.

Lemma parse_no_def (fuel : nat) (body : list Lexer.Token) (eof : Lexer.Token) :
  Parser.is_type Lexer.EOF eof = true ->
  Forall (fun t => Parser.is_type Lexer.DEF t = false) body ->
  length body < fuel ->
  Parser.parse fuel (body ++ [eof])
  = Parser.Parsed {| graph_nodes := []; graph_metadata := []; graph_imports := [] |}.
Proof.
  intros He Hb Hf. unfold Parser.parse.
  pose proof (init_ends_with body eof) as Hi.
  rewrite Hi. cbn [Parser.bind].
  destruct (parse_loop_no_def eof [] fuel He body Hb Hf) as [st' [-> Hn]].
  cbn [Parser.bind]. now rewrite Hn.
Qed.

(** X23.  The parser silently skips whatever stands outside a definition: a token
    list that ends with the end token and holds no [def] token parses to the
    empty graph, whatever its other tokens are, and no error is raised. *)
Theorem parse_ignores_tokens_outside_definitions :
  forall (fuel : nat) (body : list Lexer.Token) (eof : Lexer.Token),
    Parser.is_type Lexer.EOF eof = true ->
    Forall (fun t => Parser.is_type Lexer.DEF t = false) body ->
    length body < fuel ->
    Parser.parse fuel (body ++ [eof])
    = Parser.Parsed {| graph_nodes := []; graph_metadata := []; graph_imports := [] |}.
Proof.
  intros fuel body eof He Hb Hf. now apply parse_no_def.
Qed.

Lemma parse_ignores_tokens_witness :
  Parser.parse 4
    ([tok Lexer.RBRACE (VStr "}"); tok Lexer.IDENTIFIER (VStr "role");
      tok Lexer.NUMBER (VInt 3)] ++ [tok Lexer.EOF VNone])
  = Parser.Parsed {| graph_nodes := []; graph_metadata := []; graph_imports := [] |}.
Proof.
  apply (parse_ignores_tokens_outside_definitions 4
           [tok Lexer.RBRACE (VStr "}"); tok Lexer.IDENTIFIER (VStr "role");
            tok Lexer.NUMBER (VInt 3)] (tok Lexer.EOF VNone)).
  - reflexivity.
  - repeat constructor.
  - cbn. lia.
Defined.

(** X24.  A source in which the lexer finds no [def] keyword compiles, through
    lexer, parser and compiler, to the empty program: no nodes, views, flows
    or tests, and no error for the stray text. *)
Theorem compile_chord_without_def_is_empty :
  forall (float_repr : string -> string) (fuel : nat) (source : string)
         (tokens : list Lexer.Token),
    Tokenizer.tokenize float_repr fuel source = Some (Ok tokens) ->
    Forall (fun t => Parser.is_type Lexer.DEF t = false) tokens ->
    compile_chord float_repr fuel source
    = Compiled {| ir_version := "1.0.0"; ir_metadata := [];
                  ir_nodes := []; ir_views := []; ir_flows := []; ir_tests := [] |}.
Proof.
  intros fr fuel source tokens Ht Hd. unfold compile_chord. rewrite Ht.
  destruct (tokenize_loop_shape fr fuel _ _ _ Ht)
    as [body [line [column [E [_ Hlen]]]]].
  cbn [app] in E. subst tokens.
  apply Forall_app in Hd as [Hb _].
  rewrite (parse_no_def fuel body (Tokenizer.token Lexer.EOF VNone line column)
             eq_refl Hb Hlen). reflexivity.
Qed.

Lemma compile_chord_without_def_witness :
  compile_chord (fun s => s) 10 "role r { a: 1 }"
  = Compiled {| ir_version := "1.0.0"; ir_metadata := [];
                ir_nodes := []; ir_views := []; ir_flows := []; ir_tests := [] |}.
Proof.
  apply (compile_chord_without_def_is_empty (fun s => s) 10 "role r { a: 1 }"
           [Tokenizer.token Lexer.IDENTIFIER (VStr "role") 1 1;
            Tokenizer.token Lexer.IDENTIFIER (VStr "r") 1 6;
            Tokenizer.token Lexer.LBRACE (VStr "{") 1 8;
            Tokenizer.token Lexer.IDENTIFIER (VStr "a") 1 10;
            Tokenizer.token Lexer.COLON (VStr ":") 1 11;
            Tokenizer.token Lexer.NUMBER (VInt 1) 1 13;
            Tokenizer.token Lexer.RBRACE (VStr "}") 1 15;
            Tokenizer.token Lexer.EOF VNone 1 16]).
  - reflexivity.
  - repeat constructor.
Defined.

(** X25.  A definition whose type word is not one of the thirteen node types ends
    the whole parse with a [SyntaxError] that quotes the word and gives its
    line, in whatever state the parser is: nodes parsed before are not
    returned. *)
Theorem unknown_node_type_is_a_syntax_error :
  forall (fuel : nat) (st : Parser.t) (d t : Lexer.Token) (rest : list Lexer.Token),
    Parser.toks st = d :: t :: rest ->
    Parser.is_type Lexer.DEF d = true ->
    Parser.is_type Lexer.IDENTIFIER t = true ->
    Parser.NodeType_of (Parser.word t) = None ->
    Parser.parse_definition fuel st
    = Parser.Failed
        (Parser.SyntaxError
           ("Unknown node type '" ++ Parser.word t ++ "' at line "
            ++ Parser.line_text t))
    /\ Parser.parse_loop (S fuel) st
       = Parser.Failed
           (Parser.SyntaxError
              ("Unknown node type '" ++ Parser.word t ++ "' at line "
               ++ Parser.line_text t)).
Proof.
  intros fuel st d t rest Ht Hd Hi Hn.
  assert (Hde : Parser.is_type Lexer.EOF d = false
                /\ Parser.is_type Lexer.NEWLINE d = false).
  { unfold Parser.is_type in *. apply TokenType_eqb_eq in Hd. rewrite Hd.
    split; reflexivity. }
  assert (Hie : Parser.is_type Lexer.EOF t = false).
  { unfold Parser.is_type in *. apply TokenType_eqb_eq in Hi. now rewrite Hi. }
  destruct Hde as [Hde Hdn].
  assert (Hdef : forall k,
             Parser.parse_definition k st
             = Parser.Failed
                 (Parser.SyntaxError
                    ("Unknown node type '" ++ Parser.word t ++ "' at line "
                     ++ Parser.line_text t))).
  { intros k. unfold Parser.parse_definition, Parser.expect, Parser.advance,
      Parser.current_token.
    rewrite Ht, Hd, Hde. cbn [Parser.bind snd fst tl Parser.toks].
    rewrite Hi, Hie. cbn [Parser.bind fst]. rewrite Hn. reflexivity. }
  split; [apply Hdef|].
  cbn [Parser.parse_loop]. unfold Parser.current_token at 1. rewrite Ht, Hde.
  unfold Parser.skip_newlines. rewrite Ht. cbn [Parser.skip_newlines_from].
  rewrite Hdn. cbn [Parser.bind].
  unfold Parser.current_token at 1. cbn [Parser.toks]. rewrite Hd.
  assert (Es : {| Parser.toks := d :: t :: rest; Parser.last := Parser.last st;
                  Parser.nodes := Parser.nodes st |} = st).
  { destruct st. cbn in Ht |- *. now rewrite Ht. }
  rewrite Es, Hdef. reflexivity.
Qed.

Lemma unknown_node_type_witness :
  Parser.parse_definition 5
    (Parser.Build_t
       [tok Lexer.DEF (VStr "def"); tok Lexer.IDENTIFIER (VStr "rolex");
        tok Lexer.IDENTIFIER (VStr "r"); tok Lexer.EOF VNone]
       (tok Lexer.EOF VNone) [])
  = Parser.Failed (Parser.SyntaxError "Unknown node type 'rolex' at line 1").
Proof.
  exact (proj1 (unknown_node_type_is_a_syntax_error 5
                  (Parser.Build_t
                     [tok Lexer.DEF (VStr "def"); tok Lexer.IDENTIFIER (VStr "rolex");
                      tok Lexer.IDENTIFIER (VStr "r"); tok Lexer.EOF VNone]
                     (tok Lexer.EOF VNone) [])
                  (tok Lexer.DEF (VStr "def")) (tok Lexer.IDENTIFIER (VStr "rolex"))
                  [tok Lexer.IDENTIFIER (VStr "r"); tok Lexer.EOF VNone]
                  eq_refl eq_refl eq_refl eq_refl)).
Defined.

(** ** The parser: property blocks and definitions *)













(** X28.  In the property block of a definition a comma after a property's value
    is a syntax error, whatever the value is and whatever follows: the
    block must close there, so the parse fails with
    [Expected TokenType.RBRACE, got TokenType.COMMA] and the comma's line
    (inside a nested mapping or an array, commas separate the items). *)
Theorem comma_between_properties_is_a_syntax_error :
  forall (st : Parser.t) (k : string) (v : value) (c : Lexer.Token)
         (rest : list Lexer.Token) (fuel : nat),
    keys_distinct v = true ->
    value_size v <= fuel -> 2 <= fuel ->
    Parser.is_type Lexer.COMMA c = true ->
    Parser.parse_properties fuel
      (Parser.with_toks st
         (tok Lexer.LBRACE (VStr "{") :: tok Lexer.IDENTIFIER (VStr k)
          :: tok Lexer.COLON (VStr ":") :: value_tokens v ++ c :: rest))
    = Parser.Failed
        (Parser.SyntaxError
           ("Expected TokenType.RBRACE, got TokenType.COMMA at line "
            ++ Parser.line_text c)).
Proof.
  intros st k v c rest fuel Hk Hf H2 Hc.
  assert (Hty : Lexer.tok_type c = Lexer.COMMA)
    by (apply TokenType_eqb_eq; exact Hc).
  assert (Hcn : Parser.is_type Lexer.NEWLINE c = false
                /\ Parser.is_type Lexer.RBRACE c = false
                /\ Parser.is_type Lexer.IDENTIFIER c = false).
  { unfold Parser.is_type. rewrite Hty. repeat split. }
  destruct Hcn as [Hcn [Hcb Hci]].
  destruct fuel as [|[|f]]; [lia | lia |].
  unfold Parser.parse_properties. unfold Parser.expect at 1.
  change (Parser.is_type Lexer.LBRACE
            (Parser.current_token
               (Parser.with_toks st (tok Lexer.LBRACE (VStr "{") :: _))))
    with true.
  cbv iota. rewrite (advance_token st (tok Lexer.LBRACE (VStr "{")) _ eq_refl).
  cbn [Parser.bind snd].
  rewrite (skip_newlines_none st (tok Lexer.IDENTIFIER (VStr k)) _ eq_refl).
  cbn [Parser.bind Parser.property_items].
  change (Parser.is_type Lexer.RBRACE
            (Parser.current_token
               (Parser.with_toks st (tok Lexer.IDENTIFIER (VStr k) :: _))))
    with false.
  change (Parser.is_type Lexer.IDENTIFIER
            (Parser.current_token
               (Parser.with_toks st (tok Lexer.IDENTIFIER (VStr k) :: _))))
    with true.
  cbv iota. cbn [negb]. cbv iota.
  rewrite (advance_token st (tok Lexer.IDENTIFIER (VStr k)) _ eq_refl).
  unfold Parser.expect at 1.
  change (Parser.is_type Lexer.COLON
            (Parser.current_token
               (Parser.with_toks st (tok Lexer.COLON (VStr ":") :: _))))
    with true.
  cbv iota. rewrite (advance_token st (tok Lexer.COLON (VStr ":")) _ eq_refl).
  cbn [Parser.bind snd].
  rewrite (value_reads_back st v Hk (S (S f)) _ Hf). cbn [Parser.bind fst snd].
  rewrite (skip_newlines_none st c rest Hcn). cbn [Parser.bind].
  unfold Parser.current_token at 1 2. cbn [Parser.toks Parser.with_toks].
  rewrite Hcb, Hci. cbn [negb Parser.bind snd fst].
  unfold Parser.expect, Parser.current_token. cbn [Parser.toks Parser.with_toks].
  rewrite Hcb, Hty. reflexivity.
Qed.

Lemma comma_between_properties_witness :
  Parser.parse_properties 4
    (Parser.with_toks Sample3.state
       (tok Lexer.LBRACE (VStr "{") :: tok Lexer.IDENTIFIER (VStr "a")
        :: tok Lexer.COLON (VStr ":") :: value_tokens (VList [VInt 1])
           ++ comma :: [tok Lexer.IDENTIFIER (VStr "b")]))
  = Parser.Failed
      (Parser.SyntaxError
         "Expected TokenType.RBRACE, got TokenType.COMMA at line 1").
Proof.
  apply (comma_between_properties_is_a_syntax_error Sample3.state "a"
           (VList [VInt 1]) comma [tok Lexer.IDENTIFIER (VStr "b")] 4).
  - reflexivity.
  - apply Nat.leb_le. reflexivity.
  - lia.
  - reflexivity.
Defined.
